(** * Langfuse dashboard: a shallow embedding of the browser client

    The client consists of two scripts:
    - [static/js/notifications.js]: the toast notification manager;
    - [static/js/app.js]: the dashboard controller (fetch, KPIs, table,
      pagination, charts, load orchestration).

    Conventions of the embedding.
    - A JavaScript string is a [string]; each [ascii] stands for one UTF-16
      code unit below 256, so [String.length] is the [.length] of the code.
    - A JavaScript number is an IEEE 754 double, a [float]: the measurements
      carried by trace records (latency, token counts), their sums and
      their means are computed with the operations of [PrimFloat], in the
      order in which the code computes them.
    - Integers that the code only counts, compares and prints (array
      lengths, record counts, page numbers, HTTP status, the limit, time
      values in milliseconds) are in [Z]: all of them stay below 2^53, where
      a double holds every integer exactly.
    - DOM state that a function writes is a record that the function
      transforms; pending [setTimeout] callbacks are an explicit timer queue. *)

From Stdlib Require Import ZArith Bool List Lia String Ascii.
From Stdlib Require Import Floats.PrimFloat.
From Stdlib Require Import Sorting.Sorted Sorting.Permutation.
From Stdlib Require Import DecimalString DecimalZ DecimalFacts.
Import ListNotations.

Local Open Scope string_scope.
Local Open Scope Z_scope.

(** ** JavaScript helpers shared by both scripts *)

Module JS.

(** [String(n)] and template interpolation of an integer below 10^21, where
    the rendering is the plain decimal numeral; the integers that the scripts
    print (a length, a page number, a status, the limit) are of that kind. *)
Definition show_Z (z : Z) : string := NilZero.string_of_int (Z.to_int z).

(** [s.length] as an integer. *)
Definition len (s : string) : Z := Z.of_nat (String.length s).

(** [s.slice(0, n)] for a non-negative [n]. *)
Definition slice0 (n : nat) (s : string) : string := substring 0 n s.

(** [x || d] on an optional string: [null], [undefined] and [''] are falsy. *)
Definition str_or (x : option string) (d : string) : string :=
  match x with
  | Some s => if (s =? "")%string then d else s
  | None => d
  end.

(** [x?.length || 0]. *)
Definition opt_len (x : option string) : Z :=
  match x with
  | Some s => len s
  | None => 0
  end.

(** The number that holds a count or an array length: the double with the
    same value, for an integer of magnitude below 2^53. *)
Fixpoint of_pos (p : positive) : float :=
  match p with
  | xH => 1%float
  | xO q => (2 * of_pos q)%float
  | xI q => (2 * of_pos q + 1)%float
  end.

Definition of_Z (z : Z) : float :=
  match z with
  | Z0 => 0%float
  | Zpos p => of_pos p
  | Zneg p => (- of_pos p)%float
  end.

(** Truthiness of a number: [0], [-0] and [NaN] are falsy. *)
Definition truthy (x : float) : bool := negb (is_zero x || is_nan x).

(** The names of the properties that every object inherits from
    [Object.prototype]: [o[name]] finds them, and [name in o] holds, whatever
    [o] holds itself. *)
Definition inheritedNames : list string :=
  ["constructor"; "__defineGetter__"; "__defineSetter__"; "hasOwnProperty";
   "__lookupGetter__"; "__lookupSetter__"; "isPrototypeOf";
   "propertyIsEnumerable"; "toString"; "valueOf"; "__proto__";
   "toLocaleString"].

Definition inherited (name : string) : bool :=
  existsb (String.eqb name) inheritedNames.

End JS.

(** ** notifications.js: the toast notification manager *)

Module Notifications.

(** A DOM element is known by its identity. *)
Definition elem := nat.

(** Callbacks handed to [setTimeout]: the auto-dismiss closure of [show]
    and the removal closure of [dismiss]. *)
Inductive task :=
| DismissTask (n : elem)
| RemoveTask (n : elem).

(** What [createNotification] renders into the element. *)
Record Toast := {
  className : string;
  titleHtml : string;
  messageHtml : string;
  hasProgress : bool
}.

Record Manager := {
  container : list elem;          (* children of .notification-container *)
  notifications : list elem;      (* this.notifications *)
  slideOut : list elem;           (* elements carrying class slide-out *)
  rendered : list (elem * Toast); (* innerHTML of each created element *)
  timers : list (Z * task);       (* pending timeouts: due time, callback *)
  clock : Z;                      (* current time in ms *)
  fresh : elem                    (* identity of the next created element *)
}.

Definition maxNotifications : nat := 5.

(** State after the constructor and [init]. *)
Definition init : Manager :=
  {| container := []; notifications := []; slideOut := []; rendered := [];
     timers := []; clock := 0; fresh := O |}.

Definition setTimeout (t : task) (delay : Z) (m : Manager) : Manager :=
  {| container := container m; notifications := notifications m;
     slideOut := slideOut m; rendered := rendered m;
     timers := timers m ++ [(clock m + delay, t)];
     clock := clock m; fresh := fresh m |}.

Definition hasParent (n : elem) (m : Manager) : bool :=
  existsb (Nat.eqb n) (container m).

(** [escapeHtml]: replaces each of the five characters ampersand, less-than,
    greater-than, double quote and single quote by its entity. *)
Fixpoint escapeHtml (text : string) : string :=
  match text with
  | EmptyString => EmptyString
  | String c rest =>
      let r := escapeHtml rest in
      if Ascii.eqb c "&"%char then "&amp;" ++ r
      else if Ascii.eqb c "<"%char then "&lt;" ++ r
      else if Ascii.eqb c ">"%char then "&gt;" ++ r
      else if Ascii.eqb c (ascii_of_nat 34) then "&quot;" ++ r
      else if Ascii.eqb c "'"%char then "&#039;" ++ r
      else String c r
  end.

(** [titles[type] || 'Notification']. The table is an object literal with
    the four types as its own properties. For any other type that is the
    name of a property every object inherits, the lookup finds that
    property, a function or an object, which is truthy and not a string:
    [None]. *)
Definition getDefaultTitle (type : string) : option string :=
  if (type =? "success")%string then Some "Success"
  else if (type =? "error")%string then Some "Error"
  else if (type =? "warning")%string then Some "Warning"
  else if (type =? "info")%string then Some "Information"
  else if JS.inherited type then None
  else Some "Notification".

(** [createNotification]: [None] stands for the [TypeError] that
    [escapeHtml] throws when the default title is not a string, and so has
    no [replace] method. Until then the function has created an element
    and nothing else. *)
Definition createNotification (message type : string) (title : option string)
    (duration : Z) : option Toast :=
  let title := match title with
               | Some t => if (t =? "")%string then getDefaultTitle type else Some t
               | None => getDefaultTitle type
               end in
  match title with
  | Some t =>
      Some {| className := "notification " ++ type;
              titleHtml := escapeHtml t;
              messageHtml := escapeHtml message;
              hasProgress := 0 <? duration |}
  | None => None
  end.

(** [dismiss(notification)]: returns at once for a missing or detached
    element; otherwise marks it and schedules its removal 300 ms later. *)
Definition dismiss (notification : option elem) (m : Manager) : Manager :=
  match notification with
  | None => m
  | Some n =>
      if negb (hasParent n m) then m
      else
        setTimeout (RemoveTask n) 300
          {| container := container m; notifications := notifications m;
             slideOut := n :: slideOut m; rendered := rendered m;
             timers := timers m; clock := clock m; fresh := fresh m |}
  end.

(** [indexOf] followed by [splice(index, 1)]. *)
Fixpoint splice_first (n : elem) (l : list elem) : list elem :=
  match l with
  | [] => []
  | x :: r => if Nat.eqb n x then r else x :: splice_first n r
  end.

(** The closure that [dismiss] schedules. *)
Definition removeNow (n : elem) (m : Manager) : Manager :=
  {| container := filter (fun x => negb (Nat.eqb n x)) (container m);
     notifications := splice_first n (notifications m);
     slideOut := slideOut m; rendered := rendered m;
     timers := timers m; clock := clock m; fresh := fresh m |}.

(** [show(message, type, title, duration)]: the element returned, or
    [None] when [createNotification] throws, and the state the call leaves
    behind. A call that throws has dismissed the oldest notification, if
    five were tracked, and has added nothing. *)
Definition show (message type : string) (title : option string)
    (duration : Z) (m : Manager) : option elem * Manager :=
  let m1 :=
    if (maxNotifications <=? List.length (notifications m))%nat
    then dismiss (hd_error (notifications m)) m
    else m in
  match createNotification message type title duration with
  | None => (None, m1)
  | Some toast =>
      let n := fresh m1 in
      let m2 :=
        {| container := container m1 ++ [n];
           notifications := notifications m1 ++ [n];
           slideOut := slideOut m1;
           rendered := (n, toast) :: rendered m1;
           timers := timers m1; clock := clock m1; fresh := S n |} in
      (Some n, if 0 <? duration then setTimeout (DismissTask n) duration m2 else m2)
  end.

Definition getCount (m : Manager) : nat := List.length (notifications m).

Definition hasNotifications (m : Manager) : bool :=
  (0 <? List.length (notifications m))%nat.

(** [dismissAll]: dismisses a copy of the tracking array, in order. *)
Definition dismissAll (m : Manager) : Manager :=
  fold_left (fun acc n => dismiss (Some n) acc) (notifications m) m.

(** The global convenience functions. *)
Definition showNotification message type title duration :=
  show message type title duration.
Definition showSuccess message := show message "success" (Some "Success") 5000.
Definition showError message := show message "error" (Some "Error") 5000.
Definition showWarning message := show message "warning" (Some "Warning") 5000.
Definition showInfo message := show message "info" (Some "Info") 5000.

(** *** The event loop *)

Definition fire (t : task) (m : Manager) : Manager :=
  match t with
  | DismissTask n => dismiss (Some n) m
  | RemoveTask n => removeNow n m
  end.

(** Takes the pending timer that is due first (the earliest registered
    among equals) out of the queue. *)
Fixpoint take_due (q : list (Z * task)) : option (Z * task * list (Z * task)) :=
  match q with
  | [] => None
  | (d, t) :: r =>
      match take_due r with
      | Some (d', t', r') =>
          if d' <? d then Some (d', t', (d, t) :: r') else Some (d, t, r)
      | None => Some (d, t, [])
      end
  end.

(** One turn of the loop: time passes until the next timer is due and its
    callback runs. [None] when no timer is pending. *)
Definition tick (m : Manager) : option Manager :=
  match take_due (timers m) with
  | None => None
  | Some (d, t, r) =>
      Some (fire t
              {| container := container m; notifications := notifications m;
                 slideOut := slideOut m; rendered := rendered m;
                 timers := r; clock := Z.max (clock m) d; fresh := fresh m |})
  end.

(** Time passes without any callback running, until [t]: a call of [show]
    or [dismiss] can come at any moment, and a timer may fire late. *)
Definition wait (t : Z) (m : Manager) : Manager :=
  {| container := container m; notifications := notifications m;
     slideOut := slideOut m; rendered := rendered m;
     timers := timers m; clock := Z.max (clock m) t; fresh := fresh m |}.

(** Runs pending timers, at most [fuel] of them, until none is left. *)
Fixpoint drain (fuel : nat) (m : Manager) : Manager :=
  match fuel with
  | O => m
  | S k => match tick m with
           | Some m' => drain k m'
           | None => m
           end
  end.

(** [k] calls of [show] in a row, with no timer firing in between. *)
Fixpoint burst (k : nat) (duration : Z) (m : Manager) : Manager :=
  match k with
  | O => m
  | S k' => burst k' duration (snd (show "msg" "info" None duration m))
  end.

(** The states the manager can get into: from the initial one by calls of
    [show], whether they return or throw, and of [dismiss], at whatever
    time, and by turns of the event loop. *)
Inductive reachable : Manager -> Prop :=
| reach_init : reachable init
| reach_wait (m : Manager) (t : Z) : reachable m -> reachable (wait t m)
| reach_show (m : Manager) message type title duration :
    reachable m -> reachable (snd (show message type title duration m))
| reach_dismiss (m : Manager) (n : option elem) :
    reachable m -> reachable (dismiss n m)
| reach_tick (m m' : Manager) :
    reachable m -> tick m = Some m' -> reachable m'.

End Notifications.

(** ** app.js: the trace fetcher *)

Module Json.

(** A parsed JSON document. *)
#[warnings="-register-all"] Inductive value :=
| JNull
| JBool (b : bool)
| JNum (x : float)
| JStr (s : string)
| JArr (items : list value)
| JObj (fields : list (string * value)).

(** [Array.isArray(v)]. *)
Definition isArray (v : value) : bool :=
  match v with
  | JArr _ => true
  | _ => false
  end.

(** Truthiness of a parsed value: [null], [false], [0], [-0] and [''] are
    falsy, arrays and objects are truthy. *)
Definition truthy (v : value) : bool :=
  match v with
  | JNull => false
  | JBool b => b
  | JNum x => JS.truthy x
  | JStr s => negb (s =? "")%string
  | JArr _ => true
  | JObj _ => true
  end.

(** Own property of a parsed object; where the document repeats a key the
    parser keeps the last occurrence. [None] is [undefined]. *)
Fixpoint lookup (k : string) (fields : list (string * value)) : option value :=
  match fields with
  | [] => None
  | (k', v) :: rest =>
      match lookup k rest with
      | Some w => Some w
      | None => if (k =? k')%string then Some v else None
      end
  end.

End Json.

Module Fetcher.
Import Json.

(** What can be thrown. [Error] is the constructor the code calls itself;
    the others come from the runtime. *)
Inductive exn :=
| Error (message : string)
| TypeError (message : string)
| SyntaxError (message : string).

Definition message_of (e : exn) : string :=
  match e with
  | Error m => m
  | TypeError m => m
  | SyntaxError m => m
  end.

(** How a promise settles. *)
Inductive settled (A : Type) :=
| Fulfilled (a : A)
| Rejected (e : exn).
Arguments Fulfilled {A} a.
Arguments Rejected {A} e.

(** An HTTP response: the status code and how [res.json()] settles, with
    the parsed body or with the parser's error. *)
Record Response := {
  status : Z;
  json : settled value
}.

(** [res.ok]: the status is in the range 200 to 299. *)
Definition ok (res : Response) : bool :=
  (200 <=? status res) && (status res <=? 299).

(** The address requested; [encodeURIComponent] leaves the decimal
    rendering of an integer as it is. *)
Definition request_url (limit : Z) : string :=
  "/api/traces?limit=" ++ JS.show_Z limit.

(** [data.traces]: reading a property of [null] throws (the text of the
    error is the engine's), reading it from a boolean, number or string
    gives [undefined]. *)
Definition get_traces (data : value) : settled (option value) :=
  match data with
  | JNull => Rejected (TypeError "Cannot read properties of null (reading 'traces')")
  | JObj fields => Fulfilled (lookup "traces" fields)
  | _ => Fulfilled None
  end.

(** [x || []]. *)
Definition or_empty (x : option value) : value :=
  match x with
  | Some v => if truthy v then v else JArr []
  | None => JArr []
  end.

(** [fetchTraces(limit)], given how [fetch] settles for each address. *)
Definition fetchTraces (fetch : string -> settled Response) (limit : Z)
  : settled value :=
  match fetch (request_url limit) with
  | Rejected e => Rejected e
  | Fulfilled res =>
      if negb (ok res)
      then Rejected (Error ("Failed to fetch traces: " ++ JS.show_Z (status res)))
      else
        match json res with
        | Rejected e => Rejected e
        | Fulfilled data =>
            if isArray data then Fulfilled data
            else
              match get_traces data with
              | Rejected e => Rejected e
              | Fulfilled t => Fulfilled (or_empty t)
              end
        end
  end.

End Fetcher.

(** ** app.js: trace records, KPIs, table and pagination *)

Module Dashboard.

(** A trace record as the renderers read it. Every field may be absent or
    [null], which is [None]. *)
Record Trace := {
  time : option string;
  model : option string;
  latency_ms : option float;
  total_tokens : option float;
  input_tokens : option float;
  output_tokens : option float;
  input_content : option string;
  output_content : option string
}.

Definition ROWS_PER_PAGE : Z := 10.
Definition PREVIEW_LENGTH : nat := 60.
Definition MAX_LIMIT : Z := 200.
Definition DEFAULT_LIMIT : Z := 50.

(** [x || 0] on an optional number: an absent measurement counts as 0, and
    so do the falsy numbers [-0] and [NaN]. *)
Definition num_or0 (x : option float) : float :=
  match x with
  | Some v => if JS.truthy v then v else 0%float
  | None => 0%float
  end.

(** *** updateKpis *)

Record Kpis := {
  kpiTotal : nat;
  avgLatency : float;
  avgTokens : float
}.

(** The three values that [updateKpis] computes, before they are formatted
    for the KPI elements. [reduce] adds from the left, starting from 0. *)
Definition updateKpis (items : list Trace) : Kpis :=
  let total := List.length items in
  {| kpiTotal := total;
     avgLatency :=
       if (total =? 0)%nat then 0%float
       else (fold_left (fun sum x => sum + num_or0 (latency_ms x)) items 0
             / JS.of_Z (Z.of_nat total))%float;
     avgTokens :=
       if (total =? 0)%nat then 0%float
       else (fold_left (fun sum x => sum + num_or0 (total_tokens x)) items 0
             / JS.of_Z (Z.of_nat total))%float |}.

(** *** updatePaginationControls *)

(** The value of [Math.ceil(a / b)] for integers [a] and [b]: division by
    zero gives an infinity, or [NaN] for [0 / 0]. *)
Inductive num :=
| Fin (z : Z)
| PosInf
| NegInf
| NaN.

Definition ceil_div (a b : Z) : num :=
  if b =? 0 then
    if a =? 0 then NaN else if 0 <? a then PosInf else NegInf
  else Fin (- ((- a) / b)).

(** [x <= y]; every comparison with [NaN] is false. *)
Definition num_leb (x y : num) : bool :=
  match x, y with
  | NaN, _ | _, NaN => false
  | NegInf, _ => true
  | _, PosInf => true
  | Fin a, Fin b => a <=? b
  | _, _ => false
  end.

Definition show_num (x : num) : string :=
  match x with
  | Fin z => JS.show_Z z
  | PosInf => "Infinity"
  | NegInf => "-Infinity"
  | NaN => "NaN"
  end.

(** The pagination controls: class [hidden] of the container, the text of
    [pageInfo] and the [disabled] flag of the two buttons. *)
Record Pagination := {
  hidden : bool;
  pageInfo : string;
  prevDisabled : bool;
  nextDisabled : bool
}.

Definition updatePaginationControls (totalItems page perPage : Z)
    (dom : Pagination) : Pagination :=
  let totalPages := ceil_div totalItems perPage in
  if (totalItems =? 0) || num_leb totalPages (Fin 1) then
    {| hidden := true; pageInfo := pageInfo dom;
       prevDisabled := prevDisabled dom; nextDisabled := nextDisabled dom |}
  else
    {| hidden := false;
       pageInfo := "Page " ++ JS.show_Z page ++ " of " ++ show_num totalPages;
       prevDisabled := page <=? 1;
       nextDisabled := num_leb totalPages (Fin page) |}.

(** *** updateTable *)

(** [a.slice(start, end)] on an array. *)
Definition slice {A : Type} (start end_ : Z) (a : list A) : list A :=
  let n := Z.of_nat (List.length a) in
  let rel i := if i <? 0 then Z.max (n + i) 0 else Z.min i n in
  let s := rel start in
  let e := rel end_ in
  firstn (Z.to_nat (e - s)) (skipn (Z.to_nat s) a).

(** Text of an input or output cell: the preview, then three dots when the
    preview is shorter than the content. *)
Definition previewCell (content : option string) : string :=
  let preview := JS.slice0 PREVIEW_LENGTH (JS.str_or content "") in
  preview ++ (if JS.len preview <? JS.opt_len content then "..." else "").

(** The cells of a row whose text does not depend on the locale. *)
Record Row := {
  modelCell : string;
  inputCell : string;
  inputTitle : string;
  outputCell : string;
  outputTitle : string
}.

Definition renderRow (item : Trace) : Row :=
  {| modelCell := JS.str_or (model item) "-";
     inputCell := previewCell (input_content item);
     inputTitle := JS.str_or (input_content item) "";
     outputCell := previewCell (output_content item);
     outputTitle := JS.str_or (output_content item) "" |}.

Definition updateTable (items : list Trace) (page perPage : Z)
    (dom : Pagination) : list Row * Pagination :=
  let start := (page - 1) * perPage in
  let end_ := start + perPage in
  (map renderRow (slice start end_ items),
   updatePaginationControls (Z.of_nat (List.length items)) page perPage dom).

End Dashboard.

(** ** The runtime's [Date], as far as app.js uses it *)

Module Dates.

(** A [Date] object holds a time value, milliseconds since the epoch, or
    is an invalid date ([None]). *)
Definition Date := option Z.

Definition msPerDay : Z := 86400000.
Definition maxTime : Z := 8640000000000000.

(** [TimeClip]: a time value further than 10^8 days from the epoch is not
    a time value. *)
Definition TimeClip (t : Z) : Date :=
  if Z.abs t <=? maxTime then Some t else None.

Definition Day (t : Z) : Z := t / msPerDay.
Definition TimeWithinDay (t : Z) : Z := t mod msPerDay.

Definition DayFromYear (y : Z) : Z :=
  365 * (y - 1970) + (y - 1969) / 4 - (y - 1901) / 100 + (y - 1601) / 400.

Definition DaysInYear (y : Z) : Z :=
  if negb (y mod 4 =? 0) then 365
  else if negb (y mod 100 =? 0) then 366
  else if negb (y mod 400 =? 0) then 365
  else 366.

(** The year in which day number [d] falls: the largest [y] with
    [DayFromYear y <= d], found from the mean length of a year and one
    correction step. *)
Definition YearFromDay (d : Z) : Z :=
  let y := 1970 + (400 * d) / 146097 in
  if d <? DayFromYear y then y - 1
  else if DayFromYear (y + 1) <=? d then y + 1
  else y.

Definition YearFromTime (t : Z) : Z := YearFromDay (Day t).

Definition InLeapYear (t : Z) : Z :=
  if DaysInYear (YearFromTime t) =? 366 then 1 else 0.

Definition DayWithinYear (t : Z) : Z := Day t - DayFromYear (YearFromTime t).

(** Month number, 0 for January. *)
Definition MonthFromTime (t : Z) : Z :=
  let d := DayWithinYear t in
  let l := InLeapYear t in
  if d <? 31 then 0
  else if d <? 59 + l then 1
  else if d <? 90 + l then 2
  else if d <? 120 + l then 3
  else if d <? 151 + l then 4
  else if d <? 181 + l then 5
  else if d <? 212 + l then 6
  else if d <? 243 + l then 7
  else if d <? 273 + l then 8
  else if d <? 304 + l then 9
  else if d <? 334 + l then 10
  else 11.

(** Day of the month, from 1. *)
Definition DateFromTime (t : Z) : Z :=
  let d := DayWithinYear t in
  let l := InLeapYear t in
  match MonthFromTime t with
  | 0 => d + 1
  | 1 => d - 30
  | 2 => d - 58 - l
  | 3 => d - 89 - l
  | 4 => d - 119 - l
  | 5 => d - 150 - l
  | 6 => d - 180 - l
  | 7 => d - 211 - l
  | 8 => d - 242 - l
  | 9 => d - 272 - l
  | 10 => d - 303 - l
  | _ => d - 333 - l
  end.

Definition HourFromTime (t : Z) : Z := TimeWithinDay t / 3600000.
Definition MinFromTime (t : Z) : Z := (TimeWithinDay t / 60000) mod 60.
Definition SecFromTime (t : Z) : Z := (TimeWithinDay t / 1000) mod 60.
Definition msFromTime (t : Z) : Z := TimeWithinDay t mod 1000.

Definition digit (z : Z) : ascii := ascii_of_nat (48 + Z.to_nat (z mod 10)).

(** The last [n] decimal digits of a non-negative [z], zero-padded. *)
Fixpoint pad (n : nat) (z : Z) : string :=
  match n with
  | O => EmptyString
  | S k => pad k (z / 10) ++ String (digit z) EmptyString
  end.

(** Years 0 to 9999 are written with four digits, the others with a sign
    and six digits. *)
Definition yearString (y : Z) : string :=
  if (0 <=? y) && (y <=? 9999) then pad 4 y
  else if y <? 0 then String "-" (pad 6 (- y))
  else String "+" (pad 6 y).

Definition isoOfTime (t : Z) : string :=
  yearString (YearFromTime t) ++ "-" ++ pad 2 (MonthFromTime t + 1)
    ++ "-" ++ pad 2 (DateFromTime t)
    ++ "T" ++ pad 2 (HourFromTime t) ++ ":" ++ pad 2 (MinFromTime t)
    ++ ":" ++ pad 2 (SecFromTime t) ++ "." ++ pad 3 (msFromTime t) ++ "Z".

(** [d.toISOString()]; [None] stands for the [RangeError] thrown on an
    invalid date. *)
Definition toISOString (d : Date) : option string :=
  match d with
  | Some t => Some (isoOfTime t)
  | None => None
  end.

(** *** A parser for the ISO date-time format

    [new Date(s)] accepts the ISO format and, beyond it, whatever the
    engine chooses to accept. The aggregation functions therefore take
    the parser as a parameter; [isoParse] is the parser of an engine that
    accepts the UTC forms [YYYY-MM-DD] and [YYYY-MM-DDTHH:mm:ss(.sss)Z],
    with four-digit or signed six-digit years, and nothing else. The
    engines read these forms as it does, and more forms besides; it serves
    in the examples only. *)

Definition digitVal (c : ascii) : option Z :=
  let n := nat_of_ascii c in
  if ((48 <=? n) && (n <=? 57))%nat then Some (Z.of_nat n - 48) else None.

(** Reads exactly [n] digits. *)
Fixpoint readDigits (n : nat) (acc : Z) (s : string) : option (Z * string) :=
  match n with
  | O => Some (acc, s)
  | S k =>
      match s with
      | String c r =>
          match digitVal c with
          | Some v => readDigits k (10 * acc + v) r
          | None => None
          end
      | EmptyString => None
      end
  end.

Definition expect (c : ascii) (s : string) : option string :=
  match s with
  | String c' r => if Ascii.eqb c c' then Some r else None
  | EmptyString => None
  end.

Definition readYear (s : string) : option (Z * string) :=
  match s with
  | String "+" r => readDigits 6 0 r
  | String "-" r =>
      match readDigits 6 0 r with
      | Some (y, r') => if y =? 0 then None else Some (- y, r')
      | None => None
      end
  | _ => readDigits 4 0 s
  end.

Definition daysBeforeMonth (y m : Z) : Z :=
  let l := if DaysInYear y =? 366 then 1 else 0 in
  match m with
  | 1 => 0
  | 2 => 31
  | 3 => 59 + l
  | 4 => 90 + l
  | 5 => 120 + l
  | 6 => 151 + l
  | 7 => 181 + l
  | 8 => 212 + l
  | 9 => 243 + l
  | 10 => 273 + l
  | 11 => 304 + l
  | _ => 334 + l
  end.

Definition daysInMonth (y m : Z) : Z :=
  if m =? 12 then 31 else daysBeforeMonth y (m + 1) - daysBeforeMonth y m.

Definition MakeDay (y m d : Z) : Z := DayFromYear y + daysBeforeMonth y m + (d - 1).

Definition readTime (s : string) : option Z :=
  match s with
  | EmptyString => Some 0
  | String "T" r =>
      match readDigits 2 0 r with
      | Some (h, r) =>
      match expect ":" r with
      | Some r =>
      match readDigits 2 0 r with
      | Some (mi, r) =>
      match expect ":" r with
      | Some r =>
      match readDigits 2 0 r with
      | Some (sec, r) =>
          let frac :=
            match r with
            | String "." r' => readDigits 3 0 r'
            | _ => Some (0, r)
            end in
          match frac with
          | Some (ms, String "Z" EmptyString) =>
              if (h <=? 23) && (mi <=? 59) && (sec <=? 59)
              then Some (((h * 60 + mi) * 60 + sec) * 1000 + ms)
              else None
          | _ => None
          end
      | None => None end
      | None => None end
      | None => None end
      | None => None end
      | None => None end
  | _ => None
  end.

Definition isoParse (s : string) : option Z :=
  match readYear s with
  | Some (y, r) =>
  match expect "-" r with
  | Some r =>
  match readDigits 2 0 r with
  | Some (m, r) =>
  match expect "-" r with
  | Some r =>
  match readDigits 2 0 r with
  | Some (d, r) =>
      if (1 <=? m) && (m <=? 12) && (1 <=? d) && (d <=? daysInMonth y m)
      then
        match readTime r with
        | Some t => Some (MakeDay y m d * msPerDay + t)
        | None => None
        end
      else None
  | None => None end
  | None => None end
  | None => None end
  | None => None end
  | None => None
  end.

End Dates.

(** ** app.js: the time-series aggregation *)

Module Charts.
Import Dashboard.

(** A day bucket. The two totals are doubles; [count] goes up by one for
    each record and is kept as the integer it is. *)
Record DayBucket := {
  date : string;
  totalLatency : float;
  totalTokens : float;
  count : Z
}.

(** The comparison of an engine whose collation orders strings by their
    code units. [localeCompare] itself depends on the locale of the engine
    (in the usual collations the hyphen sorts before the plus sign, in code
    units after it), so the aggregation takes it as a parameter; this one
    serves in the examples. *)
Definition codeUnitCompare (a b : string) : Z :=
  match String.compare a b with
  | Lt => -1
  | Eq => 0
  | Gt => 1
  end.

(** [a.sort(cmp)]: the sort is stable; each element goes behind the
    elements that do not compare greater. For a comparison that is
    consistent, as a collation is, this is the one order a stable sort can
    give. *)
Fixpoint insert_by {A : Type} (cmp : A -> A -> Z) (x : A) (l : list A) : list A :=
  match l with
  | [] => [x]
  | y :: r => if cmp x y <? 0 then x :: y :: r else y :: insert_by cmp x r
  end.

Definition sort_by {A : Type} (cmp : A -> A -> Z) (l : list A) : list A :=
  fold_left (fun acc x => insert_by cmp x acc) l [].

(** The object [byDay]: its own properties in insertion order. *)
Definition byDayObj := list (string * DayBucket).

Fixpoint has_key (key : string) (o : byDayObj) : bool :=
  match o with
  | [] => false
  | (k, _) :: r => (k =? key)%string || has_key key r
  end.

(** [byDay[key].totalLatency += ...] and the two updates after it. *)
Fixpoint accumulate (key : string) (x : Trace) (o : byDayObj) : byDayObj :=
  match o with
  | [] => []
  | (k, b) :: r =>
      if (k =? key)%string then
        (k, {| date := date b;
               totalLatency := (totalLatency b + num_or0 (latency_ms x))%float;
               totalTokens := (totalTokens b + num_or0 (total_tokens x))%float;
               count := count b + 1 |}) :: r
      else (k, b) :: accumulate key x r
  end.

Section WithEngine.

(** How the engine reads a date string: its time value, if any. *)
Variable parse : string -> option Z.

(** [a.localeCompare(b)] in the locale of the engine: negative when [a]
    sorts before [b], positive when it sorts after. *)
Variable localeCompare : string -> string -> Z.

(** [new Date(s)]. *)
Definition newDate (s : string) : Dates.Date :=
  match parse s with
  | Some t => Dates.TimeClip t
  | None => None
  end.

(** [new Date(s).toISOString().slice(0, 10)]; [None] when
    [toISOString] throws. *)
Definition dayKey (s : string) : option string :=
  match Dates.toISOString (newDate s) with
  | Some iso => Some (JS.slice0 10 iso)
  | None => None
  end.

(** The body of the [forEach] callback of [groupByDay]. *)
Definition addToDay (o : byDayObj) (x : Trace) : byDayObj :=
  match time x with
  | None => o
  | Some t =>
      if (t =? "")%string then o
      else
        match dayKey t with
        | None => o
        | Some key =>
            let o1 :=
              if negb (has_key key o)
              then (o ++ [(key, {| date := key; totalLatency := 0%float;
                                   totalTokens := 0%float; count := 0 |})])%list
              else o in
            accumulate key x o1
        end
  end.

Definition groupByDay (items : list Trace) : list DayBucket :=
  sort_by (fun a b => localeCompare (date a) (date b))
    (map snd (fold_left addToDay items [])).

End WithEngine.

(** *** buildSeriesByMetric *)

Record Series := {
  labels : list string;
  data : list float;
  label : string
}.

Definition buildSeriesByMetric (days : list DayBucket) (metric : string) : Series :=
  let labels := map date days in
  if (metric =? "avgLatency")%string then
    {| labels := labels;
       data := map (fun d => if count d =? 0 then 0%float
                             else (totalLatency d / JS.of_Z (count d))%float) days;
       label := "Average latency (ms) per day" |}
  else if (metric =? "totalCalls")%string then
    {| labels := labels;
       data := map (fun d => JS.of_Z (count d)) days;
       label := "Total calls per day" |}
  else if (metric =? "totalTokens")%string then
    {| labels := labels;
       data := map totalTokens days;
       label := "Total tokens per day" |}
  else
    {| labels := labels; data := []; label := "Unknown Metric" |}.

End Charts.

(** ** app.js: the per-model aggregation *)

Module ModelChart.

Definition CHART_COLORS : list string :=
  ["rgba(59, 130, 246, 0.8)"; "rgba(34, 197, 94, 0.8)";
   "rgba(245, 158, 11, 0.8)"; "rgba(239, 68, 68, 0.8)";
   "rgba(168, 85, 247, 0.8)"; "rgba(14, 165, 233, 0.8)";
   "rgba(236, 72, 153, 0.8)"; "rgba(163, 230, 53, 0.8)"].

Record DayModelBucket := {
  date : string;
  model : string;
  count : Z;
  totalTokens : float;
  totalLatency : float
}.

(** [s.replace(/\|/g, '-')]. *)
Fixpoint replacePipes (s : string) : string :=
  match s with
  | EmptyString => EmptyString
  | String c r => String (if Ascii.eqb c "|" then "-"%char else c) (replacePipes r)
  end.

(** [(x.model || 'Unknown').replace(/\|/g, '-')]. *)
Definition modelName (x : Dashboard.Trace) : string :=
  replacePipes (JS.str_or (Dashboard.model x) "Unknown").

(** The object [byDayModel]: its own properties in insertion order. *)
Definition byDayModelObj := list (string * DayModelBucket).

Fixpoint has_key (key : string) (o : byDayModelObj) : bool :=
  match o with
  | [] => false
  | (k, _) :: r => (k =? key)%string || has_key key r
  end.

(** The three updates of [byDayModel[key]]. *)
Fixpoint accumulate (key : string) (x : Dashboard.Trace) (o : byDayModelObj)
  : byDayModelObj :=
  match o with
  | [] => []
  | (k, b) :: r =>
      if (k =? key)%string then
        (k, {| date := date b; model := model b;
               count := count b + 1;
               totalTokens :=
                 (totalTokens b
                  + Dashboard.num_or0 (Dashboard.total_tokens x))%float;
               totalLatency :=
                 (totalLatency b
                  + Dashboard.num_or0 (Dashboard.latency_ms x))%float |})
          :: r
      else (k, b) :: accumulate key x r
  end.

(** The names that every object inherits; [x in o] holds for them whatever
    [o] holds itself. *)
Definition inheritedNames : list string := JS.inheritedNames.

Definition inherited (name : string) : bool := JS.inherited name.

(** A data point of a dataset: a number, or what an object inherits under
    the name of the model when the object has no such property itself. *)
Inductive point :=
| Value (v : float)
| Inherited (name : string).

(** The inner objects of [dataMap]: own properties by name. *)
Definition modelObj := list (string * float).

Fixpoint own (name : string) (o : modelObj) : option float :=
  match o with
  | [] => None
  | (k, v) :: r => if (k =? name)%string then Some v else own name r
  end.

(** [o[name] = v]. An assignment to [__proto__] with a number is ignored by
    the setter that objects inherit. *)
Fixpoint assign (name : string) (v : float) (o : modelObj) : modelObj :=
  match o with
  | [] => [(name, v)]
  | (k, w) :: r =>
      if (k =? name)%string then (k, v) :: r else (k, w) :: assign name v r
  end.

Definition setProp (name : string) (v : float) (o : modelObj) : modelObj :=
  if (name =? "__proto__")%string then o else assign name v o.

Definition dataMapObj := list (string * modelObj).

Fixpoint getDate (d : string) (m : dataMapObj) : option modelObj :=
  match m with
  | [] => None
  | (k, o) :: r => if (k =? d)%string then Some o else getDate d r
  end.

(** [dataMap[d] = f(dataMap[d])] on the entry of [d]. *)
Fixpoint update (d : string) (f : modelObj -> modelObj) (m : dataMapObj)
  : dataMapObj :=
  match m with
  | [] => []
  | (k, o) :: r => if (k =? d)%string then (k, f o) :: r else (k, o) :: update d f r
  end.

(** The value that the metric takes on a bucket; [None] for a metric that
    none of the three tests recognises. *)
Definition metricValue (metric : string) (x : DayModelBucket) : option float :=
  if (metric =? "calls")%string then Some (JS.of_Z (count x))
  else if (metric =? "tokens")%string then Some (totalTokens x)
  else if (metric =? "avgLatency")%string then
    Some (if count x =? 0 then 0%float
          else (totalLatency x / JS.of_Z (count x))%float)
  else None.

(** The body of the [forEach] callback that fills [dataMap]. *)
Definition fill (metric : string) (m : dataMapObj) (x : DayModelBucket)
  : dataMapObj :=
  let m1 :=
    match getDate (date x) m with
    | None => (m ++ [(date x, [])])%list
    | Some _ => m
    end in
  match metricValue metric x with
  | Some v => update (date x) (setProp (model x) v) m1
  | None => m1
  end.

(** [(dataMap[d] && (name in dataMap[d])) ? dataMap[d][name] : 0]. *)
Definition readPoint (m : dataMapObj) (d name : string) : point :=
  match getDate d m with
  | None => Value 0
  | Some o =>
      match own name o with
      | Some v => Value v
      | None => if inherited name then Inherited name else Value 0
      end
  end.

(** [[...new Set(l)]]: the first occurrences, in order. *)
Fixpoint uniqueFrom (seen : list string) (l : list string) : list string :=
  match l with
  | [] => []
  | x :: r =>
      if existsb (String.eqb x) seen then uniqueFrom seen r
      else x :: uniqueFrom (x :: seen) r
  end.

Definition unique (l : list string) : list string := uniqueFrom [] l.

(** The comparison of [a.sort()] without an argument: strings by their
    code units. *)
Definition defaultCompare (a b : string) : Z :=
  match String.compare a b with
  | Lt => -1
  | Eq => 0
  | Gt => 1
  end.

(** [s.replace(pat, rep)] with a string pattern: the first occurrence. *)
Fixpoint replaceFirst (pat rep s : string) : string :=
  if prefix pat s
  then rep ++ substring (String.length pat) (String.length s - String.length pat) s
  else
    match s with
    | EmptyString => EmptyString
    | String c r => String c (replaceFirst pat rep r)
    end.

Record Dataset := {
  label : string;
  data : list point;
  backgroundColor : string;
  borderColor : string;
  borderWidth : Z
}.

Record ModelSeries := {
  labels : list string;
  datasets : list Dataset
}.

(** [a.map((x, idx) => f(x, idx))], counting from [idx]. *)
Fixpoint mapi {A B : Type} (f : A -> nat -> B) (idx : nat) (l : list A) : list B :=
  match l with
  | [] => []
  | x :: r => f x idx :: mapi f (S idx) r
  end.

Section WithParser.

(** How the engine reads a date string: its time value, if any. *)
Variable parse : string -> option Z.

(** The body of the [forEach] callback of [groupByDayAndModel]. *)
Definition addToDayModel (o : byDayModelObj) (x : Dashboard.Trace) : byDayModelObj :=
  match Dashboard.time x with
  | None => o
  | Some t =>
      if (t =? "")%string then o
      else
        match Charts.dayKey parse t with
        | None => o
        | Some dateKey =>
            let model := modelName x in
            let key := dateKey ++ "|" ++ model in
            let o1 :=
              if negb (has_key key o)
              then (o ++ [(key, {| date := dateKey; model := model; count := 0;
                                   totalTokens := 0; totalLatency := 0 |})])%list
              else o in
            accumulate key x o1
        end
  end.

Definition groupByDayAndModel (items : list Dashboard.Trace) : list DayModelBucket :=
  map snd (fold_left addToDayModel items []).

Definition buildModelChartSeries (items : list Dashboard.Trace) (metric : string)
  : ModelSeries :=
  let grouped := groupByDayAndModel items in
  let dates := Charts.sort_by defaultCompare (unique (map date grouped)) in
  let models := unique (map model grouped) in
  let dataMap := fold_left (fill metric) grouped [] in
  {| labels := dates;
     datasets :=
       mapi (fun model idx =>
               let color :=
                 nth (idx mod List.length CHART_COLORS) CHART_COLORS "" in
               {| label := model;
                  data := map (fun date => readPoint dataMap date model) dates;
                  backgroundColor := color;
                  borderColor := replaceFirst "0.8" "1" color;
                  borderWidth := 1 |})
            0 models |}.

End WithParser.

(** The axis title that [updateModelChart] derives from the metric. *)
Definition metricLabel (metric : string) : string :=
  if (metric =? "avgLatency")%string then "Avg Latency (ms)"
  else if (metric =? "tokens")%string then "Tokens"
  else "Calls".

End ModelChart.

(** ** app.js: the load action and the page navigation *)

Module Loader.
Import Dashboard Fetcher.

(** The module-level variables of app.js together with the controls the
    load action reads and writes. *)
Record App := {
  allItems : list Trace;
  currentPage : Z;
  isLoading : bool;
  limitInput : string;       (* value of the limit input *)
  loadBtnText : string;      (* text of the load button *)
  loadBtnDisabled : bool;
  kpis : Kpis;               (* last values written by updateKpis *)
  tableRows : list Row;      (* rows of the table body *)
  pagination : Pagination
}.

(** What the load action does to the outside, in order. *)
Inductive effect :=
| Warning (message : string)   (* showWarning *)
| Info (message : string)      (* showInfo *)
| Success (message : string)   (* showSuccess *)
| Failure (message : string)   (* showError *)
| Request (limit : Z)          (* fetchTraces(limit) is started *)
| Redraw (items : list Trace). (* updateChart and updateModelChart *)

(** *** parseInt(s, 10) *)

Definition isWhite (c : ascii) : bool :=
  let n := nat_of_ascii c in
  ((9 <=? n) && (n <=? 13) || (n =? 32) || (n =? 160))%nat.

Fixpoint trimStart (s : string) : string :=
  match s with
  | String c r => if isWhite c then trimStart r else s
  | EmptyString => s
  end.

(** The value of the longest prefix of decimal digits, [None] when the
    prefix is empty. *)
Fixpoint leadingDigits (s : string) (acc : option Z) : option Z :=
  match s with
  | String c r =>
      match Dates.digitVal c with
      | Some v =>
          leadingDigits r (Some (10 * match acc with Some a => a | None => 0 end + v))
      | None => acc
      end
  | EmptyString => acc
  end.

(** [parseInt(s, 10)]: the integer that the leading numeral denotes; [None]
    is [NaN]. The engine rounds an integer past 2^53 to a double; the load
    action only compares the result with 1 and 200 and uses it when it lies
    between them, which the rounding does not change. *)
Definition parseInt (s : string) : option Z :=
  match trimStart s with
  | String "-" r => option_map Z.opp (leadingDigits r None)
  | String "+" r => leadingDigits r None
  | r => leadingDigits r None
  end.

(** *** onLoadClick *)

(** The action either returns at once or reaches [await fetchTraces(limit)];
    there it hands back the rest of its body, which runs on the state of
    the page at the time the fetch settles. *)
Inductive run :=
| Returned (s : App) (log : list effect)
| Awaiting (s : App) (log : list effect) (limit : Z)
    (resume : settled (list Trace) -> App -> App * list effect).

(** [err.message || String(err)]. *)
Definition describe (e : exn) : string :=
  if (message_of e =? "")%string then
    match e with
    | Error _ => "Error"
    | TypeError _ => "TypeError"
    | SyntaxError _ => "SyntaxError"
    end
  else message_of e.

(** The [finally] block. *)
Definition release (s : App) : App :=
  {| allItems := allItems s; currentPage := currentPage s;
     isLoading := false;
     limitInput := limitInput s;
     loadBtnText := "Load"; loadBtnDisabled := false;
     kpis := kpis s; tableRows := tableRows s; pagination := pagination s |}.

(** The body of the [try] after the fetch has settled, the [catch] and the
    [finally]. *)
Definition afterFetch (r : settled (list Trace)) (s : App) : App * list effect :=
  match r with
  | Fulfilled items =>
      let t := updateTable items 1 ROWS_PER_PAGE (pagination s) in
      (release
         {| allItems := items; currentPage := 1;
            isLoading := isLoading s;
            limitInput := limitInput s;
            loadBtnText := loadBtnText s; loadBtnDisabled := loadBtnDisabled s;
            kpis := updateKpis items; tableRows := fst t; pagination := snd t |},
       [Redraw items;
        Success ("Loaded " ++ JS.show_Z (Z.of_nat (List.length items)) ++ " traces")])
  | Rejected e => (release s, [Failure (describe e)])
  end.

Definition onLoadClick (s : App) : run :=
  if isLoading s then Returned s [Warning "Already loading..."]
  else
    let parsed := parseInt (limitInput s) in
    let invalid :=
      match parsed with
      | None => true
      | Some limit => (limit <? 1) || (MAX_LIMIT <? limit)
      end in
    let limit := if invalid then DEFAULT_LIMIT
                 else match parsed with Some l => l | None => DEFAULT_LIMIT end in
    let s1 :=
      {| allItems := allItems s; currentPage := currentPage s;
         isLoading := true;
         limitInput := if invalid then JS.show_Z DEFAULT_LIMIT else limitInput s;
         loadBtnText := "Loading..."; loadBtnDisabled := true;
         kpis := kpis s; tableRows := tableRows s; pagination := pagination s |} in
    Awaiting s1
      ((if invalid
        then [Warning ("Limit reset to " ++ JS.show_Z DEFAULT_LIMIT)]
        else []) ++ [Info "Loading traces..."; Request limit])%list
      limit afterFetch.

(** The state the action leaves behind when it returns or suspends, what it
    has done until then, and the limit of the fetch it waits for. *)
Definition state_of (r : run) : App :=
  match r with
  | Returned s _ => s
  | Awaiting s _ _ _ => s
  end.

Definition log_of (r : run) : list effect :=
  match r with
  | Returned _ log => log
  | Awaiting _ log _ _ => log
  end.

Definition requested (r : run) : option Z :=
  match r with
  | Returned _ _ => None
  | Awaiting _ _ limit _ => Some limit
  end.

(** *** Page navigation *)

Definition showPage (page : Z) (s : App) : App :=
  let t := updateTable (allItems s) page ROWS_PER_PAGE (pagination s) in
  {| allItems := allItems s; currentPage := page; isLoading := isLoading s;
     limitInput := limitInput s;
     loadBtnText := loadBtnText s; loadBtnDisabled := loadBtnDisabled s;
     kpis := kpis s; tableRows := fst t; pagination := snd t |}.

Definition goToNextPage (s : App) : App :=
  match ceil_div (Z.of_nat (List.length (allItems s))) ROWS_PER_PAGE with
  | Fin totalPages =>
      if currentPage s <? totalPages then showPage (currentPage s + 1) s else s
  | _ => s
  end.

Definition goToPrevPage (s : App) : App :=
  if 1 <? currentPage s then showPage (currentPage s - 1) s else s.

(** The page as the script finds it: no items, page 1, not loading. *)
Definition start (limit : string) : App :=
  {| allItems := []; currentPage := 1; isLoading := false;
     limitInput := limit; loadBtnText := "Load"; loadBtnDisabled := false;
     kpis := updateKpis [];
     tableRows := [];
     pagination := {| hidden := true; pageInfo := ""; prevDisabled := false;
                      nextDisabled := false |} |}.

End Loader.


(** ** Notions of the specification that the statements below use *)

Module Contract.
Import Fetcher Dashboard.

(** Reads a decimal integer back; the inverse of [JS.show_Z]. *)
Definition read_Z (s : string) : option Z :=
  option_map Z.of_int (NilZero.int_of_string s).

(** The HTTP status that a fetch error carries: the number that follows the
    fixed text of its message. *)
Definition carried_status (e : exn) : option Z :=
  match e with
  | Error m =>
      if prefix "Failed to fetch traces: " m
      then read_Z (substring 24 (String.length m - 24) m)
      else None
  | _ => None
  end.

(** The sum of a sequence of numbers: they are added to 0 one after the
    other, from the first to the last, each addition rounding as the
    arithmetic of doubles does. *)
Definition sum (l : list float) : float := fold_left PrimFloat.add l 0%float.

(** A string that is a decimal integer: an optional minus sign and then
    digits only, at least one. *)
Fixpoint allDigits (s : string) : bool :=
  match s with
  | EmptyString => true
  | String c r =>
      match Dates.digitVal c with
      | Some _ => allDigits r
      | None => false
      end
  end.

Definition isInteger (s : string) : bool :=
  match s with
  | EmptyString => false
  | String "-" EmptyString => false
  | String "-" r => allDigits r
  | _ => allDigits s
  end.

(** The bucket key of a record: the key of its timestamp, unless the
    timestamp is absent, empty or not a date. *)
Definition keyOf (parse : string -> option Z) (x : Trace) : option string :=
  match time x with
  | Some t => if (t =? "")%string then None else Charts.dayKey parse t
  | None => None
  end.

Definition inDay (parse : string -> option Z) (key : string) (x : Trace) : bool :=
  match keyOf parse x with
  | Some k => (k =? key)%string
  | None => false
  end.

(** The aggregate of the records of one day: their latencies and token
    counts summed in the order of the sequence, and their number. *)
Definition bucketOf (parse : string -> option Z) (key : string)
    (items : list Trace) : Charts.DayBucket :=
  let xs := filter (inDay parse key) items in
  {| Charts.date := key;
     Charts.totalLatency :=
       fold_left (fun sum x => sum + num_or0 (latency_ms x))%float xs 0%float;
     Charts.totalTokens :=
       fold_left (fun sum x => sum + num_or0 (total_tokens x))%float xs 0%float;
     Charts.count := Z.of_nat (List.length xs) |}.

(** Strictly ascending order of the dates by code units. *)
Definition date_lt (a b : Charts.DayBucket) : Prop :=
  String.compare (Charts.date a) (Charts.date b) = Lt.

(** Ascending order of the buckets in a collation: no bucket is followed,
    at whatever distance, by one whose date sorts before its own. *)
Definition ascending (cmp : string -> string -> Z)
    (days : list Charts.DayBucket) : Prop :=
  StronglySorted (fun a b => ~ cmp (Charts.date b) (Charts.date a) < 0) days.

(** The UTC calendar day of a time value, written year-month-day with
    four, two and two digits. *)
Definition calendarDay (t : Z) : string :=
  Dates.pad 4 (Dates.YearFromTime t) ++ "-"
    ++ Dates.pad 2 (Dates.MonthFromTime t + 1) ++ "-"
    ++ Dates.pad 2 (Dates.DateFromTime t).

(** Days of the year before month [m] (0 for January), [l] being 1 in a
    leap year. *)
Definition daysBefore (l m : Z) : Z :=
  match m with
  | 0 => 0
  | 1 => 31
  | 2 => 59 + l
  | 3 => 90 + l
  | 4 => 120 + l
  | 5 => 151 + l
  | 6 => 181 + l
  | 7 => 212 + l
  | 8 => 243 + l
  | 9 => 273 + l
  | 10 => 304 + l
  | _ => 334 + l
  end.

(** A record that has a bucket key. *)
Definition hasDay (parse : string -> option Z) (x : Trace) : bool :=
  match keyOf parse x with
  | Some _ => true
  | None => false
  end.

(** The comparison that [groupByDay] sorts with. *)
Definition by_date (cmp : string -> string -> Z) (a b : Charts.DayBucket) : Z :=
  cmp (Charts.date a) (Charts.date b).

(** A bucket after one more record has been added to it, and the bucket
    that [groupByDay] creates. *)
Definition bump (b : Charts.DayBucket) (x : Trace) : Charts.DayBucket :=
  {| Charts.date := Charts.date b;
     Charts.totalLatency := (Charts.totalLatency b + num_or0 (latency_ms x))%float;
     Charts.totalTokens := (Charts.totalTokens b + num_or0 (total_tokens x))%float;
     Charts.count := Charts.count b + 1 |}.

Definition emptyBucket (key : string) : Charts.DayBucket :=
  {| Charts.date := key; Charts.totalLatency := 0%float;
     Charts.totalTokens := 0%float; Charts.count := 0 |}.

(** What ties the object [byDay] to the records read so far. *)
Definition tracks (parse : string -> option Z) (items : list Trace)
    (o : Charts.byDayObj) : Prop :=
  NoDup (map fst o)
  /\ (forall k b, In (k, b) o ->
        b = bucketOf parse k items
        /\ exists x, In x items /\ keyOf parse x = Some k)
  /\ (forall x k, In x items -> keyOf parse x = Some k -> In k (map fst o)).

End Contract.

(** ** Further notions, for the properties beyond the specification *)

Module Notions.
Import Notifications.

(** How many turns of the event loop a timer can still cause: the
    auto-dismiss callback may schedule a removal, a removal schedules
    nothing. *)
Definition task_weight (t : task) : nat :=
  match t with
  | DismissTask _ => 2
  | RemoveTask _ => 1
  end.

Fixpoint weight (q : list (Z * task)) : nat :=
  match q with
  | [] => 0
  | (_, t) :: r => task_weight t + weight r
  end.

(** What was rendered into element [n]. *)
Fixpoint toastIn (n : elem) (l : list (elem * Toast)) : option Toast :=
  match l with
  | [] => None
  | (k, t) :: r => if Nat.eqb n k then Some t else toastIn n r
  end.

Definition toastOf (n : elem) (m : Manager) : option Toast :=
  toastIn n (rendered m).

(** A timer of element [n] is pending. *)
Definition pendingFor (n : elem) (m : Manager) : Prop :=
  exists d, In (d, DismissTask n) (timers m) \/ In (d, RemoveTask n) (timers m).

Definition removalPending (n : elem) (m : Manager) : Prop :=
  exists d, In (d, RemoveTask n) (timers m).

(** [later m m']: the manager gets from state [m] to state [m'] by further
    calls of [show] and [dismiss] and turns of the event loop, in any number
    and order and at whatever time. *)
Inductive later (m : Manager) : Manager -> Prop :=
| later_now : later m m
| later_wait (m' : Manager) (t : Z) : later m m' -> later m (wait t m')
| later_show (m' : Manager) message type title duration :
    later m m' -> later m (snd (show message type title duration m'))
| later_dismiss (m' : Manager) (n : option elem) :
    later m m' -> later m (dismiss n m')
| later_tick (m' m'' : Manager) :
    later m m' -> tick m' = Some m'' -> later m m''.

(** The state in which [show] creates its element: the one it was called
    in, with the oldest notification dismissed if five or more are
    tracked. *)
Definition afterEviction (m : Manager) : Manager :=
  if (maxNotifications <=? List.length (notifications m))%nat
  then dismiss (hd_error (notifications m)) m
  else m.

(** The array without element [n]. *)
Definition without (n : elem) (l : list elem) : list elem :=
  filter (fun x => negb (Nat.eqb n x)) l.

(** What a call of [show] adds when it returns element [n], and when it
    throws. *)
Definition added (r : option elem) : list elem :=
  match r with
  | Some n => [n]
  | None => []
  end.

(** The states the page can get into: from the page as the script finds
    it, by the user editing the limit input, clicking Load and paging, and by
    a pending fetch settling, in any number and order. *)
Inductive visited : Loader.App -> Prop :=
| visited_start (limit : string) : visited (Loader.start limit)
| visited_input (s : Loader.App) (v : string) :
    visited s ->
    visited {| Loader.allItems := Loader.allItems s;
               Loader.currentPage := Loader.currentPage s;
               Loader.isLoading := Loader.isLoading s;
               Loader.limitInput := v;
               Loader.loadBtnText := Loader.loadBtnText s;
               Loader.loadBtnDisabled := Loader.loadBtnDisabled s;
               Loader.kpis := Loader.kpis s;
               Loader.tableRows := Loader.tableRows s;
               Loader.pagination := Loader.pagination s |}
| visited_click (s : Loader.App) :
    visited s -> visited (Loader.state_of (Loader.onLoadClick s))
| visited_settle (s : Loader.App) (r : Fetcher.settled (list Dashboard.Trace)) :
    visited s -> visited (fst (Loader.afterFetch r s))
| visited_next (s : Loader.App) : visited s -> visited (Loader.goToNextPage s)
| visited_prev (s : Loader.App) : visited s -> visited (Loader.goToPrevPage s).

(** Occurrence of a character in a string. *)
Fixpoint occurs (c : ascii) (s : string) : bool :=
  match s with
  | EmptyString => false
  | String x r => Ascii.eqb c x || occurs c r
  end.

(** The page numbers 1 to [pages]. *)
Definition pageNumbers (pages : Z) : list Z :=
  map (fun k => Z.of_nat (S k)) (seq 0 (Z.to_nat pages)).

(** The records counted over all the buckets. *)
Fixpoint sumCounts (days : list Charts.DayBucket) : Z :=
  match days with
  | [] => 0
  | b :: r => Charts.count b + sumCounts r
  end.

(** Strictly ascending order of strings by code units. *)
Definition str_lt (a b : string) : Prop := String.compare a b = Lt.

(** The last bucket of a day and a model. *)
Definition lastFor (d name : string) (grouped : list ModelChart.DayModelBucket)
  : option ModelChart.DayModelBucket :=
  find (fun b => (ModelChart.date b =? d)%string
                 && (ModelChart.model b =? name)%string)
       (rev grouped).

(** What a dataset shows for a day and a model: the metric of their bucket
    (the number is not stored under the name [__proto__]); without a stored
    number, what the object inherits under the name, or else 0; and 0 for a
    day without any bucket. *)
Definition expectedPoint (metric : string)
    (grouped : list ModelChart.DayModelBucket) (d name : string)
  : ModelChart.point :=
  if negb (existsb (fun b => (ModelChart.date b =? d)%string) grouped)
  then ModelChart.Value 0
  else
    let fallback :=
      if ModelChart.inherited name then ModelChart.Inherited name
      else ModelChart.Value 0 in
    match lastFor d name grouped with
    | Some b =>
        match ModelChart.metricValue metric b with
        | Some v => if (name =? "__proto__")%string then fallback
                    else ModelChart.Value v
        | None => fallback
        end
    | None => fallback
    end.

(** The position of the first occurrence of a string in a list. *)
Fixpoint indexOf (d : string) (l : list string) : option nat :=
  match l with
  | [] => None
  | x :: r => if (x =? d)%string then Some O else option_map S (indexOf d r)
  end.

(** The point that a chart shows for a model at a day: in the dataset that
    is labelled with the model, the entry at the position that the day has
    among the labels. *)
Definition shownPoint (s : ModelChart.ModelSeries) (name d : string)
  : option ModelChart.point :=
  match find (fun ds => (ModelChart.label ds =? name)%string)
             (ModelChart.datasets s),
        indexOf d (ModelChart.labels s) with
  | Some ds, Some i => nth_error (ModelChart.data ds) i
  | _, _ => None
  end.

(** The number stored for a day and a model while [dataMap] is filled. *)
Definition stored (metric : string) (grouped : list ModelChart.DayModelBucket)
    (d name : string) : option float :=
  match lastFor d name grouped with
  | Some b =>
      match ModelChart.metricValue metric b with
      | Some v => if (name =? "__proto__")%string then None else Some v
      | None => None
      end
  | None => None
  end.

(** A record of day [d] and model [name]. *)
Definition inPair (parse : string -> option Z) (d name : string)
    (x : Dashboard.Trace) : bool :=
  match Contract.keyOf parse x with
  | Some k => (k =? d)%string && (ModelChart.modelName x =? name)%string
  | None => false
  end.

(** The aggregate of the records of one day and one model. *)
Definition bucketOfModel (parse : string -> option Z) (d name : string)
    (items : list Dashboard.Trace) : ModelChart.DayModelBucket :=
  let xs := filter (inPair parse d name) items in
  {| ModelChart.date := d;
     ModelChart.model := name;
     ModelChart.count := Z.of_nat (List.length xs);
     ModelChart.totalTokens :=
       fold_left (fun sum x =>
                    sum + Dashboard.num_or0 (Dashboard.total_tokens x))%float
         xs 0%float;
     ModelChart.totalLatency :=
       fold_left (fun sum x =>
                    sum + Dashboard.num_or0 (Dashboard.latency_ms x))%float
         xs 0%float |}.

Definition compositeKey (d name : string) : string := d ++ "|" ++ name.

Definition bumpModel (b : ModelChart.DayModelBucket) (x : Dashboard.Trace)
  : ModelChart.DayModelBucket :=
  {| ModelChart.date := ModelChart.date b;
     ModelChart.model := ModelChart.model b;
     ModelChart.count := ModelChart.count b + 1;
     ModelChart.totalTokens :=
       (ModelChart.totalTokens b
        + Dashboard.num_or0 (Dashboard.total_tokens x))%float;
     ModelChart.totalLatency :=
       (ModelChart.totalLatency b
        + Dashboard.num_or0 (Dashboard.latency_ms x))%float |}.

Definition emptyModelBucket (d name : string) : ModelChart.DayModelBucket :=
  {| ModelChart.date := d; ModelChart.model := name; ModelChart.count := 0;
     ModelChart.totalTokens := 0%float; ModelChart.totalLatency := 0%float |}.

(** What ties the object [byDayModel] to the records read so far. *)
Definition tracksModel (parse : string -> option Z)
    (items : list Dashboard.Trace) (o : ModelChart.byDayModelObj) : Prop :=
  NoDup (map fst o)
  /\ (forall k b, In (k, b) o ->
        k = compositeKey (ModelChart.date b) (ModelChart.model b)
        /\ b = bucketOfModel parse (ModelChart.date b) (ModelChart.model b) items
        /\ exists x, In x items
                     /\ Contract.keyOf parse x = Some (ModelChart.date b)
                     /\ ModelChart.modelName x = ModelChart.model b)
  /\ (forall x d, In x items -> Contract.keyOf parse x = Some d ->
        In (compositeKey d (ModelChart.modelName x)) (map fst o)).

End Notions.

(** * Properties of the notification manager *)

Module NotificationFacts.
Import Notifications Notions.
Local Open Scope list_scope.

Lemma dismiss_keeps_tracking (n : option elem) (m : Manager) :
  notifications (dismiss n m) = notifications m.
Proof.
  destruct n as [n|]; simpl; [|reflexivity].
  destruct (hasParent n m); reflexivity.
Qed.

Lemma dismiss_keeps_fresh (n : option elem) (m : Manager) :
  fresh (dismiss n m) = fresh m.
Proof.
  destruct n as [n|]; simpl; [|reflexivity].
  destruct (hasParent n m); reflexivity.
Qed.

Lemma dismiss_attached (n : elem) (m : Manager) :
  hasParent n m = true ->
  dismiss (Some n) m =
    {| container := container m; notifications := notifications m;
       slideOut := n :: slideOut m; rendered := rendered m;
       timers := timers m ++ [(clock m + 300, RemoveTask n)];
       clock := clock m; fresh := fresh m |}.
Proof.
  intros H. unfold dismiss. rewrite H. reflexivity.
Qed.

Lemma dismiss_keeps_rendered (n : option elem) (m : Manager) :
  rendered (dismiss n m) = rendered m.
Proof.
  destruct n as [n|]; simpl; [|reflexivity].
  destruct (hasParent n m); reflexivity.
Qed.

Lemma dismiss_keeps_clock (n : option elem) (m : Manager) :
  clock (dismiss n m) = clock m.
Proof.
  destruct n as [n|]; simpl; [|reflexivity].
  destruct (hasParent n m); reflexivity.
Qed.

Lemma dismiss_keeps_container (n : option elem) (m : Manager) :
  container (dismiss n m) = container m.
Proof.
  destruct n as [n|]; simpl; [|reflexivity].
  destruct (hasParent n m); reflexivity.
Qed.

Lemma dismiss_timers (n : option elem) (m : Manager) :
  timers (dismiss n m) = timers m
  \/ exists k, n = Some k /\ hasParent k m = true
               /\ timers (dismiss n m) = timers m ++ [(clock m + 300, RemoveTask k)].
Proof.
  destruct n as [k|]; simpl; [|now left].
  destruct (hasParent k m) eqn:E; simpl; [right | now left].
  exists k. split; [reflexivity|]. split; [exact E | reflexivity].
Qed.

Lemma dismiss_keeps_timers (n : option elem) (m : Manager) x :
  In x (timers m) -> In x (timers (dismiss n m)).
Proof.
  intros H. destruct (dismiss_timers n m) as [-> | (k & _ & _ & ->)];
    [exact H | apply in_or_app; now left].
Qed.

(** The eviction of [show] touches neither the two arrays nor the rendered
    elements, and takes no timer away. *)
Lemma afterEviction_keeps (m : Manager) :
  notifications (afterEviction m) = notifications m
  /\ container (afterEviction m) = container m
  /\ fresh (afterEviction m) = fresh m
  /\ rendered (afterEviction m) = rendered m
  /\ clock (afterEviction m) = clock m
  /\ (forall x, In x (timers m) -> In x (timers (afterEviction m))).
Proof.
  unfold afterEviction.
  destruct (maxNotifications <=? List.length (notifications m))%nat.
  - rewrite dismiss_keeps_tracking, dismiss_keeps_container, dismiss_keeps_fresh,
      dismiss_keeps_rendered, dismiss_keeps_clock.
    repeat split. intros x. apply dismiss_keeps_timers.
  - repeat split. auto.
Qed.

Lemma show_unfold message type title duration (m : Manager) :
  show message type title duration m
  = match createNotification message type title duration with
    | None => (None, afterEviction m)
    | Some toast =>
        let n := fresh (afterEviction m) in
        let m2 :=
          {| container := container (afterEviction m) ++ [n];
             notifications := notifications (afterEviction m) ++ [n];
             slideOut := slideOut (afterEviction m);
             rendered := (n, toast) :: rendered (afterEviction m);
             timers := timers (afterEviction m);
             clock := clock (afterEviction m); fresh := S n |} in
        (Some n,
         if 0 <? duration then setTimeout (DismissTask n) duration m2 else m2)
    end.
Proof. reflexivity. Qed.

(** The two ways in which a call of [show] ends. *)
Lemma show_throws message type title duration (m : Manager) :
  createNotification message type title duration = None ->
  show message type title duration m = (None, afterEviction m).
Proof. intros H. rewrite show_unfold. now rewrite H. Qed.

Lemma show_returns message type title duration (m : Manager) (toast : Toast) :
  createNotification message type title duration = Some toast ->
  show message type title duration m
  = (Some (fresh m),
     {| container := container m ++ [fresh m];
        notifications := notifications m ++ [fresh m];
        slideOut := slideOut (afterEviction m);
        rendered := (fresh m, toast) :: rendered m;
        timers := timers (afterEviction m)
                  ++ (if 0 <? duration
                      then [(clock m + duration, DismissTask (fresh m))]
                      else []);
        clock := clock m; fresh := S (fresh m) |}).
Proof.
  intros H. rewrite show_unfold, H. cbv zeta.
  destruct (afterEviction_keeps m) as (E1 & E2 & E3 & E4 & E5 & _).
  rewrite E1, E2, E3, E4.
  destruct (0 <? duration); unfold setTimeout; cbn [container notifications
    slideOut rendered timers clock fresh]; rewrite ?E5, ?List.app_nil_r;
    reflexivity.
Qed.

(** [show] never shortens the tracking array: the array after the call is
    the array before it, with the new element pushed at the end when the
    call returns one. *)
Lemma show_pushes message type title duration (m : Manager) :
  notifications (snd (show message type title duration m))
  = notifications m ++ added (fst (show message type title duration m))
  /\ container (snd (show message type title duration m))
     = container m ++ added (fst (show message type title duration m)).
Proof.
  destruct (createNotification message type title duration) as [toast|] eqn:E.
  - rewrite (show_returns _ _ _ _ _ _ E). split; reflexivity.
  - rewrite (show_throws _ _ _ _ _ E). cbn [fst snd added].
    destruct (afterEviction_keeps m) as (E1 & E2 & _).
    now rewrite E1, E2, !List.app_nil_r.
Qed.

(** The default title is missing exactly for the types that name a property
    every object inherits, and [show] throws exactly when it needs a default
    title and there is none. *)
Lemma getDefaultTitle_none (type : string) :
  getDefaultTitle type = None <-> JS.inherited type = true.
Proof.
  unfold getDefaultTitle.
  destruct (String.eqb_spec type "success") as [-> | _];
    [split; discriminate|].
  destruct (String.eqb_spec type "error") as [-> | _];
    [split; discriminate|].
  destruct (String.eqb_spec type "warning") as [-> | _];
    [split; discriminate|].
  destruct (String.eqb_spec type "info") as [-> | _];
    [split; discriminate|].
  destruct (JS.inherited type); split; congruence.
Qed.

Lemma show_throws_iff message type title duration (m : Manager) :
  fst (show message type title duration m) = None
  <-> (title = None \/ title = Some "") /\ JS.inherited type = true.
Proof.
  rewrite <- getDefaultTitle_none.
  destruct (createNotification message type title duration) as [toast|] eqn:E.
  - rewrite (show_returns _ _ _ _ _ _ E). cbn [fst].
    split; [discriminate|]. intros [Ht Hn]. unfold createNotification in E.
    destruct Ht as [-> | ->]; cbn in E; rewrite Hn in E; discriminate.
  - rewrite (show_throws _ _ _ _ _ E). cbn [fst]. split; [|reflexivity].
    intros _. unfold createNotification in E.
    destruct title as [t|].
    + destruct (String.eqb_spec t "") as [-> | _].
      * split; [now right|]. now destruct (getDefaultTitle type).
      * discriminate.
    + split; [now left|]. now destruct (getDefaultTitle type).
Qed.

Lemma splice_first_head (n : elem) (l : list elem) :
  splice_first n (n :: l) = l.
Proof. simpl. rewrite Nat.eqb_refl. reflexivity. Qed.

Lemma hasParent_after_removal (n : elem) (m : Manager) :
  hasParent n (removeNow n m) = false.
Proof.
  unfold hasParent, removeNow. simpl.
  induction (container m) as [|x l IH]; simpl; [reflexivity|].
  destruct (Nat.eqb n x) eqn:E; simpl; [exact IH|].
  rewrite E. exact IH.
Qed.

(** C1 as stated fails: the sixth [show] in a row leaves six notifications
    tracked, the oldest among them. *)
Lemma sixth_show_tracks_six :
  let m' := snd (show "sixth" "info" None 5000 (burst 5 5000 init)) in
  getCount (burst 5 5000 init) = 5%nat
  /\ notifications m' = [0; 1; 2; 3; 4; 5]%nat
  /\ ~ (getCount m' <= 5)%nat.
Proof.
  repeat split. vm_compute. lia.
Qed.

(** With timers running in between, the scenario of the claim ends as it
    says: 300 ms after the sixth [show] the oldest is gone and five remain. *)
Lemma sixth_show_then_transition :
  option_map notifications (tick (burst 6 5000 init)) = Some [1; 2; 3; 4; 5]%nat
  /\ option_map clock (tick (burst 6 5000 init)) = Some 300.
Proof. split; reflexivity. Qed.

(** A burst is not recovered from: every [show] past the fifth dismisses
    the same oldest element, whose removal happens once. After seven
    persistent notifications in a row and all timers run, six stay tracked
    with no timer left to remove any. *)
Lemma burst_of_seven_settles_at_six :
  let m := drain 100 (burst 7 0 init) in
  notifications m = [1; 2; 3; 4; 5; 6]%nat /\ timers m = [] /\ tick m = None.
Proof. repeat split. Qed.

(** *** Tracked notifications are attached *)

Lemma hasParent_In (n : elem) (m : Manager) :
  hasParent n m = true <-> In n (container m).
Proof.
  unfold hasParent. rewrite existsb_exists. split.
  - intros [x [Hx E]]. apply Nat.eqb_eq in E. now subst.
  - intros H. exists n. split; [exact H | apply Nat.eqb_refl].
Qed.

Lemma splice_first_In (n x : elem) (l : list elem) :
  In x (splice_first n l) -> In x l.
Proof.
  induction l as [|y l IH]; simpl; [tauto|].
  destruct (Nat.eqb n y); simpl; tauto.
Qed.

Lemma splice_first_NoDup (n : elem) (l : list elem) :
  NoDup l -> NoDup (splice_first n l) /\ ~ In n (splice_first n l).
Proof.
  induction l as [|y l IH]; simpl; intros H.
  - split; [constructor | tauto].
  - inversion H as [|? ? Hy Hl]; subst.
    destruct (Nat.eqb_spec n y) as [-> | Hne].
    + now split.
    + destruct (IH Hl) as [H1 H2]. split.
      * constructor; [|exact H1]. intros C. apply Hy. now apply splice_first_In in C.
      * simpl. intros [C | C]; [congruence | contradiction].
Qed.

(** In every state the manager can get into, the tracking array has no
    element twice and every tracked element is attached to the container. *)
Lemma reachable_invariant (m : Manager) :
  reachable m ->
  NoDup (notifications m)
  /\ (forall n, In n (notifications m) -> In n (container m))
  /\ (forall n, In n (container m) -> (n < fresh m)%nat).
Proof.
  induction 1 as [|m t _ IH
                  |m message type title duration _ (Hd & Ht & Hf)
                  |m n _ (Hd & Ht & Hf)
                  |m m' _ (Hd & Ht & Hf) Htick].
  - split; [constructor|]. split; intros n [].
  - exact IH.
  - destruct (createNotification message type title duration) as [toast|] eqn:E.
    + rewrite (show_returns _ _ _ _ _ _ E).
      cbn [snd notifications container fresh]. split; [|split].
      * apply NoDup_app; [exact Hd | repeat constructor; tauto |].
        intros n Hn [<- | []]. apply Ht, Hf in Hn. lia.
      * intros n Hn. apply in_app_or in Hn. apply in_or_app.
        destruct Hn as [Hn | Hn]; [left; now apply Ht | now right].
      * intros n Hn. apply in_app_or in Hn.
        destruct Hn as [Hn | [<- | []]]; [apply Hf in Hn|]; lia.
    + rewrite (show_throws _ _ _ _ _ E). cbn [snd].
      destruct (afterEviction_keeps m) as (E1 & E2 & E3 & _).
      now rewrite E1, E2, E3.
  - now rewrite dismiss_keeps_tracking, dismiss_keeps_container, dismiss_keeps_fresh.
  - unfold tick in Htick. destruct (take_due (timers m)) as [[[d t] r]|];
      [|discriminate]. inversion Htick as [E]. clear Htick E.
    destruct t as [n | n]; cbn [fire].
    + now rewrite dismiss_keeps_tracking, dismiss_keeps_container,
        dismiss_keeps_fresh.
    + cbn [removeNow notifications container fresh].
      destruct (splice_first_NoDup n _ Hd) as [H1 H2].
      split; [exact H1|]. split.
      * intros x Hx. apply filter_In. split.
        -- now apply Ht, (splice_first_In n).
        -- apply negb_true_iff, Nat.eqb_neq. intros ->. contradiction.
      * intros x Hx. apply filter_In in Hx. now apply Hf.
Qed.

Lemma reachable_tracked_attached (m : Manager) (n : elem) :
  reachable m -> In n (notifications m) -> hasParent n m = true.
Proof.
  intros R Hn. apply hasParent_In. now apply (reachable_invariant m R).
Qed.

Lemma burst_reachable (k : nat) (duration : Z) (m : Manager) :
  reachable m -> reachable (burst k duration m).
Proof.
  revert m. induction k as [|k IH]; intros m R; cbn [burst]; [exact R|].
  apply IH. now apply reach_show.
Qed.

End NotificationFacts.

(** * Properties of the trace fetcher *)

Module FetcherFacts.
Import Json Fetcher Contract.

Lemma read_show_Z (z : Z) : read_Z (JS.show_Z z) = Some z.
Proof.
  unfold read_Z, JS.show_Z.
  rewrite NilZero.isi.
  - simpl. now rewrite DecimalZ.of_to.
  - destruct z; discriminate || (simpl; intros [= H]; revert H;
      destruct (Pos.to_uint p) eqn:E; try discriminate;
      intros _; now apply (DecimalPos.Unsigned.to_uint_nonnil p)).
  - destruct z; discriminate || (simpl; intros [= H]; revert H;
      destruct (Pos.to_uint p) eqn:E; try discriminate;
      intros _; now apply (DecimalPos.Unsigned.to_uint_nonnil p)).
Qed.

Lemma substring_after_prefix (p s : string) :
  substring (String.length p) (String.length (p ++ s) - String.length p) (p ++ s)%string = s.
Proof.
  induction p as [|c p IH]; simpl.
  - rewrite Nat.sub_0_r. induction s as [|c s IHs]; simpl; [reflexivity|].
    now rewrite IHs.
  - exact IH.
Qed.

Lemma prefix_of_append (p s : string) : prefix p (p ++ s) = true.
Proof.
  induction p as [|c p IH]; simpl.
  - now destruct s.
  - destruct (ascii_dec c c) as [_|N]; [exact IH | now elim N].
Qed.

(** The status is recovered from the error that a failed fetch throws. *)
Lemma status_is_carried (st : Z) :
  carried_status (Error ("Failed to fetch traces: " ++ JS.show_Z st)) = Some st.
Proof.
  unfold carried_status.
  rewrite prefix_of_append.
  change 24%nat with (String.length "Failed to fetch traces: ").
  rewrite substring_after_prefix. apply read_show_Z.
Qed.

(** C3. Whatever response [fetch] delivers: when its status is outside the
    success class, [fetchTraces] fails with the error whose message carries
    the status; when it is in the success class and the body is an array, or
    an object whose [traces] property is an array, [fetchTraces] returns that
    array. *)
Theorem fetchTraces_contract (fetch : string -> settled Response) (limit : Z)
    (res : Response) :
  fetch (request_url limit) = Fulfilled res ->
  (ok res = false ->
     exists e, fetchTraces fetch limit = Rejected e
               /\ e = Error ("Failed to fetch traces: " ++ JS.show_Z (status res))
               /\ carried_status e = Some (status res))
  /\ (ok res = true ->
      forall traces,
        json res = Fulfilled (JArr traces)
        \/ (exists fields, json res = Fulfilled (JObj fields)
                           /\ lookup "traces" fields = Some (JArr traces)) ->
        fetchTraces fetch limit = Fulfilled (JArr traces)).
Proof.
  intros Hf. unfold fetchTraces. rewrite Hf. split.
  - intros Hok. rewrite Hok. simpl. eexists. split; [reflexivity|].
    split; [reflexivity|]. apply status_is_carried.
  - intros Hok traces [Hb | [fields [Hb Hl]]]; rewrite Hok, Hb; simpl.
    + reflexivity.
    + rewrite Hl. reflexivity.
Qed.

Lemma fetchTraces_contract_witness :
  (exists e,
     fetchTraces (fun _ => Fulfilled {| status := 404; json := Rejected (SyntaxError "Unexpected end of JSON input") |}) 50
       = Rejected e /\ e = Error "Failed to fetch traces: 404"
     /\ carried_status e = Some 404)
  /\ fetchTraces
       (fun _ => Fulfilled {| status := 200; json := Fulfilled (JArr [JObj []]) |}) 50
     = Fulfilled (JArr [JObj []])
  /\ fetchTraces
       (fun _ => Fulfilled
          {| status := 200;
             json := Fulfilled (JObj [("traces", JArr [JObj []])]) |}) 50
     = Fulfilled (JArr [JObj []]).
Proof.
  split; [|split].
  - exact (proj1 (fetchTraces_contract
                    (fun _ => Fulfilled {| status := 404; json := Rejected (SyntaxError "Unexpected end of JSON input") |}) 50
                    _ eq_refl) eq_refl).
  - exact (proj2 (fetchTraces_contract
                    (fun _ => Fulfilled
                       {| status := 200; json := Fulfilled (JArr [JObj []]) |}) 50
                    _ eq_refl) eq_refl _ (or_introl eq_refl)).
  - exact (proj2 (fetchTraces_contract
                    (fun _ => Fulfilled
                       {| status := 200;
                          json := Fulfilled (JObj [("traces", JArr [JObj []])]) |}) 50
                    _ eq_refl) eq_refl _
             (or_intror (ex_intro _ _ (conj eq_refl eq_refl)))).
Defined.

(** A failure of the transport is passed on as it is. *)
Lemma fetchTraces_network_failure fetch limit e :
  fetch (request_url limit) = Rejected e ->
  fetchTraces fetch limit = Rejected e.
Proof. intros H. unfold fetchTraces. now rewrite H. Qed.

(** C10. A success-class response whose body is an object without an own
    [traces] property, or with [traces] being [null], gives the empty
    array. *)
Theorem fetchTraces_object_without_traces (fetch : string -> settled Response)
    (limit : Z) (res : Response) (fields : list (string * value)) :
  fetch (request_url limit) = Fulfilled res ->
  ok res = true ->
  json res = Fulfilled (JObj fields) ->
  lookup "traces" fields = None \/ lookup "traces" fields = Some JNull ->
  fetchTraces fetch limit = Fulfilled (JArr []).
Proof.
  intros Hf Hok Hb Hl. unfold fetchTraces. rewrite Hf, Hok, Hb. simpl.
  destruct Hl as [-> | ->]; reflexivity.
Qed.

Lemma fetchTraces_object_without_traces_witness :
  fetchTraces
    (fun _ => Fulfilled
       {| status := 200; json := Fulfilled (JObj [("error", JStr "none")]) |}) 50
  = Fulfilled (JArr [])
  /\ fetchTraces
       (fun _ => Fulfilled
          {| status := 201; json := Fulfilled (JObj [("traces", JNull)]) |}) 50
     = Fulfilled (JArr []).
Proof.
  split.
  - exact (fetchTraces_object_without_traces
             (fun _ => Fulfilled
                {| status := 200; json := Fulfilled (JObj [("error", JStr "none")]) |})
             50 _ _ eq_refl eq_refl eq_refl (or_introl eq_refl)).
  - exact (fetchTraces_object_without_traces
             (fun _ => Fulfilled
                {| status := 201; json := Fulfilled (JObj [("traces", JNull)]) |})
             50 _ _ eq_refl eq_refl eq_refl (or_intror eq_refl)).
Defined.

End FetcherFacts.

(** * Properties of the KPIs, the table preview and the pagination *)

Module DashboardFacts.
Import Dashboard Contract.
Local Open Scope list_scope.

(** *** updateKpis *)

Lemma fold_left_adds (f : Trace -> float) (items : list Trace) (acc : float) :
  fold_left (fun sum x => sum + f x)%float items acc
  = fold_left PrimFloat.add (map f items) acc.
Proof.
  revert acc. induction items as [|x items IH]; intros acc; simpl;
    [reflexivity | apply IH].
Qed.

(** C5. For a non-empty sequence the two means are the sum of the
    latencies, respectively of the total token counts, divided by the number
    of records. The sum is the sum of doubles, taken in the order of the
    sequence; a measurement that is absent (or [-0] or [NaN]) counts as 0.
    For the empty sequence both means are 0, where the quotient of the sum
    and the number of records would be [NaN]. *)
Theorem updateKpis_means (items : list Trace) :
  let n := JS.of_Z (Z.of_nat (List.length items)) in
  let latencies := map (fun x => num_or0 (latency_ms x)) items in
  let tokens := map (fun x => num_or0 (total_tokens x)) items in
  (items <> [] ->
     avgLatency (updateKpis items) = (sum latencies / n)%float
     /\ avgTokens (updateKpis items) = (sum tokens / n)%float)
  /\ (items = [] ->
        avgLatency (updateKpis items) = 0%float
        /\ avgTokens (updateKpis items) = 0%float
        /\ (sum latencies / n)%float = nan
        /\ (sum tokens / n)%float = nan)
  /\ kpiTotal (updateKpis items) = List.length items.
Proof.
  intros n latencies tokens. split; [|split].
  - intros Hne. destruct items as [|x items]; [now elim Hne|].
    unfold updateKpis. cbn [avgLatency avgTokens List.length Nat.eqb].
    fold n. unfold sum, latencies, tokens.
    now rewrite !fold_left_adds.
  - intros E. unfold latencies, tokens, n. rewrite E. repeat split.
  - reflexivity.
Qed.

Lemma updateKpis_means_witness :
  let items :=
    [ {| time := Some "2024-01-01T10:00:00Z"; model := Some "gpt-4";
         latency_ms := Some 120%float; total_tokens := Some 50%float;
         input_tokens := None; output_tokens := None;
         input_content := None; output_content := None |};
      {| time := None; model := None;
         latency_ms := None; total_tokens := Some 10%float;
         input_tokens := None; output_tokens := None;
         input_content := None; output_content := None |} ] in
  avgLatency (updateKpis items) = (sum [120; 0] / JS.of_Z 2)%float
  /\ avgTokens (updateKpis items) = (sum [50; 10] / JS.of_Z 2)%float.
Proof.
  intros items.
  apply (proj1 (updateKpis_means items)).
  discriminate.
Defined.

(** The means of the worked example, and a sequence on which the order of
    the records shows: the sum of doubles is not associative. *)
Lemma updateKpis_examples :
  let rec l :=
    {| time := None; model := None; latency_ms := Some l; total_tokens := None;
       input_tokens := None; output_tokens := None;
       input_content := None; output_content := None |} in
  (avgLatency (updateKpis [rec 120; rec 80]) = 100
   /\ avgLatency (updateKpis [rec 9007199254740992; rec 1; rec 1])
      <> avgLatency (updateKpis [rec 1; rec 1; rec 9007199254740992]))%float.
Proof. split; [reflexivity|]. vm_compute. discriminate. Qed.

(** *** The preview of the input and output cells *)







(** Absent or empty content gives an empty cell. *)
Lemma previewCell_absent : previewCell None = "" /\ previewCell (Some "") = "".
Proof. split; reflexivity. Qed.

(** *** updatePaginationControls *)

Lemma ceil_div_nonzero (a b : Z) : b <> 0 -> ceil_div a b = Fin (- ((- a) / b)).
Proof.
  intros H. unfold ceil_div. now rewrite (proj2 (Z.eqb_neq b 0) H).
Qed.

(** The quotient that [ceil_div] gives is the ceiling of [a / b]. *)
Lemma ceil_div_is_ceiling (a b : Z) :
  0 < b -> b * (- ((- a) / b) - 1) < a <= b * (- ((- a) / b)).
Proof.
  intros H.
  pose proof (Z.div_mod (- a) b ltac:(lia)) as E.
  pose proof (Z.mod_pos_bound (- a) b H) as B.
  nia.
Qed.

(** C7. For a positive page size the controls are hidden exactly when the
    number of pages Y, the ceiling of total / perPage, is at most 1.
    Otherwise, for a page X, one of the pages 1 to Y, they are shown with
    the text "Page X of Y", the previous button is disabled exactly when
    X = 1 and the next button exactly when X = Y. *)
Theorem pagination_rule (total page perPage : Z) (dom : Pagination) :
  0 < perPage ->
  exists pages,
    ceil_div total perPage = Fin pages
    /\ perPage * (pages - 1) < total <= perPage * pages
    /\ let dom' := updatePaginationControls total page perPage dom in
       (hidden dom' = true <-> pages <= 1)
       /\ (1 < pages -> 1 <= page <= pages ->
           hidden dom' = false
           /\ pageInfo dom'
              = ("Page " ++ JS.show_Z page ++ " of " ++ JS.show_Z pages)%string
           /\ (prevDisabled dom' = true <-> page = 1)
           /\ (nextDisabled dom' = true <-> page = pages)).
Proof.
  intros Hp. assert (Hnz : perPage <> 0) by lia.
  exists (- ((- total) / perPage)).
  split; [now apply ceil_div_nonzero|].
  split; [now apply ceil_div_is_ceiling|].
  unfold updatePaginationControls. rewrite (ceil_div_nonzero _ _ Hnz).
  set (pages := - ((- total) / perPage)).
  assert (Hz : total = 0 -> pages = 0).
  { intros ->. unfold pages. change (- 0) with 0. now rewrite Zdiv_0_l. }
  cbn [num_leb].
  destruct (total =? 0) eqn:Et; [apply Z.eqb_eq in Et | apply Z.eqb_neq in Et];
    cbn [orb].
  - cbn [hidden]. specialize (Hz Et). split; [split; [lia | reflexivity]|]. lia.
  - destruct (pages <=? 1) eqn:Ep;
      [apply Z.leb_le in Ep | apply Z.leb_gt in Ep]; cbn [hidden].
    + split; [split; [lia | reflexivity]|]. lia.
    + split; [split; [discriminate | lia]|].
      intros _ Hr. cbn [pageInfo prevDisabled nextDisabled show_num].
      rewrite !Z.leb_le. repeat split; try lia.
Qed.

Lemma pagination_rule_witness :
  let dom := {| hidden := true; pageInfo := ""; prevDisabled := false;
                nextDisabled := false |} in
  exists pages,
    ceil_div 25 10 = Fin pages
    /\ 10 * (pages - 1) < 25 <= 10 * pages
    /\ let dom' := updatePaginationControls 25 3 10 dom in
       (hidden dom' = true <-> pages <= 1)
       /\ (1 < pages -> 1 <= 3 <= pages ->
           hidden dom' = false
           /\ pageInfo dom'
              = ("Page " ++ JS.show_Z 3 ++ " of " ++ JS.show_Z pages)%string
           /\ (prevDisabled dom' = true <-> 3 = 1)
           /\ (nextDisabled dom' = true <-> 3 = pages)).
Proof.
  intros dom. apply (pagination_rule 25 3 10 dom). lia.
Defined.

(** Outside the pages there are, the buttons follow the comparisons of the
    code: at page 0 of 3 the previous button is disabled, and at page 5 of 3
    the next button. The scripts pass no such page. *)
Lemma pagination_page_zero :
  let dom' := updatePaginationControls 25 0 10
                {| hidden := true; pageInfo := ""; prevDisabled := false;
                   nextDisabled := false |} in
  ceil_div 25 10 = Fin 3
  /\ hidden dom' = false
  /\ pageInfo dom' = "Page 0 of 3"
  /\ prevDisabled dom' = true.
Proof. repeat split. Qed.

Lemma pagination_past_last_page :
  let dom' := updatePaginationControls 25 5 10
                {| hidden := true; pageInfo := ""; prevDisabled := false;
                   nextDisabled := false |} in
  hidden dom' = false /\ nextDisabled dom' = true.
Proof. repeat split. Qed.

(** With page size 0 and no items the quotient is [NaN], which is not at
    most 1, and the controls are hidden all the same. The scripts pass no
    page size but 10. *)
Lemma pagination_zero_page_size (page : Z) (dom : Pagination) :
  ceil_div 0 0 = NaN
  /\ num_leb (ceil_div 0 0) (Fin 1) = false
  /\ hidden (updatePaginationControls 0 page 0 dom) = true.
Proof. repeat split. Qed.

(** The navigation keeps the page within 1 and the number of pages, the
    range in which the buttons are disabled at the first and the last page
    only. *)
Lemma navigation_keeps_page_in_range (s : Loader.App) (pages : Z) :
  ceil_div (Z.of_nat (List.length (Loader.allItems s))) ROWS_PER_PAGE = Fin pages ->
  1 <= Loader.currentPage s <= pages ->
  1 <= Loader.currentPage (Loader.goToNextPage s) <= pages
  /\ 1 <= Loader.currentPage (Loader.goToPrevPage s) <= pages.
Proof.
  intros Hc Hr. unfold Loader.goToNextPage, Loader.goToPrevPage. rewrite Hc.
  destruct (Loader.currentPage s <? pages) eqn:E1;
    [apply Z.ltb_lt in E1 | apply Z.ltb_ge in E1];
    destruct (1 <? Loader.currentPage s) eqn:E2;
    [apply Z.ltb_lt in E2 | apply Z.ltb_ge in E2 | apply Z.ltb_lt in E2
     | apply Z.ltb_ge in E2];
    simpl; lia.
Qed.

End DashboardFacts.

(** * Properties of the load action *)

Module LoaderFacts.
Import Dashboard Fetcher Loader Contract.
Local Open Scope list_scope.

(** C2. While the loading flag is set, the load action shows the warning
    and returns: the state, in particular the trace list, the current page
    and the flag, is the one it found, and no fetch is started. *)
Theorem load_while_loading_only_warns (s : App) :
  isLoading s = true ->
  onLoadClick s = Returned s [Warning "Already loading..."]
  /\ allItems (state_of (onLoadClick s)) = allItems s
  /\ currentPage (state_of (onLoadClick s)) = currentPage s
  /\ isLoading (state_of (onLoadClick s)) = true
  /\ requested (onLoadClick s) = None
  /\ (forall limit, ~ In (Request limit) (log_of (onLoadClick s))).
Proof.
  intros H. unfold onLoadClick. rewrite H. cbn [state_of requested log_of].
  repeat split; try assumption.
  intros limit [E | []]. discriminate.
Qed.

Lemma load_while_loading_witness :
  let s := state_of (onLoadClick (start "25")) in
  onLoadClick s = Returned s [Warning "Already loading..."]
  /\ allItems (state_of (onLoadClick s)) = allItems s
  /\ currentPage (state_of (onLoadClick s)) = currentPage s
  /\ isLoading (state_of (onLoadClick s)) = true
  /\ requested (onLoadClick s) = None
  /\ (forall limit, ~ In (Request limit) (log_of (onLoadClick s))).
Proof.
  intros s. apply (load_while_loading_only_warns s). reflexivity.
Defined.

(** Once the fetch has settled the flag is clear again, whatever the
    outcome, and a failure leaves the trace list and the page as they were. *)
Lemma afterFetch_releases (r : settled (list Trace)) (s : App) :
  isLoading (fst (afterFetch r s)) = false
  /\ loadBtnDisabled (fst (afterFetch r s)) = false
  /\ loadBtnText (fst (afterFetch r s)) = "Load".
Proof. destruct r; repeat split. Qed.

Lemma afterFetch_failure_keeps_items (e : exn) (s : App) :
  allItems (fst (afterFetch (Rejected e) s)) = allItems s
  /\ currentPage (fst (afterFetch (Rejected e) s)) = currentPage s
  /\ snd (afterFetch (Rejected e) s) = [Failure (describe e)].
Proof. repeat split. Qed.

(** C4, as the code has it. When no load is pending, the limit is the
    integer that [parseInt] reads at the start of the input value. If that
    integer is from 1 to 200, it is the limit of the fetch, no warning is
    shown and the input keeps its value. If there is none, or it is below 1
    or above 200, the limit is 50, the warning is shown and the input is set
    to 50. *)
Theorem limit_validation (s : App) :
  isLoading s = false ->
  let r := onLoadClick s in
  (forall n, parseInt (limitInput s) = Some n -> 1 <= n <= 200 ->
     requested r = Some n
     /\ log_of r = [Info "Loading traces..."; Request n]
     /\ limitInput (state_of r) = limitInput s)
  /\ (parseInt (limitInput s) = None
      \/ (exists n, parseInt (limitInput s) = Some n /\ (n < 1 \/ 200 < n)) ->
      requested r = Some 50
      /\ log_of r = [Warning "Limit reset to 50"; Info "Loading traces..."; Request 50]
      /\ limitInput (state_of r) = "50").
Proof.
  intros H r. unfold r, onLoadClick. rewrite H. split.
  - intros n Hp Hn. rewrite Hp. unfold MAX_LIMIT.
    replace (n <? 1) with false by (symmetry; apply Z.ltb_ge; lia).
    replace (200 <? n) with false by (symmetry; apply Z.ltb_ge; lia).
    repeat split.
  - intros [Hp | [n [Hp Hn]]]; rewrite Hp.
    + repeat split.
    + unfold MAX_LIMIT.
      replace ((n <? 1) || (200 <? n)) with true.
      * repeat split.
      * symmetry. apply orb_true_iff. rewrite !Z.ltb_lt. exact Hn.
Qed.

Lemma limit_validation_witness :
  (requested (onLoadClick (start "200")) = Some 200
   /\ log_of (onLoadClick (start "200")) = [Info "Loading traces..."; Request 200]
   /\ limitInput (state_of (onLoadClick (start "200"))) = "200")
  /\ (requested (onLoadClick (start "abc")) = Some 50
      /\ log_of (onLoadClick (start "abc"))
         = [Warning "Limit reset to 50"; Info "Loading traces..."; Request 50]
      /\ limitInput (state_of (onLoadClick (start "abc"))) = "50").
Proof.
  split.
  - apply (proj1 (limit_validation (start "200") eq_refl) 200).
    + reflexivity.
    + lia.
  - apply (proj2 (limit_validation (start "abc") eq_refl)).
    left. reflexivity.
Defined.

(** The inputs that the specification lists. *)
Lemma limit_examples :
  map (fun v => (requested (onLoadClick (start v)),
                 limitInput (state_of (onLoadClick (start v)))))
      ["0"; "-5"; "abc"; "500"; "1"; "200"]
  = [(Some 50, "50"); (Some 50, "50"); (Some 50, "50"); (Some 50, "50");
     (Some 1, "1"); (Some 200, "200")].
Proof. reflexivity. Qed.

(** C4 as stated fails: the value 12abc is not an integer, and the load
    action fetches with limit 12, shows no warning and leaves the input as
    it is. *)
Lemma limit_12abc_accepted :
  isInteger "12abc" = false
  /\ requested (onLoadClick (start "12abc")) = Some 12
  /\ log_of (onLoadClick (start "12abc")) = [Info "Loading traces..."; Request 12]
  /\ limitInput (state_of (onLoadClick (start "12abc"))) = "12abc".
Proof. repeat split. Qed.

(** Other values that are read leniently: a fraction is cut at the point and
    an exponent is dropped. *)
Lemma limit_lenient_examples :
  map parseInt ["200.9"; "1e3"; " 42"; "+7"] = [Some 200; Some 1; Some 42; Some 7].
Proof. reflexivity. Qed.

End LoaderFacts.

(** * Properties of the calendar computations *)

Module DatesFacts.
Import Dates Contract.

Lemma quarter_same (y : Z) : y mod 4 <> 0 -> (y + 1 - 1969) / 4 = (y - 1969) / 4.
Proof. intros. Z.to_euclidean_division_equations. lia. Qed.

Lemma quarter_next (y : Z) : y mod 4 = 0 -> (y + 1 - 1969) / 4 = (y - 1969) / 4 + 1.
Proof. intros. Z.to_euclidean_division_equations. lia. Qed.

Lemma century_same (y : Z) :
  y mod 100 <> 0 -> (y + 1 - 1901) / 100 = (y - 1901) / 100.
Proof. intros. Z.to_euclidean_division_equations. lia. Qed.

Lemma century_next (y : Z) :
  y mod 100 = 0 -> (y + 1 - 1901) / 100 = (y - 1901) / 100 + 1.
Proof. intros. Z.to_euclidean_division_equations. lia. Qed.

Lemma cycle_same (y : Z) :
  y mod 400 <> 0 -> (y + 1 - 1601) / 400 = (y - 1601) / 400.
Proof. intros. Z.to_euclidean_division_equations. lia. Qed.

Lemma cycle_next (y : Z) :
  y mod 400 = 0 -> (y + 1 - 1601) / 400 = (y - 1601) / 400 + 1.
Proof. intros. Z.to_euclidean_division_equations. lia. Qed.

Lemma not_quarter_not_century (y : Z) : y mod 4 <> 0 -> y mod 100 <> 0.
Proof. intros. Z.to_euclidean_division_equations. lia. Qed.

Lemma not_century_not_cycle (y : Z) : y mod 100 <> 0 -> y mod 400 <> 0.
Proof. intros. Z.to_euclidean_division_equations. lia. Qed.

(** The first day of the next year is [DaysInYear] days later. *)
Lemma DayFromYear_next (y : Z) : DayFromYear (y + 1) = DayFromYear y + DaysInYear y.
Proof.
  unfold DayFromYear, DaysInYear.
  replace (y + 1 - 1970) with (y - 1970 + 1) by lia.
  destruct (Z.eqb_spec (y mod 4) 0) as [E4|E4]; cbn [negb].
  - rewrite (quarter_next y E4).
    destruct (Z.eqb_spec (y mod 100) 0) as [E100|E100]; cbn [negb].
    + rewrite (century_next y E100).
      destruct (Z.eqb_spec (y mod 400) 0) as [E400|E400]; cbn [negb].
      * rewrite (cycle_next y E400). lia.
      * rewrite (cycle_same y E400). lia.
    + rewrite (century_same y E100), (cycle_same y (not_century_not_cycle y E100)).
      lia.
  - rewrite (quarter_same y E4), (century_same y (not_quarter_not_century y E4)),
      (cycle_same y (not_century_not_cycle y (not_quarter_not_century y E4))).
    lia.
Qed.

Lemma DaysInYear_values (y : Z) : DaysInYear y = 365 \/ DaysInYear y = 366.
Proof.
  unfold DaysInYear.
  destruct (y mod 4 =? 0), (y mod 100 =? 0), (y mod 400 =? 0); simpl; tauto.
Qed.

Lemma year_estimate_low (d : Z) : DayFromYear (1970 + 400 * d / 146097 - 1) <= d.
Proof. unfold DayFromYear. Z.to_euclidean_division_equations. lia. Qed.

Lemma year_estimate_high (d : Z) : d < DayFromYear (1970 + 400 * d / 146097 + 1 + 1).
Proof. unfold DayFromYear. Z.to_euclidean_division_equations. lia. Qed.

(** [YearFromDay] is the year in which the day falls. *)
Lemma YearFromDay_spec (d : Z) :
  DayFromYear (YearFromDay d) <= d < DayFromYear (YearFromDay d + 1).
Proof.
  unfold YearFromDay.
  pose proof (year_estimate_low d) as L.
  pose proof (year_estimate_high d) as U.
  set (y := 1970 + 400 * d / 146097) in *.
  destruct (Z.ltb_spec d (DayFromYear y)) as [H1|H1].
  - replace (y - 1 + 1) with y by lia. lia.
  - destruct (Z.leb_spec (DayFromYear (y + 1)) d) as [H2|H2]; lia.
Qed.

Lemma DayWithinYear_bounds (t : Z) :
  0 <= DayWithinYear t < 365 + InLeapYear t.
Proof.
  unfold DayWithinYear, InLeapYear, YearFromTime.
  pose proof (YearFromDay_spec (Day t)) as H.
  rewrite DayFromYear_next in H.
  destruct (DaysInYear_values (YearFromDay (Day t))) as [E|E]; rewrite E in *;
    simpl; lia.
Qed.

Lemma InLeapYear_values (t : Z) : InLeapYear t = 0 \/ InLeapYear t = 1.
Proof. unfold InLeapYear. destruct (_ =? _); tauto. Qed.

(** The day within the year is given back by the month and the day of the
    month. *)
Lemma DayWithinYear_of_month_and_date (t : Z) :
  DayWithinYear t
  = daysBefore (InLeapYear t) (MonthFromTime t) + DateFromTime t - 1.
Proof.
  unfold DateFromTime, MonthFromTime.
  set (d := DayWithinYear t). set (l := InLeapYear t).
  repeat match goal with
         | |- context [if ?c then _ else _] => destruct c
         end; cbn [daysBefore]; lia.
Qed.

Lemma MonthFromTime_bounds (t : Z) : 0 <= MonthFromTime t <= 11.
Proof.
  unfold MonthFromTime.
  repeat match goal with
         | |- context [if ?c then _ else _] => destruct c
         end; lia.
Qed.

Lemma DateFromTime_bounds (t : Z) : 1 <= DateFromTime t <= 31.
Proof.
  pose proof (DayWithinYear_bounds t) as B.
  pose proof (InLeapYear_values t) as L.
  unfold DateFromTime, MonthFromTime.
  set (d := DayWithinYear t) in *. set (l := InLeapYear t) in *.
  repeat match goal with
         | |- context [if ?c <? ?e then _ else _] => destruct (Z.ltb_spec c e)
         end; lia.
Qed.

(** The time values of one day have one calendar day. *)
Lemma calendarDay_of_day (t1 t2 : Z) :
  Day t1 = Day t2 -> calendarDay t1 = calendarDay t2.
Proof.
  intros H.
  assert (Hy : YearFromTime t1 = YearFromTime t2)
    by (unfold YearFromTime; now rewrite H).
  assert (Hd : DayWithinYear t1 = DayWithinYear t2)
    by (unfold DayWithinYear; now rewrite H, Hy).
  assert (Hl : InLeapYear t1 = InLeapYear t2)
    by (unfold InLeapYear; now rewrite Hy).
  assert (Hm : MonthFromTime t1 = MonthFromTime t2)
    by (unfold MonthFromTime; now rewrite Hd, Hl).
  unfold calendarDay. rewrite Hy, Hm. do 4 f_equal.
  unfold DateFromTime. now rewrite Hm, Hd, Hl.
Qed.

(** *** Zero-padded numbers *)

Lemma length_append (a b : string) :
  String.length (a ++ b) = (String.length a + String.length b)%nat.
Proof. induction a as [|c a IH]; simpl; [reflexivity | now rewrite IH]. Qed.

Lemma append_assoc (a b c : string) : ((a ++ b) ++ c = a ++ (b ++ c))%string.
Proof. induction a as [|x a IH]; simpl; [reflexivity | now rewrite IH]. Qed.

Lemma pad_length (n : nat) (z : Z) : String.length (pad n z) = n.
Proof.
  revert z. induction n as [|n IH]; intros z; simpl; [reflexivity|].
  rewrite length_append, IH. simpl. lia.
Qed.

Lemma substring_of_append (a b : string) :
  substring 0 (String.length a) (a ++ b) = a.
Proof. induction a as [|c a IH]; simpl; [now destruct b | now rewrite IH]. Qed.

Lemma append_same_length (a a' b b' : string) :
  String.length a = String.length a' ->
  (a ++ b = a' ++ b')%string -> a = a' /\ b = b'.
Proof.
  revert a'. induction a as [|c a IH]; intros [|c' a'] Hl H; simpl in *;
    try discriminate.
  - now split.
  - inversion H; subst. destruct (IH a') as [-> ->]; [lia | assumption | now split].
Qed.

Lemma digit_inj (a b : Z) : digit a = digit b -> a mod 10 = b mod 10.
Proof.
  unfold digit. intros H.
  pose proof (Z.mod_pos_bound a 10 ltac:(lia)) as Ba.
  pose proof (Z.mod_pos_bound b 10 ltac:(lia)) as Bb.
  apply (f_equal nat_of_ascii) in H.
  rewrite !nat_ascii_embedding in H by lia. lia.
Qed.

Lemma pad_inj (n : nat) (a b : Z) :
  0 <= a < 10 ^ Z.of_nat n -> 0 <= b < 10 ^ Z.of_nat n ->
  pad n a = pad n b -> a = b.
Proof.
  revert a b. induction n as [|n IH]; intros a b Ha Hb H.
  - simpl in *. lia.
  - rewrite Nat2Z.inj_succ, Z.pow_succ_r in Ha, Hb by lia.
    simpl in H. apply append_same_length in H; [|now rewrite !pad_length].
    destruct H as [H1 H2]. inversion H2 as [H3]. apply digit_inj in H3.
    apply IH in H1.
    + rewrite (Z.div_mod a 10), (Z.div_mod b 10) by lia. lia.
    + split; [apply Z.div_pos; lia | apply Z.div_lt_upper_bound; lia].
    + split; [apply Z.div_pos; lia | apply Z.div_lt_upper_bound; lia].
Qed.

Lemma dash_inj (a b : string) : ("-" ++ a = "-" ++ b)%string -> a = b.
Proof. simpl. intros H. now inversion H. Qed.

(** *** The first ten characters of the ISO rendering *)

Lemma isoOfTime_four_digit_year (t : Z) :
  0 <= YearFromTime t <= 9999 ->
  JS.slice0 10 (isoOfTime t) = calendarDay t.
Proof.
  intros Hy. unfold JS.slice0, isoOfTime, yearString.
  replace ((0 <=? YearFromTime t) && (YearFromTime t <=? 9999)) with true
    by (symmetry; apply andb_true_iff; rewrite !Z.leb_le; lia).
  set (rest := ("T" ++ pad 2 (HourFromTime t) ++ ":" ++ pad 2 (MinFromTime t)
                ++ ":" ++ pad 2 (SecFromTime t) ++ "." ++ pad 3 (msFromTime t)
                ++ "Z")%string).
  replace (pad 4 (YearFromTime t) ++ "-" ++ pad 2 (MonthFromTime t + 1) ++ "-"
           ++ pad 2 (DateFromTime t) ++ rest)%string
    with (calendarDay t ++ rest)%string.
  - replace 10%nat with (String.length (calendarDay t)).
    + apply substring_of_append.
    + unfold calendarDay. rewrite !length_append, !pad_length. reflexivity.
  - unfold calendarDay. now rewrite !append_assoc.
Qed.

(** Past the year 9999 the first ten characters are the sign, the six
    digits of the year and the month: the day of the month is cut off. *)
Lemma isoOfTime_expanded_year (t : Z) :
  9999 < YearFromTime t ->
  JS.slice0 10 (isoOfTime t)
  = ("+" ++ pad 6 (YearFromTime t) ++ "-" ++ pad 2 (MonthFromTime t + 1))%string.
Proof.
  intros Hy. unfold JS.slice0, isoOfTime, yearString.
  replace ((0 <=? YearFromTime t) && (YearFromTime t <=? 9999)) with false
    by (symmetry; apply andb_false_iff; right; apply Z.leb_gt; lia).
  replace (YearFromTime t <? 0) with false by (symmetry; apply Z.ltb_ge; lia).
  set (rest := ("-" ++ pad 2 (DateFromTime t) ++ "T" ++ pad 2 (HourFromTime t)
                ++ ":" ++ pad 2 (MinFromTime t) ++ ":" ++ pad 2 (SecFromTime t)
                ++ "." ++ pad 3 (msFromTime t) ++ "Z")%string).
  set (key := ("+" ++ pad 6 (YearFromTime t) ++ "-"
               ++ pad 2 (MonthFromTime t + 1))%string).
  replace (String "+" (pad 6 (YearFromTime t)) ++ "-"
           ++ pad 2 (MonthFromTime t + 1) ++ rest)%string
    with (key ++ rest)%string.
  - replace 10%nat with (String.length key).
    + apply substring_of_append.
    + unfold key. cbn [append String.length].
      rewrite !length_append, !pad_length. reflexivity.
  - unfold key. cbn [append]. now rewrite !append_assoc.
Qed.

(** Within the years 0 to 9999 two time values have the same calendar day
    exactly when they fall on the same day. *)
Lemma calendarDay_same_iff (t1 t2 : Z) :
  0 <= YearFromTime t1 <= 9999 -> 0 <= YearFromTime t2 <= 9999 ->
  calendarDay t1 = calendarDay t2 <-> Day t1 = Day t2.
Proof.
  intros H1 H2. split; [|apply calendarDay_of_day].
  unfold calendarDay. intros H.
  apply append_same_length in H; [|now rewrite !pad_length].
  destruct H as [Hy Hm]. apply dash_inj in Hm.
  apply append_same_length in Hm; [|now rewrite !pad_length].
  destruct Hm as [Hm Hd']. apply dash_inj in Hd'.
  pose proof (MonthFromTime_bounds t1). pose proof (MonthFromTime_bounds t2).
  pose proof (DateFromTime_bounds t1). pose proof (DateFromTime_bounds t2).
  apply pad_inj in Hy; [|simpl; lia|simpl; lia].
  apply pad_inj in Hm; [|simpl; lia|simpl; lia].
  apply pad_inj in Hd'; [|simpl; lia|simpl; lia].
  assert (Hl : InLeapYear t1 = InLeapYear t2)
    by (unfold InLeapYear; now rewrite Hy).
  pose proof (DayWithinYear_of_month_and_date t1) as D1.
  pose proof (DayWithinYear_of_month_and_date t2) as D2.
  replace (MonthFromTime t1) with (MonthFromTime t2) in D1 by lia.
  rewrite Hl, Hd' in D1. unfold DayWithinYear in D1, D2.
  rewrite Hy in D1. lia.
Qed.

End DatesFacts.

(** * Properties of the time-series aggregation *)

Module ChartsFacts.
Import Dashboard Charts Contract.
Local Open Scope list_scope.

(** *** buildSeriesByMetric *)

(** C9. For a metric other than the three known ones the series has no
    data and the label "Unknown Metric"; the function returns a series for
    every input. *)
Theorem unknown_metric_gives_empty_series (days : list DayBucket) (metric : string) :
  metric <> "avgLatency" -> metric <> "totalCalls" -> metric <> "totalTokens" ->
  buildSeriesByMetric days metric
  = {| labels := map date days; data := []; label := "Unknown Metric" |}.
Proof.
  intros H1 H2 H3. unfold buildSeriesByMetric.
  apply String.eqb_neq in H1, H2, H3. now rewrite H1, H2, H3.
Qed.

Lemma unknown_metric_witness :
  buildSeriesByMetric
    [{| date := "2024-01-01"; totalLatency := 120; totalTokens := 50; count := 1 |}]
    "p95Latency"
  = {| labels := ["2024-01-01"]; data := []; label := "Unknown Metric" |}.
Proof.
  apply (unknown_metric_gives_empty_series
           [{| date := "2024-01-01"; totalLatency := 120; totalTokens := 50;
               count := 1 |}] "p95Latency"); intros E; discriminate E.
Defined.

(** The three known metrics, on the bucket of the worked example. *)
Lemma known_metrics_example :
  let days := [{| date := "2024-01-01"; totalLatency := 120; totalTokens := 50;
                  count := 1 |}] in
  data (buildSeriesByMetric days "avgLatency") = [120%float]
  /\ data (buildSeriesByMetric days "totalCalls") = [1%float]
  /\ data (buildSeriesByMetric days "totalTokens") = [50%float].
Proof. repeat split. Qed.

(** *** The order of bucket keys *)

Lemma ascii_compare_trans (a b c : ascii) :
  Ascii.compare a b = Lt -> Ascii.compare b c = Lt -> Ascii.compare a c = Lt.
Proof.
  unfold Ascii.compare. rewrite !N.compare_lt_iff. apply N.lt_trans.
Qed.

Lemma string_compare_trans (a b c : string) :
  String.compare a b = Lt -> String.compare b c = Lt -> String.compare a c = Lt.
Proof.
  revert b c. induction a as [|x a IH]; intros [|y b] [|z c]; simpl;
    try discriminate; try reflexivity.
  destruct (Ascii.compare x y) eqn:Exy; try discriminate;
    destruct (Ascii.compare y z) eqn:Eyz; try discriminate; intros H1 H2.
  - apply Ascii.compare_eq_iff in Exy, Eyz. subst.
    replace (Ascii.compare z z) with Eq
      by (symmetry; unfold Ascii.compare; apply N.compare_refl).
    now apply (IH b c).
  - apply Ascii.compare_eq_iff in Exy. subst. now rewrite Eyz.
  - apply Ascii.compare_eq_iff in Eyz. subst. now rewrite Exy.
  - now rewrite (ascii_compare_trans x y z).
Qed.

Lemma date_lt_trans (a b c : DayBucket) : date_lt a b -> date_lt b c -> date_lt a c.
Proof. unfold date_lt. apply string_compare_trans. Qed.

Lemma codeUnitCompare_negative (a b : string) :
  (codeUnitCompare a b <? 0) = true <-> String.compare a b = Lt.
Proof.
  unfold codeUnitCompare.
  destruct (String.compare a b); cbv; split; congruence.
Qed.

Lemma string_compare_irrefl (a : string) : String.compare a a <> Lt.
Proof.
  intros H. pose proof (String.compare_antisym a a) as A. rewrite H in A.
  discriminate.
Qed.

(** The order of the code units is a strict order. *)
Lemma codeUnitCompare_strict :
  (forall a, ~ codeUnitCompare a a < 0)
  /\ (forall a b c, codeUnitCompare a b < 0 -> codeUnitCompare b c < 0 ->
                    codeUnitCompare a c < 0).
Proof.
  split.
  - intros a H. apply Z.ltb_lt, codeUnitCompare_negative in H.
    now apply string_compare_irrefl in H.
  - intros a b c H1 H2. apply Z.ltb_lt, codeUnitCompare_negative in H1, H2.
    apply Z.ltb_lt, codeUnitCompare_negative.
    now apply (string_compare_trans a b c).
Qed.

Lemma string_compare_not_lt (a b : string) :
  String.compare a b <> Lt -> a <> b -> String.compare b a = Lt.
Proof.
  intros H N. rewrite String.compare_antisym.
  destruct (String.compare a b) eqn:E; simpl.
  - apply String.compare_eq_iff in E. contradiction.
  - contradiction.
  - reflexivity.
Qed.

(** *** The stable sort *)

Lemma insert_by_In (cmp : string -> string -> Z) (x z : DayBucket)
    (l : list DayBucket) :
  In z (insert_by (by_date cmp) x l) <-> z = x \/ In z l.
Proof.
  induction l as [|y l IH]; simpl.
  - intuition.
  - destruct (by_date cmp x y <? 0); simpl; rewrite ?IH; intuition.
Qed.

Lemma sort_by_In_acc (cmp : string -> string -> Z) (l acc : list DayBucket)
    (z : DayBucket) :
  In z (fold_left (fun acc x => insert_by (by_date cmp) x acc) l acc)
  <-> In z acc \/ In z l.
Proof.
  revert acc. induction l as [|x l IH]; intros acc; simpl.
  - intuition.
  - rewrite IH, insert_by_In. intuition.
Qed.

Lemma sort_by_In (cmp : string -> string -> Z) (l : list DayBucket) (z : DayBucket) :
  In z (sort_by (by_date cmp) l) <-> In z l.
Proof. unfold sort_by. rewrite sort_by_In_acc. simpl. intuition. Qed.

Lemma insert_by_perm (cmp : string -> string -> Z) (x : DayBucket)
    (l : list DayBucket) :
  Permutation (insert_by (by_date cmp) x l) (x :: l).
Proof.
  induction l as [|y l IH]; simpl.
  - apply Permutation_refl.
  - destruct (by_date cmp x y <? 0).
    + apply Permutation_refl.
    + eapply perm_trans; [apply perm_skip, IH | apply perm_swap].
Qed.

Lemma sort_by_perm_acc (cmp : string -> string -> Z) (l acc : list DayBucket) :
  Permutation (fold_left (fun acc x => insert_by (by_date cmp) x acc) l acc)
    (acc ++ l).
Proof.
  revert acc. induction l as [|x l IH]; intros acc; simpl.
  - rewrite List.app_nil_r. apply Permutation_refl.
  - eapply perm_trans; [apply IH|].
    eapply perm_trans; [apply Permutation_app_tail, insert_by_perm|].
    simpl. apply Permutation_middle.
Qed.

Lemma sort_by_perm (cmp : string -> string -> Z) (l : list DayBucket) :
  Permutation (sort_by (by_date cmp) l) l.
Proof. unfold sort_by. apply (sort_by_perm_acc cmp l []). Qed.

(** With a comparison whose "before" is a strict order, the sort puts no
    element behind one that it comes before. *)
Section Ascending.

Variable cmp : string -> string -> Z.
Hypothesis cmp_irrefl : forall a, ~ cmp a a < 0.
Hypothesis cmp_trans : forall a b c, cmp a b < 0 -> cmp b c < 0 -> cmp a c < 0.

Lemma insert_by_ascending (x : DayBucket) (l : list DayBucket) :
  ascending cmp l -> ascending cmp (insert_by (by_date cmp) x l).
Proof.
  unfold ascending.
  induction l as [|y l IH]; intros Hs; simpl.
  - repeat constructor.
  - inversion Hs as [|? ? Hs' Hy]; subst.
    destruct (by_date cmp x y <? 0) eqn:E.
    + apply Z.ltb_lt in E. unfold by_date in E.
      constructor; [exact Hs|]. constructor.
      * intros C. apply (cmp_irrefl (date x)). now apply (cmp_trans _ (date y)).
      * eapply Forall_impl; [|exact Hy]. cbv beta. intros z Hz C. apply Hz.
        now apply (cmp_trans _ (date x)).
    + apply Z.ltb_ge in E. unfold by_date in E.
      constructor; [now apply IH|].
      apply Forall_forall. intros z Hz. apply insert_by_In in Hz.
      destruct Hz as [-> | Hz]; [lia|].
      rewrite Forall_forall in Hy. now apply Hy.
Qed.

Lemma sort_by_ascending (l : list DayBucket) :
  ascending cmp (sort_by (by_date cmp) l).
Proof.
  unfold sort_by.
  assert (G : forall acc, ascending cmp acc ->
            ascending cmp
              (fold_left (fun acc x => insert_by (by_date cmp) x acc) l acc)).
  { induction l as [|x l' IH]; intros acc Ha; simpl; [exact Ha|].
    apply IH. now apply insert_by_ascending. }
  apply G. constructor.
Qed.

End Ascending.

(** With the order of the code units the dates come out strictly
    ascending. *)
Lemma insert_by_sorted (x : DayBucket) (l : list DayBucket) :
  StronglySorted date_lt l ->
  ~ In (date x) (map date l) ->
  StronglySorted date_lt (insert_by (by_date codeUnitCompare) x l).
Proof.
  induction l as [|y l IH]; intros Hs Hn; simpl.
  - repeat constructor.
  - inversion Hs as [|? ? Hs' Hy]; subst.
    destruct (by_date codeUnitCompare x y <? 0) eqn:E.
    + apply codeUnitCompare_negative in E.
      constructor; [exact Hs|]. constructor; [exact E|].
      eapply Forall_impl; [|exact Hy]. intros z Hz.
      now apply (date_lt_trans x y z).
    + assert (Hyx : date_lt y x).
      { apply string_compare_not_lt.
        - intros C. apply codeUnitCompare_negative in C.
          unfold by_date in E. congruence.
        - intros C. apply Hn. simpl. left. now symmetry. }
      constructor.
      * apply IH; [exact Hs'|]. intros C. apply Hn. simpl. now right.
      * apply Forall_forall. intros z Hz. apply insert_by_In in Hz.
        destruct Hz as [-> | Hz]; [exact Hyx|].
        rewrite Forall_forall in Hy. now apply Hy.
Qed.

Lemma sort_by_sorted_acc (l acc : list DayBucket) :
  StronglySorted date_lt acc ->
  NoDup (map date acc ++ map date l) ->
  StronglySorted date_lt
    (fold_left (fun acc x => insert_by (by_date codeUnitCompare) x acc) l acc).
Proof.
  revert acc. induction l as [|x l IH]; intros acc Hs Hd; simpl.
  - exact Hs.
  - simpl in Hd. apply IH.
    + apply insert_by_sorted; [exact Hs|]. intros C.
      apply NoDup_remove_2 in Hd. apply Hd, in_or_app. now left.
    + eapply Permutation_NoDup; [|exact Hd].
      eapply perm_trans; [apply Permutation_sym, Permutation_middle|].
      change (date x :: map date acc ++ map date l)
        with (map date (x :: acc) ++ map date l).
      apply Permutation_app_tail, Permutation_map, Permutation_sym, insert_by_perm.
Qed.

Lemma sort_by_sorted (l : list DayBucket) :
  NoDup (map date l) ->
  StronglySorted date_lt (sort_by (by_date codeUnitCompare) l).
Proof.
  intros H. unfold sort_by. apply sort_by_sorted_acc; [constructor | exact H].
Qed.

(** *** The object [byDay] *)

Lemma has_key_In (key : string) (o : byDayObj) :
  has_key key o = true <-> In key (map fst o).
Proof.
  induction o as [|[k b] o IH]; simpl.
  - split; [discriminate | tauto].
  - rewrite orb_true_iff, IH, String.eqb_eq. tauto.
Qed.

Lemma accumulate_keys (key : string) (x : Trace) (o : byDayObj) :
  map fst (accumulate key x o) = map fst o.
Proof.
  induction o as [|[k b] o IH]; simpl; [reflexivity|].
  destruct (k =? key)%string; simpl; [reflexivity|]. now rewrite IH.
Qed.

Lemma accumulate_In (key : string) (x : Trace) (o : byDayObj) k b :
  NoDup (map fst o) ->
  In (k, b) (accumulate key x o) ->
  (k <> key /\ In (k, b) o)
  \/ (k = key /\ exists b0, In (key, b0) o /\ b = bump b0 x).
Proof.
  induction o as [|[k' b'] o IH]; simpl; intros Hd Hin; [contradiction|].
  inversion Hd as [|? ? Hnot Hd']; subst.
  destruct (String.eqb_spec k' key) as [-> | Hne].
  - destruct Hin as [E | Hin].
    + inversion E; subst. right. split; [reflexivity|].
      exists b'. split; [now left | reflexivity].
    + left. split; [|now right].
      intros ->. apply Hnot.
      change key with (fst (key, b)). now apply in_map.
  - destruct Hin as [E | Hin].
    + inversion E; subst. left. split; [exact Hne | now left].
    + destruct (IH Hd' Hin) as [[H1 H2] | [H1 [b0 [H2 H3]]]].
      * left. split; [exact H1 | now right].
      * right. split; [exact H1|]. exists b0. split; [now right | exact H3].
Qed.

Lemma addToDay_by_key (parse : string -> option Z) (o : byDayObj) (x : Trace) :
  addToDay parse o x =
  match keyOf parse x with
  | None => o
  | Some key =>
      accumulate key x
        (if negb (has_key key o) then o ++ [(key, emptyBucket key)] else o)
  end.
Proof.
  unfold addToDay, keyOf. destruct (time x) as [t|]; [|reflexivity].
  destruct (t =? "")%string; [reflexivity|].
  destruct (dayKey parse t); reflexivity.
Qed.

Lemma inDay_of_key (parse : string -> option Z) (x : Trace) (key k : string) :
  keyOf parse x = Some key -> inDay parse k x = (key =? k)%string.
Proof. intros H. unfold inDay. now rewrite H. Qed.

Lemma bucketOf_snoc_other (parse : string -> option Z) k xs x :
  inDay parse k x = false ->
  bucketOf parse k (xs ++ [x]) = bucketOf parse k xs.
Proof.
  intros H. unfold bucketOf. rewrite filter_app. simpl. rewrite H.
  now rewrite List.app_nil_r.
Qed.

Lemma bucketOf_snoc_same (parse : string -> option Z) k xs x :
  inDay parse k x = true ->
  bucketOf parse k (xs ++ [x]) = bump (bucketOf parse k xs) x.
Proof.
  intros H. unfold bucketOf, bump. rewrite filter_app. simpl. rewrite H.
  cbn [date totalLatency totalTokens count].
  rewrite !fold_left_app, length_app. simpl.
  f_equal. lia.
Qed.

Lemma bucketOf_unseen (parse : string -> option Z) k xs :
  (forall x, In x xs -> keyOf parse x <> Some k) ->
  bucketOf parse k xs = emptyBucket k.
Proof.
  intros H. unfold bucketOf.
  replace (filter (inDay parse k) xs) with (@nil Trace); [reflexivity|].
  symmetry. induction xs as [|x xs IH]; simpl; [reflexivity|].
  unfold inDay at 1. destruct (keyOf parse x) as [k'|] eqn:E.
  - destruct (String.eqb_spec k' k) as [-> | _].
    + elim (H x (or_introl eq_refl)). exact E.
    + apply IH. intros y Hy. apply H. now right.
  - apply IH. intros y Hy. apply H. now right.
Qed.

Lemma tracks_nil (parse : string -> option Z) : tracks parse [] [].
Proof.
  split; [constructor|]. split; [intros k b []|intros x k []].
Qed.

Lemma tracks_step (parse : string -> option Z) xs o x :
  tracks parse xs o -> tracks parse (xs ++ [x]) (addToDay parse o x).
Proof.
  intros (Hd & Hb & Hk). rewrite addToDay_by_key.
  destruct (keyOf parse x) as [key|] eqn:Ex.
  - (* the record has a key *)
    set (o1 := if negb (has_key key o) then o ++ [(key, emptyBucket key)] else o).
    assert (Hd1 : NoDup (map fst o1)).
    { unfold o1. destruct (has_key key o) eqn:Eh; simpl; [exact Hd|].
      rewrite map_app. simpl.
      apply Permutation_NoDup with (l := key :: map fst o).
      - apply Permutation_cons_append.
      - constructor; [|exact Hd]. intros C. apply has_key_In in C. congruence. }
    assert (Hin1 : forall k b, In (k, b) o1 ->
              In (k, b) o
              \/ (has_key key o = false /\ k = key /\ b = emptyBucket key)).
    { unfold o1. intros k b. destruct (has_key key o); simpl; [tauto|].
      rewrite in_app_iff. simpl. intros [H | [H | []]]; [tauto|].
      inversion H; subst. tauto. }
    assert (Hkey1 : In key (map fst o1)).
    { unfold o1. destruct (has_key key o) eqn:Eh; simpl.
      - now apply has_key_In.
      - rewrite map_app, in_app_iff. simpl. tauto. }
    assert (Hsub : forall k, In k (map fst o) -> In k (map fst o1)).
    { unfold o1. intros k Hin. destruct (has_key key o); simpl; [exact Hin|].
      rewrite map_app, in_app_iff. now left. }
    split; [now rewrite accumulate_keys|]. split.
    + intros k b Hin. apply (accumulate_In _ _ _ _ _ Hd1) in Hin.
      destruct Hin as [[Hne Hin] | [-> [b0 [Hin ->]]]].
      * destruct (Hin1 _ _ Hin) as [Ho | [_ [Hc _]]]; [|contradiction].
        destruct (Hb _ _ Ho) as [-> [y [Hy Ey]]]. split.
        -- symmetry. apply bucketOf_snoc_other.
           rewrite (inDay_of_key _ _ _ _ Ex). apply String.eqb_neq. congruence.
        -- exists y. split; [apply in_or_app; now left | exact Ey].
      * split.
        -- rewrite bucketOf_snoc_same
             by (rewrite (inDay_of_key _ _ _ _ Ex); apply String.eqb_refl).
           f_equal.
           destruct (Hin1 _ _ Hin) as [Ho | [Eh [_ ->]]].
           ++ now destruct (Hb _ _ Ho).
           ++ symmetry. apply bucketOf_unseen. intros y Hy Ey.
              apply (Hk _ _ Hy), has_key_In in Ey. congruence.
        -- exists x. split; [apply in_or_app; right; now left | exact Ex].
    + intros y k Hy Ey. rewrite accumulate_keys.
      apply in_app_or in Hy. destruct Hy as [Hy | [<- | []]].
      * apply Hsub. now apply (Hk y).
      * rewrite Ex in Ey. inversion Ey; subst. exact Hkey1.
  - (* the record is skipped *)
    split; [exact Hd|]. split.
    + intros k b Hin. destruct (Hb _ _ Hin) as [-> [y [Hy Ey]]]. split.
      * symmetry. apply bucketOf_snoc_other. unfold inDay. now rewrite Ex.
      * exists y. split; [apply in_or_app; now left | exact Ey].
    + intros y k Hy Ey. apply in_app_or in Hy. destruct Hy as [Hy | [<- | []]].
      * now apply (Hk y).
      * congruence.
Qed.

Lemma tracks_fold (parse : string -> option Z) (items : list Trace) :
  tracks parse items (fold_left (addToDay parse) items []).
Proof.
  induction items as [|x xs IH] using rev_ind.
  - apply tracks_nil.
  - rewrite fold_left_app. simpl. now apply tracks_step.
Qed.

(** *** groupByDay *)

Lemma dates_of_values (parse : string -> option Z) items (o : byDayObj) :
  tracks parse items o -> map date (map snd o) = map fst o.
Proof.
  intros (_ & Hb & _). induction o as [|[k b] o IH]; simpl; [reflexivity|].
  f_equal.
  - destruct (Hb k b (or_introl eq_refl)) as [-> _]. reflexivity.
  - apply IH. intros k' b' Hin. apply Hb. now right.
Qed.

(** For every parser, every collation and every sequence of records: each
    bucket holds the sums and the number of exactly the records whose
    timestamp has its date as key, and there is such a record; every record
    with a key has its bucket; and no date has two buckets. *)
Theorem groupByDay_buckets (parse : string -> option Z)
    (cmp : string -> string -> Z) (items : list Trace) :
  let days := groupByDay parse cmp items in
  (forall b, In b days ->
        b = bucketOf parse (date b) items
        /\ exists x, In x items /\ keyOf parse x = Some (date b))
  /\ (forall x k, In x items -> keyOf parse x = Some k ->
        exists b, In b days /\ date b = k)
  /\ NoDup (map date days).
Proof.
  intros days.
  pose proof (tracks_fold parse items) as T.
  pose proof (dates_of_values _ _ _ T) as Hdates.
  destruct T as (Hd & Hb & Hk).
  assert (Hdays : days
                  = sort_by (by_date cmp) (map snd (fold_left (addToDay parse) items [])))
    by reflexivity.
  assert (Hkb : forall b, In b days ->
            In (date b, b) (fold_left (addToDay parse) items [])).
  { intros b Hin. rewrite Hdays in Hin. apply sort_by_In, in_map_iff in Hin.
    destruct Hin as [[k b'] [E Hin]]. simpl in E. subst b'.
    destruct (Hb _ _ Hin) as [E _]. rewrite E at 1. simpl. exact Hin. }
  split; [|split].
  - intros b Hin. apply Hb. now apply Hkb.
  - intros x k Hx Ex. specialize (Hk _ _ Hx Ex).
    apply in_map_iff in Hk. destruct Hk as [[k' b] [E Hin]]. simpl in E. subst k'.
    exists b. split.
    + rewrite Hdays. apply sort_by_In, in_map_iff. now exists (k, b).
    + now destruct (Hb _ _ Hin) as [-> _].
  - rewrite Hdays.
    eapply Permutation_NoDup;
      [apply Permutation_map, Permutation_sym, sort_by_perm|].
    now rewrite Hdates.
Qed.

(** The buckets come out in the order of the collation, if its "before" is
    a strict order; with the order of the code units, in strictly ascending
    order of the dates. *)
Lemma groupByDay_ascending (parse : string -> option Z)
    (cmp : string -> string -> Z) (items : list Trace) :
  (forall a, ~ cmp a a < 0) ->
  (forall a b c, cmp a b < 0 -> cmp b c < 0 -> cmp a c < 0) ->
  ascending cmp (groupByDay parse cmp items).
Proof. intros H1 H2. now apply sort_by_ascending. Qed.

Lemma groupByDay_sorted_by_code_units (parse : string -> option Z)
    (items : list Trace) :
  StronglySorted date_lt (groupByDay parse codeUnitCompare items).
Proof.
  pose proof (tracks_fold parse items) as T.
  pose proof (dates_of_values _ _ _ T) as Hdates.
  destruct T as (Hd & _).
  apply sort_by_sorted. now rewrite Hdates.
Qed.

(** Records without a usable timestamp do not take part: the result is the
    one for the sequence without them. *)
Lemma addToDay_skips (parse : string -> option Z) (o : byDayObj) (x : Trace) :
  hasDay parse x = false -> addToDay parse o x = o.
Proof.
  unfold hasDay. intros H. rewrite addToDay_by_key.
  now destruct (keyOf parse x).
Qed.

Lemma groupByDay_ignores_undated (parse : string -> option Z)
    (cmp : string -> string -> Z) (items : list Trace) :
  groupByDay parse cmp items = groupByDay parse cmp (filter (hasDay parse) items).
Proof.
  unfold groupByDay. do 2 f_equal.
  generalize (@nil (string * DayBucket)).
  induction items as [|x xs IH]; intros o; simpl; [reflexivity|].
  destruct (hasDay parse x) eqn:E; simpl.
  - apply IH.
  - rewrite (addToDay_skips _ _ _ E). apply IH.
Qed.

Lemma undated_records (parse : string -> option Z) (x : Trace) :
  time x = None \/ time x = Some "" \/
    (exists t, time x = Some t /\ Dates.toISOString (newDate parse t) = None) ->
  hasDay parse x = false /\ forall key, inDay parse key x = false.
Proof.
  unfold hasDay, inDay, keyOf, dayKey.
  intros [-> | [-> | [t [-> H]]]]; try (split; reflexivity).
  rewrite H. destruct (t =? "")%string; split; reflexivity.
Qed.

(** *** Bucket keys and calendar days *)

(** For a timestamp whose year is from 0 to 9999 the key is the UTC
    calendar day. *)
Lemma dayKey_is_calendar_day (parse : string -> option Z) (s : string) (t : Z) :
  parse s = Some t ->
  Z.abs t <= Dates.maxTime ->
  0 <= Dates.YearFromTime t <= 9999 ->
  dayKey parse s = Some (calendarDay t).
Proof.
  intros Hp Ht Hy. unfold dayKey, newDate, Dates.TimeClip. rewrite Hp.
  replace (Z.abs t <=? Dates.maxTime) with true by (symmetry; now apply Z.leb_le).
  simpl. now rewrite DatesFacts.isoOfTime_four_digit_year.
Qed.

(** Past the year 9999 the key names the month only, so that all the days
    of a month have one key. *)
Lemma dayKey_of_expanded_year (parse : string -> option Z) (s : string) (t : Z) :
  parse s = Some t ->
  Z.abs t <= Dates.maxTime ->
  9999 < Dates.YearFromTime t ->
  dayKey parse s
  = Some ("+" ++ Dates.pad 6 (Dates.YearFromTime t) ++ "-"
          ++ Dates.pad 2 (Dates.MonthFromTime t + 1))%string.
Proof.
  intros Hp Ht Hy. unfold dayKey, newDate, Dates.TimeClip. rewrite Hp.
  replace (Z.abs t <=? Dates.maxTime) with true by (symmetry; now apply Z.leb_le).
  simpl. now rewrite DatesFacts.isoOfTime_expanded_year.
Qed.

(** Two records with timestamps of the years 0 to 9999 have the same key,
    and so share a bucket, exactly when their timestamps fall on the same
    UTC day. *)
Lemma same_key_iff_same_day (parse : string -> option Z) (x y : Trace)
    (sx sy : string) (tx ty : Z) :
  time x = Some sx -> sx <> "" -> parse sx = Some tx ->
  Z.abs tx <= Dates.maxTime -> 0 <= Dates.YearFromTime tx <= 9999 ->
  time y = Some sy -> sy <> "" -> parse sy = Some ty ->
  Z.abs ty <= Dates.maxTime -> 0 <= Dates.YearFromTime ty <= 9999 ->
  keyOf parse x = Some (calendarDay tx)
  /\ (keyOf parse x = keyOf parse y <-> Dates.Day tx = Dates.Day ty).
Proof.
  intros Hx Nx Px Bx Yx Hy Ny Py By' Yy.
  assert (Kx : keyOf parse x = Some (calendarDay tx)).
  { unfold keyOf. rewrite Hx. apply String.eqb_neq in Nx. rewrite Nx.
    now apply dayKey_is_calendar_day. }
  assert (Ky : keyOf parse y = Some (calendarDay ty)).
  { unfold keyOf. rewrite Hy. apply String.eqb_neq in Ny. rewrite Ny.
    now apply dayKey_is_calendar_day. }
  split; [exact Kx|]. rewrite Kx, Ky.
  rewrite <- (DatesFacts.calendarDay_same_iff tx ty Yx Yy).
  split; [|now intros ->].
  intros H.
  exact (f_equal (fun o => match o with Some v => v | None => calendarDay tx end) H).
Qed.

(** The worked example of the specification. *)
Lemma groupByDay_example :
  let items :=
    [{| time := Some "2024-01-01T10:00:00Z"; model := Some "gpt-4";
        latency_ms := Some 120%float; total_tokens := Some 50%float;
        input_tokens := None; output_tokens := None;
        input_content := None; output_content := None |}] in
  groupByDay Dates.isoParse codeUnitCompare items
  = [{| date := "2024-01-01"; totalLatency := 120; totalTokens := 50; count := 1 |}]
  /\ data (buildSeriesByMetric (groupByDay Dates.isoParse codeUnitCompare items)
            "avgLatency")
     = [120%float].
Proof. split; reflexivity. Qed.

(** Records of several days come out one bucket a day, in ascending order,
    whatever their order in the input; undated records are left out. *)
Lemma groupByDay_three_days :
  let rec t l :=
    {| time := t; model := None; latency_ms := Some l; total_tokens := None;
       input_tokens := None; output_tokens := None;
       input_content := None; output_content := None |} in
  groupByDay Dates.isoParse codeUnitCompare
    [rec (Some "2024-03-02T08:00:00Z") 10%float;
     rec (Some "2024-02-29T23:59:59Z") 20%float;
     rec None 40%float; rec (Some "not a date") 80%float;
     rec (Some "") 160%float;
     rec (Some "2024-03-02T00:00:00Z") 320%float;
     rec (Some "2024-03-01") 640%float]
  = [{| date := "2024-02-29"; totalLatency := 20; totalTokens := 0; count := 1 |};
     {| date := "2024-03-01"; totalLatency := 640; totalTokens := 0; count := 1 |};
     {| date := "2024-03-02"; totalLatency := 330; totalTokens := 0; count := 2 |}].
Proof. reflexivity. Qed.

(** C6 fails past the year 9999. The ISO rendering of such a timestamp
    starts with a sign and six digits of the year, so its first ten
    characters end within the month: two records of different UTC days of
    January 10000 are added up in one bucket, whatever the collation. *)
Theorem groupByDay_merges_days_of_year_10000 (localeCompare : string -> string -> Z) :
  let a := {| time := Some "+010000-01-01T10:00:00Z"; model := Some "gpt-4";
              latency_ms := Some 120%float; total_tokens := Some 50%float;
              input_tokens := None; output_tokens := None;
              input_content := None; output_content := None |} in
  let b := {| time := Some "+010000-01-02T10:00:00Z"; model := Some "gpt-4";
              latency_ms := Some 80%float; total_tokens := Some 30%float;
              input_tokens := None; output_tokens := None;
              input_content := None; output_content := None |} in
  option_map Dates.isoOfTime (Dates.isoParse "+010000-01-01T10:00:00Z")
    = Some "+010000-01-01T10:00:00.000Z"
  /\ option_map Dates.isoOfTime (Dates.isoParse "+010000-01-02T10:00:00Z")
     = Some "+010000-01-02T10:00:00.000Z"
  /\ option_map Dates.Day (Dates.isoParse "+010000-01-01T10:00:00Z") = Some 2932897
  /\ option_map Dates.Day (Dates.isoParse "+010000-01-02T10:00:00Z") = Some 2932898
  /\ groupByDay Dates.isoParse localeCompare [a; b]
     = [{| date := "+010000-01"; totalLatency := 200; totalTokens := 80;
           count := 2 |}].
Proof. repeat split. Qed.

End ChartsFacts.

(** * Further properties of the notification manager *)

Module NotificationLoopFacts.
Import Notifications Notions NotificationFacts.
Local Open Scope list_scope.

(** *** escapeHtml *)

Lemma occurs_append (c : ascii) (a b : string) :
  occurs c (a ++ b) = occurs c a || occurs c b.
Proof.
  induction a as [|x a IH]; simpl; [reflexivity|].
  now rewrite IH, orb_assoc.
Qed.

(** The escaped text holds none of the characters that open or close a tag
    or an attribute value: less-than, greater-than, double quote, single
    quote. *)
Theorem escapeHtml_has_no_markup (text : string) :
  occurs "<" (escapeHtml text) = false
  /\ occurs ">" (escapeHtml text) = false
  /\ occurs (ascii_of_nat 34) (escapeHtml text) = false
  /\ occurs "'" (escapeHtml text) = false.
Proof.
  induction text as [|c text (H1 & H2 & H3 & H4)]; [repeat split|].
  cbn [escapeHtml].
  destruct (Ascii.eqb c "&") eqn:Ea;
    [|destruct (Ascii.eqb c "<") eqn:El;
      [|destruct (Ascii.eqb c ">") eqn:Eg;
        [|destruct (Ascii.eqb c (ascii_of_nat 34)) eqn:Eq;
          [|destruct (Ascii.eqb c "'") eqn:Es]]]];
    rewrite ?occurs_append, ?H1, ?H2, ?H3, ?H4;
    try (repeat split; reflexivity).
  cbn [occurs]. rewrite H1, H2, H3, H4.
  rewrite (Ascii.eqb_sym "<" c), (Ascii.eqb_sym ">" c),
    (Ascii.eqb_sym (ascii_of_nat 34) c), (Ascii.eqb_sym "'" c).
  rewrite El, Eg, Eq, Es. repeat split.
Qed.

(** An ampersand of the escaped text always starts one of the five
    entities, so that the text reads back: escaping loses nothing. *)
Lemma escapeHtml_injective (a b : string) :
  escapeHtml a = escapeHtml b -> a = b.
Proof.
  revert b. induction a as [|x a IH]; intros [|y b]; cbn [escapeHtml].
  - reflexivity.
  - destruct (Ascii.eqb y "&"), (Ascii.eqb y "<"), (Ascii.eqb y ">"),
      (Ascii.eqb y (ascii_of_nat 34)), (Ascii.eqb y "'"); discriminate.
  - destruct (Ascii.eqb x "&"), (Ascii.eqb x "<"), (Ascii.eqb x ">"),
      (Ascii.eqb x (ascii_of_nat 34)), (Ascii.eqb x "'"); discriminate.
  - destruct (Ascii.eqb_spec x "&") as [-> | Nxa];
      [|destruct (Ascii.eqb_spec x "<") as [-> | Nxl];
        [|destruct (Ascii.eqb_spec x ">") as [-> | Nxg];
          [|destruct (Ascii.eqb_spec x (ascii_of_nat 34)) as [-> | Nxq];
            [|destruct (Ascii.eqb_spec x "'") as [-> | Nxs]]]]];
    (destruct (Ascii.eqb_spec y "&") as [-> | Nya];
      [|destruct (Ascii.eqb_spec y "<") as [-> | Nyl];
        [|destruct (Ascii.eqb_spec y ">") as [-> | Nyg];
          [|destruct (Ascii.eqb_spec y (ascii_of_nat 34)) as [-> | Nyq];
            [|destruct (Ascii.eqb_spec y "'") as [-> | Nys]]]]]);
    cbn [append]; intros H; injection H as H; subst;
    try congruence;
    try (f_equal; apply IH; congruence).
Qed.

Lemma escapeHtml_injective_witness :
  "<b>Tom & Jerry</b>" = "<b>Tom & Jerry</b>".
Proof.
  apply (escapeHtml_injective "<b>Tom & Jerry</b>" "<b>Tom & Jerry</b>").
  reflexivity.
Defined.

(** *** The event loop runs out of timers *)

Lemma take_due_perm (q : list (Z * task)) d t r :
  take_due q = Some (d, t, r) -> Permutation q ((d, t) :: r).
Proof.
  revert d t r. induction q as [|[d0 t0] q IH]; intros d t r H; simpl in H.
  - discriminate.
  - destruct (take_due q) as [[[d' t'] r']|] eqn:E.
    + destruct (d' <? d0); inversion H; subst.
      * eapply perm_trans; [apply perm_skip, (IH _ _ _ eq_refl)|]. apply perm_swap.
      * apply Permutation_refl.
    + inversion H; subst. destruct q as [|[d1 t1] q]; [apply Permutation_refl|].
      simpl in E. destruct (take_due q) as [[[? ?] ?]|];
        [destruct (_ <? _)|]; discriminate.
Qed.

Lemma take_due_none (q : list (Z * task)) : take_due q = None -> q = [].
Proof.
  destruct q as [|[d t] q]; [reflexivity|]. simpl.
  destruct (take_due q) as [[[? ?] ?]|]; [destruct (_ <? _)|]; discriminate.
Qed.

Lemma weight_perm (q q' : list (Z * task)) :
  Permutation q q' -> weight q = weight q'.
Proof.
  induction 1 as [|[d t] l l' _ IH|[d t] [d' t'] l|l l' l'' _ IH1 _ IH2]; simpl;
    lia.
Qed.

Lemma weight_app (q q' : list (Z * task)) : weight (q ++ q') = (weight q + weight q')%nat.
Proof. induction q as [|[d t] q IH]; simpl; lia. Qed.

(** Every turn of the loop uses up a timer: the weight of the queue goes
    down. *)
Lemma tick_lowers_weight (m m' : Manager) :
  tick m = Some m' -> (weight (timers m') < weight (timers m))%nat.
Proof.
  unfold tick. destruct (take_due (timers m)) as [[[d t] r]|] eqn:E; [|discriminate].
  intros [= <-]. apply take_due_perm, weight_perm in E. rewrite E. simpl.
  destruct t as [n|n]; cbn [fire task_weight].
  - match goal with |- context [dismiss ?a ?b] =>
      destruct (dismiss_timers a b) as [-> | (k & _ & _ & ->)] end;
      cbn [timers]; rewrite ?weight_app; simpl; lia.
  - cbn [removeNow timers]. lia.
Qed.

(** With as much fuel as the weight of the queue, [drain] runs until no
    timer is pending. *)
Theorem drain_runs_out_of_timers (fuel : nat) (m : Manager) :
  (weight (timers m) <= fuel)%nat ->
  tick (drain fuel m) = None /\ timers (drain fuel m) = [].
Proof.
  revert m. induction fuel as [|fuel IH]; intros m H.
  - destruct (timers m) as [|[d t] q] eqn:E.
    + simpl. unfold tick. rewrite E. now split.
    + simpl in H. destruct t; simpl in H; lia.
  - simpl. destruct (tick m) as [m'|] eqn:E.
    + apply IH. apply tick_lowers_weight in E. lia.
    + split; [exact E|]. unfold tick in E.
      destruct (take_due (timers m)) as [[[d t] r]|] eqn:E'; [discriminate|].
      now apply take_due_none.
Qed.

Lemma drain_runs_out_witness :
  tick (drain 8 (burst 2 5000 init)) = None
  /\ timers (drain 8 (burst 2 5000 init)) = [].
Proof.
  apply (drain_runs_out_of_timers 8 (burst 2 5000 init)). simpl. lia.
Defined.

Lemma drain_reachable (fuel : nat) (m : Manager) :
  reachable m -> reachable (drain fuel m).
Proof.
  revert m. induction fuel as [|fuel IH]; intros m R; simpl; [exact R|].
  destruct (tick m) as [m'|] eqn:E; [|exact R].
  apply IH. now apply (reach_tick m).
Qed.

(** *** Auto-dismiss *)

Lemma dismiss_schedules_removal (n : elem) (m : Manager) :
  hasParent n m = true -> removalPending n (dismiss (Some n) m).
Proof.
  intros H. exists (clock m + 300). rewrite (dismiss_attached _ _ H). simpl.
  apply in_or_app. right. now left.
Qed.

(** In every state the manager can get into, a tracked notification that
    was shown with a positive duration has its auto-dismiss timer or its
    removal timer pending. *)
Lemma reachable_timed_have_timers (m : Manager) :
  reachable m ->
  forall n, In n (notifications m) ->
    exists toast, toastOf n m = Some toast
                  /\ (hasProgress toast = true -> pendingFor n m).
Proof.
  intros R. pose proof R as R0.
  induction R as [|m t R IH
                  |m message type title duration R IH
                  |m k R IH
                  |m m' R IH Htick].
  - intros n [].
  - exact (IH R).
  - destruct (reachable_invariant m R) as (Hd & Ht & Hf).
    destruct (afterEviction_keeps m) as (E1 & E2 & E3 & E4 & E5 & E6).
    destruct (createNotification message type title duration) as [toast0|] eqn:E.
    + rewrite (show_returns _ _ _ _ _ _ E). cbn [snd]. intros n Hn.
      unfold toastOf, pendingFor. cbn [notifications rendered timers toastIn] in *.
      apply in_app_or in Hn. destruct Hn as [Hn | [<- | []]].
      * assert (n <> fresh m) by (apply Ht, Hf in Hn; lia).
        replace (Nat.eqb n (fresh m)) with false
          by (symmetry; now apply Nat.eqb_neq).
        destruct (IH R n Hn) as (toast & Et & Hp). exists toast.
        split; [exact Et|]. intros Hpr. destruct (Hp Hpr) as [d Hd0]. exists d.
        rewrite !in_app_iff.
        destruct Hd0 as [Hd0 | Hd0]; apply E6 in Hd0; tauto.
      * rewrite Nat.eqb_refl. exists toast0. split; [reflexivity|].
        unfold createNotification in E.
        destruct (match title with
                  | Some t => if (t =? "")%string then getDefaultTitle type
                              else Some t
                  | None => getDefaultTitle type
                  end); [|discriminate].
        injection E as <-. cbn [hasProgress]. intros Hpos. rewrite Hpos.
        exists (clock m + duration). left.
        apply in_or_app. right. now left.
    + rewrite (show_throws _ _ _ _ _ E). cbn [snd]. rewrite E1. intros n Hn.
      destruct (IH R n Hn) as (toast & Et & Hp). exists toast.
      unfold toastOf. rewrite E4. split; [exact Et|].
      intros Hpr. destruct (Hp Hpr) as [d [Hd0 | Hd0]]; exists d;
        [left | right]; now apply E6.
  - intros n Hn. rewrite dismiss_keeps_tracking in Hn.
    destruct (IH R n Hn) as (toast & Et & Hp). exists toast.
    unfold toastOf. rewrite dismiss_keeps_rendered. split; [exact Et|].
    intros Hpr. destruct (Hp Hpr) as [d [Hd0 | Hd0]]; exists d;
      [left | right]; now apply dismiss_keeps_timers.
  - destruct (reachable_invariant m R) as (Hd & Ht & Hf).
    unfold tick in Htick.
    destruct (take_due (timers m)) as [[[d t] r]|] eqn:E; [|discriminate].
    inversion Htick as [Em']. clear Htick.
    pose proof (take_due_perm _ _ _ _ E) as P.
    assert (Hsplit : forall x, In x (timers m) -> x = (d, t) \/ In x r).
    { intros x Hx. apply (Permutation_in _ P) in Hx. destruct Hx; auto. }
    destruct t as [k | k]; cbn [fire].
    + set (m0 := {| container := container m; notifications := notifications m;
                    slideOut := slideOut m; rendered := rendered m;
                    timers := r; clock := Z.max (clock m) d; fresh := fresh m |}).
      intros n Hn. rewrite dismiss_keeps_tracking in Hn. cbn in Hn.
      destruct (IH R n Hn) as (toast & Et & Hp). exists toast.
      unfold toastOf. rewrite dismiss_keeps_rendered. split; [exact Et|].
      intros Hpr. destruct (Hp Hpr) as [d0 [Hd0 | Hd0]].
      * destruct (Hsplit _ Hd0) as [Eq | Hr].
        -- inversion Eq; subst.
           assert (Hpar : hasParent k m0 = true)
             by (apply hasParent_In; cbn; now apply Ht).
           destruct (dismiss_schedules_removal k m0 Hpar) as [d1 H1].
           exists d1. now right.
        -- exists d0. left. now apply dismiss_keeps_timers.
      * destruct (Hsplit _ Hd0) as [Eq | Hr]; [discriminate|].
        exists d0. right. now apply dismiss_keeps_timers.
    + intros n Hn. cbn [removeNow notifications] in Hn.
      destruct (splice_first_NoDup k _ Hd) as [_ Hk].
      assert (Hne : n <> k) by (intros ->; contradiction).
      apply splice_first_In in Hn.
      destruct (IH R n Hn) as (toast & Et & Hp). exists toast.
      split; [exact Et|].
      intros Hpr. destruct (Hp Hpr) as [d0 [Hd0 | Hd0]]; exists d0.
      * left. destruct (Hsplit _ Hd0) as [Eq | Hr]; [discriminate | exact Hr].
      * right. destruct (Hsplit _ Hd0) as [Eq | Hr]; [|exact Hr].
        inversion Eq; subst. contradiction.
Qed.

(** Once the pending timers have run, no timer is left and the tracked
    notifications are the persistent ones, those shown with a duration that
    is not positive. *)
Theorem only_persistent_remain (m : Manager) :
  reachable m ->
  let m' := drain (weight (timers m)) m in
  tick m' = None
  /\ forall n, In n (notifications m') ->
       exists toast, toastOf n m' = Some toast /\ hasProgress toast = false.
Proof.
  intros R m'.
  destruct (drain_runs_out_of_timers (weight (timers m)) m (le_n _)) as [Hq Ht].
  split; [exact Hq|]. intros n Hn.
  destruct (reachable_timed_have_timers m' (drain_reachable _ _ R) n Hn)
    as (toast & Et & Hp).
  exists toast. split; [exact Et|].
  destruct (hasProgress toast); [|reflexivity].
  destruct (Hp eq_refl) as [d [H | H]]; fold m' in Ht; rewrite Ht in H;
    contradiction.
Qed.

Lemma only_persistent_remain_witness :
  let m := snd (show "kept" "info" None 0 (burst 2 5000 init)) in
  let m' := drain (weight (timers m)) m in
  tick m' = None
  /\ forall n, In n (notifications m') ->
       exists toast, toastOf n m' = Some toast /\ hasProgress toast = false.
Proof.
  intros m. apply (only_persistent_remain m).
  apply reach_show, burst_reachable, reach_init.
Defined.

(** *** dismissAll *)

Lemma dismiss_list_effect (l : list elem) (m : Manager) :
  notifications (fold_left (fun acc n => dismiss (Some n) acc) l m)
  = notifications m
  /\ container (fold_left (fun acc n => dismiss (Some n) acc) l m) = container m
  /\ (forall x, In x (timers m) ->
        In x (timers (fold_left (fun acc n => dismiss (Some n) acc) l m)))
  /\ (forall n, In n l -> In n (container m) ->
        removalPending n (fold_left (fun acc n => dismiss (Some n) acc) l m)).
Proof.
  revert m. induction l as [|k l IH]; intros m; cbn [fold_left].
  - repeat split; auto. intros n [].
  - destruct (IH (dismiss (Some k) m)) as (H1 & H2 & H3 & H4).
    split; [now rewrite H1, dismiss_keeps_tracking|].
    split; [now rewrite H2, dismiss_keeps_container|].
    split; [intros x Hx; now apply H3, dismiss_keeps_timers|].
    intros n [<- | Hn] Hc.
    + apply hasParent_In in Hc.
      destruct (dismiss_schedules_removal _ _ Hc) as [d Hd]. exists d.
      now apply H3.
    + apply H4; [exact Hn|]. now rewrite dismiss_keeps_container.
Qed.

Lemma dismissAll_reachable (m : Manager) : reachable m -> reachable (dismissAll m).
Proof.
  unfold dismissAll. generalize (notifications m) as l. intros l. revert m.
  induction l as [|k l IH]; intros m R; cbn [fold_left]; [exact R|].
  apply IH. now apply reach_dismiss.
Qed.

(** [dismissAll] leaves the tracking array as it is and schedules the
    removal of every tracked notification. *)
Lemma dismissAll_schedules_all (m : Manager) :
  reachable m ->
  notifications (dismissAll m) = notifications m
  /\ forall n, In n (notifications m) -> removalPending n (dismissAll m).
Proof.
  intros R. destruct (reachable_invariant m R) as (_ & Ht & _).
  destruct (dismiss_list_effect (notifications m) m) as (H1 & _ & _ & H4).
  split; [exact H1|]. intros n Hn. apply H4; [exact Hn | now apply Ht].
Qed.

Lemma tick_keeps_removals (m m' : Manager) :
  reachable m ->
  (forall n, In n (notifications m) -> removalPending n m) ->
  tick m = Some m' ->
  forall n, In n (notifications m') -> removalPending n m'.
Proof.
  intros R P Htick.
  destruct (reachable_invariant m R) as (Hd & Ht & Hf).
  unfold tick in Htick.
  destruct (take_due (timers m)) as [[[d t] r]|] eqn:E; [|discriminate].
  inversion Htick as [Em']. clear Htick.
  pose proof (take_due_perm _ _ _ _ E) as Pm.
  assert (Hsplit : forall x, In x (timers m) -> x = (d, t) \/ In x r).
  { intros x Hx. apply (Permutation_in _ Pm) in Hx. destruct Hx; auto. }
  destruct t as [k | k]; cbn [fire]; intros n Hn.
  - rewrite dismiss_keeps_tracking in Hn. cbn in Hn.
    destruct (P n Hn) as [d0 Hd0].
    destruct (Hsplit _ Hd0) as [Eq | Hr]; [discriminate|].
    exists d0. now apply dismiss_keeps_timers.
  - cbn [removeNow notifications] in Hn.
    destruct (splice_first_NoDup k _ Hd) as [_ Hk].
    assert (Hne : n <> k) by (intros ->; contradiction).
    apply splice_first_In in Hn. destruct (P n Hn) as [d0 Hd0].
    exists d0. destruct (Hsplit _ Hd0) as [Eq | Hr]; [|exact Hr].
    inversion Eq; subst. contradiction.
Qed.

Lemma drain_keeps_removals (fuel : nat) (m : Manager) :
  reachable m ->
  (forall n, In n (notifications m) -> removalPending n m) ->
  forall n, In n (notifications (drain fuel m)) -> removalPending n (drain fuel m).
Proof.
  revert m. induction fuel as [|fuel IH]; intros m R P; simpl; [exact P|].
  destruct (tick m) as [m'|] eqn:E; [|exact P].
  apply IH; [now apply (reach_tick m) | now apply (tick_keeps_removals m)].
Qed.

(** After [dismissAll], once the pending timers have run, nothing is
    tracked any more. *)
Theorem dismissAll_clears (m : Manager) :
  reachable m ->
  let m' := drain (weight (timers (dismissAll m))) (dismissAll m) in
  notifications m' = [] /\ getCount m' = 0%nat /\ tick m' = None.
Proof.
  intros R m'.
  destruct (drain_runs_out_of_timers _ (dismissAll m) (le_n _)) as [Hq Ht].
  fold m' in Hq, Ht.
  assert (Hn : notifications m' = []).
  { destruct (notifications m') as [|n l] eqn:E; [reflexivity|].
    destruct (dismissAll_schedules_all m R) as [E1 P].
    rewrite <- E1 in P.
    destruct (drain_keeps_removals (weight (timers (dismissAll m))) _
                (dismissAll_reachable m R) P n) as [d Hd].
    - fold m'. rewrite E. now left.
    - fold m' in Hd. rewrite Ht in Hd. contradiction. }
  unfold getCount. rewrite Hn. repeat split. exact Hq.
Qed.

Lemma dismissAll_clears_witness :
  let m := snd (show "kept" "info" None 0 (burst 3 5000 init)) in
  let m' := drain (weight (timers (dismissAll m))) (dismissAll m) in
  notifications m' = [] /\ getCount m' = 0%nat /\ tick m' = None.
Proof.
  intros m. apply (dismissAll_clears m).
  apply reach_show, burst_reachable, reach_init.
Defined.

(** *** Tracking *)


(** In every state the manager can get into, no element is tracked twice,
    every tracked element is attached to the container, and the element
    that the next [show] creates is not yet tracked. *)
Theorem tracked_distinct_and_attached (m : Manager) :
  reachable m ->
  NoDup (notifications m)
  /\ (forall n, In n (notifications m) -> hasParent n m = true)
  /\ ~ In (fresh m) (notifications m).
Proof.
  intros R. destruct (reachable_invariant m R) as (Hd & Ht & Hf).
  split; [exact Hd|]. split.
  - intros n Hn. now apply hasParent_In, Ht.
  - intros C. apply Ht, Hf in C. lia.
Qed.

Lemma tracked_distinct_and_attached_witness :
  let m := drain 3 (burst 7 5000 init) in
  NoDup (notifications m)
  /\ (forall n, In n (notifications m) -> hasParent n m = true)
  /\ ~ In (fresh m) (notifications m).
Proof.
  intros m. apply (tracked_distinct_and_attached m).
  apply drain_reachable, burst_reachable, reach_init.
Defined.

(** *** Eviction at capacity *)

Lemma show_keeps_timers message type title duration (m : Manager) x :
  In x (timers m) -> In x (timers (snd (show message type title duration m))).
Proof.
  intros H. destruct (afterEviction_keeps m) as (_ & _ & _ & _ & _ & E6).
  destruct (createNotification message type title duration) as [toast|] eqn:E.
  - rewrite (show_returns _ _ _ _ _ _ E). cbn [snd timers].
    apply in_or_app. left. now apply E6.
  - rewrite (show_throws _ _ _ _ _ E). cbn [snd]. now apply E6.
Qed.

Lemma show_fresh message type title duration (m : Manager) :
  (fresh m <= fresh (snd (show message type title duration m)))%nat
  /\ forall n, In n (added (fst (show message type title duration m))) ->
       n = fresh m.
Proof.
  destruct (createNotification message type title duration) as [toast|] eqn:E.
  - rewrite (show_returns _ _ _ _ _ _ E). cbn [fst snd fresh added].
    split; [lia|]. now intros n [<- | []].
  - rewrite (show_throws _ _ _ _ _ E). cbn [fst snd added].
    destruct (afterEviction_keeps m) as (_ & _ & E3 & _). rewrite E3.
    split; [lia | intros n []].
Qed.

Lemma later_reachable (m m' : Manager) :
  reachable m -> later m m' -> reachable m'.
Proof.
  intros R L.
  induction L as [| m' t _ IH | m' ? ? ? ? _ IH | m' n _ IH | m' m'' _ IH Ht].
  - exact R.
  - now apply reach_wait.
  - now apply reach_show.
  - now apply reach_dismiss.
  - now apply (reach_tick m').
Qed.

Lemma drain_later (fuel : nat) (m : Manager) : later m (drain fuel m).
Proof.
  assert (G : forall m0 m1, later m0 m1 -> later m0 (drain fuel m1)).
  { induction fuel as [|fuel IH]; intros m0 m1 L; simpl; [exact L|].
    destruct (tick m1) as [m2|] eqn:E; [|exact L].
    apply IH. now apply (later_tick m0 m1). }
  apply G. apply later_now.
Qed.

Lemma splice_first_without (n : elem) (l : list elem) :
  NoDup l -> splice_first n l = without n l.
Proof.
  unfold without. induction l as [|x l IH]; intros H; simpl; [reflexivity|].
  inversion H as [|? ? Hx Hl]; subst.
  destruct (Nat.eqb_spec n x) as [-> | N]; simpl.
  - symmetry. clear IH H Hl. induction l as [|y l IH]; simpl; [reflexivity|].
    destruct (Nat.eqb_spec x y) as [-> | N]; simpl.
    + elim Hx. now left.
    + f_equal. apply IH. intros C. apply Hx. now right.
  - f_equal. now apply IH.
Qed.

(** A removal that is scheduled stays pending for as long as its element is
    tracked: whatever happens in between, the element leaves the tracking
    array only when a removal of it runs. *)
Lemma removal_stays_pending (m m' : Manager) (d : Z) (n : elem) :
  reachable m -> (n < fresh m)%nat -> In (d, RemoveTask n) (timers m) ->
  later m m' ->
  In n (notifications m') -> In (d, RemoveTask n) (timers m').
Proof.
  intros R Hf Ht L.
  assert (G : (n < fresh m')%nat
              /\ (In n (notifications m') -> In (d, RemoveTask n) (timers m'))).
  { induction L as [| m' t L IH | m' message type title duration L IH
                    | m' k L IH | m' m'' L IH Htick].
    - split; [exact Hf | now intros _].
    - exact IH.
    - destruct IH as [IH1 IH2].
      destruct (show_fresh message type title duration m') as [F1 F2].
      destruct (show_pushes message type title duration m') as [P1 _].
      split; [lia|]. rewrite P1. intros Hin. apply in_app_or in Hin.
      destruct Hin as [Hin | Hin].
      + now apply show_keeps_timers, IH2.
      + apply F2 in Hin. lia.
    - destruct IH as [IH1 IH2]. rewrite dismiss_keeps_fresh, dismiss_keeps_tracking.
      split; [exact IH1|]. intros Hin. now apply dismiss_keeps_timers, IH2.
    - destruct IH as [IH1 IH2].
      pose proof (later_reachable m m' R L) as R'.
      destruct (reachable_invariant m' R') as (Hd & _ & _).
      unfold tick in Htick.
      destruct (take_due (timers m')) as [[[d0 t] r]|] eqn:E; [|discriminate].
      injection Htick as <-.
      pose proof (take_due_perm _ _ _ _ E) as P.
      assert (Hsplit : forall x, In x (timers m') -> x = (d0, t) \/ In x r).
      { intros x Hx. apply (Permutation_in _ P) in Hx. destruct Hx; auto. }
      destruct t as [k | k]; cbn [fire].
      + rewrite dismiss_keeps_fresh, dismiss_keeps_tracking. cbn [fresh notifications].
        split; [exact IH1|]. intros Hin. apply dismiss_keeps_timers. cbn [timers].
        destruct (Hsplit _ (IH2 Hin)) as [C | Hr]; [discriminate | exact Hr].
      + cbn [removeNow fresh notifications timers].
        split; [exact IH1|]. intros Hin.
        destruct (splice_first_NoDup k _ Hd) as [_ Hk].
        assert (Hne : n <> k) by (intros ->; contradiction).
        apply splice_first_In in Hin.
        destruct (Hsplit _ (IH2 Hin)) as [C | Hr]; [|exact Hr].
        injection C as _ C. congruence. }
  apply G.
Qed.

(** C1, as the code has it. In every state the manager can get into, when
    [show] is called with five notifications tracked:
    - the call dismisses exactly the oldest of them: the oldest alone gets
      the exit class, and the one removal the call schedules is that of the
      oldest, 300 ms later;
    - the call itself removes nothing: when it returns, the five and the new
      element are tracked, six in all (a call that throws, as it does for a
      type such as toString given without a title, adds nothing);
    - from then on, whatever else is shown, dismissed or run, the oldest is
      tracked only as long as that removal is pending; when a removal of the
      oldest runs, the oldest and nothing else leaves the tracking array and
      the container, so that five are tracked then if nothing else was added
      or removed in between; and once the pending timers have run the oldest
      is gone. *)
Theorem show_at_capacity_evicts_oldest_after_transition
    message type title duration (m : Manager) (oldest : elem) (rest : list elem) :
  reachable m ->
  notifications m = oldest :: rest ->
  List.length rest = 4%nat ->
  let r := fst (show message type title duration m) in
  let m' := snd (show message type title duration m) in
  let removal := (clock m + 300, RemoveTask oldest) in
  slideOut m' = oldest :: slideOut m
  /\ timers m'
     = timers m ++ removal
         :: match r with
            | Some n => if 0 <? duration
                        then [(clock m + duration, DismissTask n)] else []
            | None => []
            end
  /\ notifications m' = oldest :: rest ++ added r
  /\ container m' = container m ++ added r
  /\ (r = None <-> (title = None \/ title = Some "") /\ JS.inherited type = true)
  /\ (forall n, r = Some n -> ~ In n (oldest :: rest) /\ getCount m' = 6%nat)
  /\ (forall m2, later m' m2 ->
        In oldest (notifications m2) -> In removal (timers m2))
  /\ (forall m2 d q, later m' m2 ->
        take_due (timers m2) = Some (d, RemoveTask oldest, q) ->
        exists m3,
          tick m2 = Some m3
          /\ notifications m3 = without oldest (notifications m2)
          /\ container m3 = without oldest (container m2)
          /\ (notifications m2 = notifications m' ->
              notifications m3 = rest ++ added r
              /\ getCount m3 = (4 + List.length (added r))%nat))
  /\ ~ In oldest (notifications (drain (weight (timers m')) m')).
Proof.
  intros R Hn Hlen r m' removal.
  destruct (reachable_invariant m R) as (Hd & Ht & Hf).
  assert (Hp : hasParent oldest m = true).
  { apply reachable_tracked_attached; [exact R|]. rewrite Hn. now left. }
  assert (Hev : afterEviction m
                = {| container := container m; notifications := notifications m;
                     slideOut := oldest :: slideOut m; rendered := rendered m;
                     timers := timers m ++ [removal];
                     clock := clock m; fresh := fresh m |}).
  { assert (Hcap : (maxNotifications <=? List.length (notifications m))%nat = true)
      by (rewrite Hn; cbn [List.length]; now rewrite Hlen).
    assert (Hhd : hd_error (notifications m) = Some oldest) by now rewrite Hn.
    unfold afterEviction. rewrite Hcap, Hhd. now apply dismiss_attached. }
  assert (R' : reachable m') by now apply reach_show.
  destruct (show_pushes message type title duration m) as [Pn Pc].
  fold r m' in Pn, Pc.
  destruct (show_fresh message type title duration m) as [F1 F2].
  fold r m' in F1, F2.
  assert (Hs : slideOut m' = oldest :: slideOut m
               /\ timers m'
                  = timers m ++ removal
                      :: match r with
                         | Some n => if 0 <? duration
                                     then [(clock m + duration, DismissTask n)]
                                     else []
                         | None => []
                         end).
  { unfold m', r.
    destruct (createNotification message type title duration) as [toast|] eqn:E.
    - rewrite (show_returns _ _ _ _ _ _ E), Hev. cbn [fst snd slideOut timers].
      split; [reflexivity|]. now rewrite <- app_assoc.
    - rewrite (show_throws _ _ _ _ _ E), Hev. now cbn [fst snd slideOut timers]. }
  destruct Hs as [Hs1 Hs2].
  assert (Hpend : In removal (timers m')).
  { rewrite Hs2. apply in_or_app. right. now left. }
  assert (Hold : (oldest < fresh m')%nat).
  { assert (In oldest (container m)) by (apply Ht; rewrite Hn; now left).
    apply Hf in H. lia. }
  assert (Hfresh : forall n, r = Some n -> ~ In n (oldest :: rest)).
  { intros n Hr C. rewrite <- Hn in C. apply Ht, Hf in C.
    specialize (F2 n). rewrite Hr in F2. cbn [added] in F2.
    specialize (F2 (or_introl eq_refl)). lia. }
  split; [exact Hs1|]. split; [exact Hs2|].
  split; [now rewrite Pn, Hn|]. split; [exact Pc|].
  split; [apply show_throws_iff|].
  split.
  { intros n Hr. split; [now apply Hfresh|].
    unfold getCount. rewrite Pn, Hn, Hr. cbn [added].
    rewrite length_app. cbn [List.length]. rewrite Hlen. reflexivity. }
  split.
  { intros m2 L. now apply (removal_stays_pending m' m2 _ oldest R' Hold Hpend). }
  split.
  { intros m2 d q L Htake.
    pose proof (later_reachable m' m2 R' L) as R2.
    destruct (reachable_invariant m2 R2) as (Hd2 & _ & _).
    unfold tick. rewrite Htake. eexists. split; [reflexivity|].
    cbn [fire removeNow notifications container].
    split; [now apply splice_first_without|]. split; [reflexivity|].
    intros E.
    assert (Hm3 : splice_first oldest (notifications m2) = rest ++ added r)
      by (rewrite E, Pn, Hn; cbn [app]; apply splice_first_head).
    split; [exact Hm3|]. unfold getCount. cbn [removeNow notifications].
    now rewrite Hm3, length_app, Hlen. }
  intros C.
  destruct (drain_runs_out_of_timers (weight (timers m')) m' (le_n _)) as [_ Hq].
  apply (removal_stays_pending m' _ _ oldest R' Hold Hpend (drain_later _ m')) in C.
  rewrite Hq in C. contradiction.
Qed.

Lemma show_at_capacity_witness :
  let m := burst 5 5000 init in
  let r := fst (show "sixth" "info" None 5000 m) in
  let m' := snd (show "sixth" "info" None 5000 m) in
  let removal := (clock m + 300, RemoveTask 0%nat) in
  slideOut m' = 0%nat :: slideOut m
  /\ timers m'
     = timers m ++ removal
         :: match r with
            | Some n => if 0 <? 5000
                        then [(clock m + 5000, DismissTask n)] else []
            | None => []
            end
  /\ notifications m' = 0%nat :: [1; 2; 3; 4]%nat ++ added r
  /\ container m' = container m ++ added r
  /\ (r = None <-> (@None string = None \/ None = Some "")
                   /\ JS.inherited "info" = true)
  /\ (forall n, r = Some n ->
        ~ In n (0%nat :: [1; 2; 3; 4]%nat) /\ getCount m' = 6%nat)
  /\ (forall m2, later m' m2 ->
        In 0%nat (notifications m2) -> In removal (timers m2))
  /\ (forall m2 d q, later m' m2 ->
        take_due (timers m2) = Some (d, RemoveTask 0%nat, q) ->
        exists m3,
          tick m2 = Some m3
          /\ notifications m3 = without 0%nat (notifications m2)
          /\ container m3 = without 0%nat (container m2)
          /\ (notifications m2 = notifications m' ->
              notifications m3 = [1; 2; 3; 4]%nat ++ added r
              /\ getCount m3 = (4 + List.length (added r))%nat))
  /\ ~ In 0%nat (notifications (drain (weight (timers m')) m')).
Proof.
  apply (show_at_capacity_evicts_oldest_after_transition
           "sixth" "info" None 5000 (burst 5 5000 init) 0%nat [1; 2; 3; 4]%nat).
  - apply burst_reachable, reach_init.
  - reflexivity.
  - reflexivity.
Defined.

(** The state that shows why the count at the removal depends on what else
    is pending: with the removal of another notification scheduled before
    the sixth [show], four are tracked once the oldest is removed. *)
Lemma removal_with_another_pending :
  let m := dismiss (Some 2%nat) (burst 5 0 init) in
  let m' := snd (show "sixth" "info" None 0 m) in
  getCount m = 5%nat
  /\ map snd (timers m') = [RemoveTask 2%nat; RemoveTask 0%nat]
  /\ notifications (drain 2 m') = [1; 3; 4; 5]%nat.
Proof. repeat split. Qed.

End NotificationLoopFacts.

(** * Further properties of the fetcher, the table and the KPIs *)

Module DashboardMoreFacts.
Import Json Fetcher Dashboard Contract Notions.
Local Open Scope list_scope.

(** *** fetchTraces *)

(** The ways in which [fetchTraces] fails: the transport fails; the status
    is outside the success class; the body is not JSON; or the body is
    [null], whose [traces] cannot be read. Every other response gives a
    result. *)
Theorem fetchTraces_failures (fetch : string -> settled Response) (limit : Z)
    (e : exn) :
  fetchTraces fetch limit = Rejected e <->
  fetch (request_url limit) = Rejected e
  \/ exists res,
       fetch (request_url limit) = Fulfilled res
       /\ ((ok res = false
            /\ e = Error ("Failed to fetch traces: " ++ JS.show_Z (status res)))
           \/ (ok res = true /\ json res = Rejected e)
           \/ (ok res = true /\ json res = Fulfilled JNull
               /\ e = TypeError "Cannot read properties of null (reading 'traces')")).
Proof.
  unfold fetchTraces. split.
  - destruct (fetch (request_url limit)) as [res | e0];
      [|intros [= <-]; now left].
    intros H. right. exists res. split; [reflexivity|].
    destruct (ok res) eqn:Eok; cbn [negb] in H.
    + right. destruct (json res) as [data | e1] eqn:Ej.
      * right. destruct data; cbn [isArray get_traces] in H; try discriminate.
        inversion H. auto.
      * left. inversion H. auto.
    + left. inversion H. auto.
  - intros [H | (res & H & [[Hok ->] | [[Hok Hj] | (Hok & Hj & ->)]])];
      rewrite H; try reflexivity; rewrite Hok; cbn [negb];
      try reflexivity; rewrite Hj; reflexivity.
Qed.

(** *** The pages of the table *)

Lemma slice_of_page {A : Type} (start size : Z) (a : list A) :
  0 <= start -> 0 <= size ->
  slice start (start + size) a
  = firstn (Z.to_nat size) (skipn (Z.to_nat start) a).
Proof.
  intros Hs Hz. unfold slice.
  replace (start <? 0) with false by (symmetry; apply Z.ltb_ge; lia).
  replace (start + size <? 0) with false by (symmetry; apply Z.ltb_ge; lia).
  set (n := Z.of_nat (List.length a)).
  destruct (Z.le_gt_cases n start) as [Hge | Hlt].
  - rewrite (skipn_all2 (n := Z.to_nat start)) by (unfold n in Hge; lia).
    replace (Z.min (start + size) n - Z.min start n) with 0 by lia.
    now rewrite firstn_nil.
  - replace (Z.min start n) with start by lia.
    destruct (Z.le_gt_cases n (start + size)) as [He | He].
    + replace (Z.min (start + size) n) with n by lia.
      rewrite !firstn_all2; [reflexivity| |]; rewrite length_skipn;
        unfold n in *; lia.
    + replace (Z.min (start + size) n) with (start + size) by lia.
      f_equal. f_equal. lia.
Qed.

Lemma chunks_concat {A : Type} (size : nat) (m : nat) (a : list A) :
  (0 < size)%nat -> (List.length a <= m * size)%nat ->
  List.concat (map (fun k => firstn size (skipn (k * size) a)) (seq 0 m)) = a.
Proof.
  intros Hs. revert a. induction m as [|m IH]; intros a Hl.
  - destruct a; [reflexivity | simpl in Hl; lia].
  - cbn [seq map List.concat]. rewrite <- seq_shift, map_map.
    cbn [Nat.mul skipn].
    rewrite (map_ext _ (fun k => firstn size (skipn (k * size) (skipn size a)))).
    + rewrite IH; [apply firstn_skipn|]. rewrite length_skipn. lia.
    + intros k. rewrite skipn_skipn. do 2 f_equal. lia.
Qed.

(** The pages 1 to Y of the table, Y being the number of pages, show every
    item once and in order: their rows one after the other are the rows of
    all the items. No page has more rows than the page size, and a page past
    the last one has none. *)
Theorem pages_show_every_item_once (items : list Trace) (perPage pages : Z)
    (dom : Pagination) :
  0 < perPage ->
  ceil_div (Z.of_nat (List.length items)) perPage = Fin pages ->
  List.concat (map (fun p => fst (updateTable items p perPage dom)) (pageNumbers pages))
  = map renderRow items
  /\ (forall p, 1 <= p ->
        Z.of_nat (List.length (fst (updateTable items p perPage dom))) <= perPage)
  /\ (forall p, pages < p -> fst (updateTable items p perPage dom) = []).
Proof.
  intros Hp Hc.
  rewrite DashboardFacts.ceil_div_nonzero in Hc by lia. inversion Hc as [Hpages].
  pose proof (DashboardFacts.ceil_div_is_ceiling
                (Z.of_nat (List.length items)) perPage Hp) as Hceil.
  rewrite Hpages in Hceil. clear Hc.
  assert (Hrows : forall p, 1 <= p ->
            fst (updateTable items p perPage dom)
            = map renderRow
                (firstn (Z.to_nat perPage)
                   (skipn (Z.to_nat ((p - 1) * perPage)) items))).
  { intros p H1. unfold updateTable. cbn [fst].
    rewrite slice_of_page by nia. reflexivity. }
  split; [|split].
  - unfold pageNumbers. rewrite map_map.
    rewrite (map_ext _ (fun k => map renderRow
                          (firstn (Z.to_nat perPage)
                             (skipn (k * Z.to_nat perPage) items)))).
    + rewrite <- (map_map (fun k => firstn (Z.to_nat perPage)
                                     (skipn (k * Z.to_nat perPage) items))
                           (map renderRow)).
      rewrite <- List.concat_map. f_equal. apply chunks_concat; [lia|]. nia.
    + intros k. rewrite Hrows by lia. do 3 f_equal. nia.
  - intros p H1. rewrite Hrows by exact H1. rewrite length_map, length_firstn. lia.
  - intros p H1. rewrite Hrows by nia.
    rewrite skipn_all2; [now rewrite firstn_nil|]. nia.
Qed.

Lemma pages_show_every_item_once_witness :
  let t c := {| time := None; model := Some c; latency_ms := None;
                total_tokens := None; input_tokens := None;
                output_tokens := None; input_content := None;
                output_content := None |} in
  let items := [t "a"; t "b"; t "c"; t "d"; t "e"] in
  let dom := {| hidden := true; pageInfo := ""; prevDisabled := false;
                nextDisabled := false |} in
  List.concat (map (fun p => fst (updateTable items p 2 dom)) (pageNumbers 3))
  = map renderRow items
  /\ (forall p, 1 <= p ->
        Z.of_nat (List.length (fst (updateTable items p 2 dom))) <= 2)
  /\ (forall p, 3 < p -> fst (updateTable items p 2 dom) = []).
Proof.
  intros t items dom.
  apply (pages_show_every_item_once items 2 3 dom); [lia | reflexivity].
Defined.

End DashboardMoreFacts.

(** * Further properties of the load action and the navigation *)

Module LoaderMoreFacts.
Import Dashboard Fetcher Loader Contract Notions.
Local Open Scope list_scope.

(** *** The load action *)

Lemma onLoadClick_not_loading (s : App) :
  isLoading s = false ->
  exists s1 log limit,
    onLoadClick s = Awaiting s1 log limit afterFetch
    /\ 1 <= limit <= 200
    /\ (log = [Info "Loading traces..."; Request limit]
        \/ log = [Warning "Limit reset to 50"; Info "Loading traces...";
                  Request limit])
    /\ isLoading s1 = true /\ loadBtnDisabled s1 = true
    /\ loadBtnText s1 = "Loading..."
    /\ allItems s1 = allItems s /\ currentPage s1 = currentPage s
    /\ kpis s1 = kpis s /\ tableRows s1 = tableRows s
    /\ pagination s1 = pagination s
    /\ parseInt (limitInput s1) = Some limit.
Proof.
  intros H. unfold onLoadClick. rewrite H.
  destruct (parseInt (limitInput s)) as [n|] eqn:Ep.
  - unfold MAX_LIMIT, DEFAULT_LIMIT.
    destruct (Z.ltb_spec n 1); [|destruct (Z.ltb_spec 200 n)]; cbn [orb];
      do 3 eexists; (split; [reflexivity|]); cbn;
      repeat split; auto; lia.
  - do 3 eexists. split; [reflexivity|]. cbn. unfold DEFAULT_LIMIT.
    repeat split; auto; lia.
Qed.

(** Whatever the limit input holds, a load that starts fetches with a limit
    from 1 to 200, and with no other: the log has one request. *)
Theorem requested_limit_is_in_range (s : App) :
  isLoading s = false ->
  exists limit,
    requested (onLoadClick s) = Some limit
    /\ 1 <= limit <= 200
    /\ (forall k, In (Request k) (log_of (onLoadClick s)) <-> k = limit).
Proof.
  intros H.
  destruct (onLoadClick_not_loading s H) as (s1 & log & limit & E & Hr & Hl & _).
  rewrite E. exists limit. cbn [requested log_of].
  split; [reflexivity|]. split; [exact Hr|]. intros k.
  destruct Hl as [-> | ->]; simpl; split;
    try (intros [C | [C | [C | C]]]; try discriminate; try contradiction;
         now inversion C);
    try (intros [C | [C | C]]; try discriminate; try contradiction;
         now inversion C);
    intros ->; tauto.
Qed.

Lemma requested_limit_is_in_range_witness :
  exists limit,
    requested (onLoadClick (start "9999")) = Some limit
    /\ 1 <= limit <= 200
    /\ (forall k, In (Request k) (log_of (onLoadClick (start "9999")))
                  <-> k = limit).
Proof.
  apply (requested_limit_is_in_range (start "9999")). reflexivity.
Defined.

(** The guard is set exactly while a load is pending. A load that starts
    sets it, disables the button and leaves the data as it is, so that a
    second click is turned away with the warning; when the fetch settles,
    with whatever outcome and on whatever state it finds, the guard is
    cleared and the button restored, so that the next click starts a load
    again. *)
Theorem guard_is_set_while_pending (s : App) (outcome : settled (list Trace))
    (s2 : App) :
  isLoading s = false ->
  let s1 := state_of (onLoadClick s) in
  let s3 := fst (afterFetch outcome s2) in
  isLoading s1 = true /\ loadBtnDisabled s1 = true
  /\ allItems s1 = allItems s /\ currentPage s1 = currentPage s
  /\ onLoadClick s1 = Returned s1 [Warning "Already loading..."]
  /\ isLoading s3 = false /\ loadBtnDisabled s3 = false /\ loadBtnText s3 = "Load"
  /\ requested (onLoadClick s3) <> None.
Proof.
  intros H s1 s3.
  destruct (onLoadClick_not_loading s H)
    as (s1' & log & limit & E & _ & _ & Hl & Hb & _ & Ha & Hc & _).
  assert (E1 : s1 = s1') by (unfold s1; now rewrite E). rewrite E1.
  assert (H3 : isLoading s3 = false) by (unfold s3; destruct outcome; reflexivity).
  repeat split; auto.
  - unfold onLoadClick. now rewrite Hl.
  - unfold s3. destruct outcome; reflexivity.
  - unfold s3. destruct outcome; reflexivity.
  - destruct (onLoadClick_not_loading s3 H3) as (? & ? & ? & E3 & _).
    rewrite E3. discriminate.
Qed.

Lemma guard_is_set_while_pending_witness :
  let s := start "25" in
  let s1 := state_of (onLoadClick s) in
  let s3 := fst (afterFetch (Rejected (Error "Failed to fetch traces: 500")) s1) in
  isLoading s1 = true /\ loadBtnDisabled s1 = true
  /\ allItems s1 = allItems s /\ currentPage s1 = currentPage s
  /\ onLoadClick s1 = Returned s1 [Warning "Already loading..."]
  /\ isLoading s3 = false /\ loadBtnDisabled s3 = false /\ loadBtnText s3 = "Load"
  /\ requested (onLoadClick s3) <> None.
Proof.
  intros s s1.
  apply (guard_is_set_while_pending s
           (Rejected (Error "Failed to fetch traces: 500")) s1).
  reflexivity.
Defined.

(** A load that fails leaves the page as it found it, apart from a limit
    input that it corrected: the trace list, the page, the KPIs, the rows
    and the pagination controls are those from before the click, and the
    one thing shown is the error with its reason. With a limit input that
    needed no correction the state is the one from before the click. *)
Theorem failed_load_changes_nothing (s : App) (e : exn) :
  isLoading s = false ->
  loadBtnText s = "Load" -> loadBtnDisabled s = false ->
  let s1 := state_of (onLoadClick s) in
  fst (afterFetch (Rejected e) s1)
  = {| allItems := allItems s; currentPage := currentPage s;
       isLoading := false; limitInput := limitInput s1;
       loadBtnText := "Load"; loadBtnDisabled := false;
       kpis := kpis s; tableRows := tableRows s; pagination := pagination s |}
  /\ (forall n, parseInt (limitInput s) = Some n -> 1 <= n <= 200 ->
      fst (afterFetch (Rejected e) s1) = s)
  /\ snd (afterFetch (Rejected e) s1) = [Failure (describe e)].
Proof.
  intros H Ht Hd s1. split; [|split].
  - unfold s1, onLoadClick. rewrite H. reflexivity.
  - intros n Hp Hn. unfold s1, onLoadClick. rewrite H, Hp. unfold MAX_LIMIT.
    replace (n <? 1) with false by (symmetry; apply Z.ltb_ge; lia).
    replace (200 <? n) with false by (symmetry; apply Z.ltb_ge; lia).
    destruct s. cbn in *. subst. reflexivity.
  - reflexivity.
Qed.

Lemma failed_load_changes_nothing_witness :
  let s := start "25" in
  let e := TypeError "Failed to fetch" in
  let s1 := state_of (onLoadClick s) in
  fst (afterFetch (Rejected e) s1)
  = {| allItems := allItems s; currentPage := currentPage s;
       isLoading := false; limitInput := limitInput s1;
       loadBtnText := "Load"; loadBtnDisabled := false;
       kpis := kpis s; tableRows := tableRows s; pagination := pagination s |}
  /\ (forall n, parseInt (limitInput s) = Some n -> 1 <= n <= 200 ->
      fst (afterFetch (Rejected e) s1) = s)
  /\ snd (afterFetch (Rejected e) s1) = [Failure (describe e)].
Proof.
  intros s e.
  apply (failed_load_changes_nothing s e); reflexivity.
Defined.

(** A load that succeeds replaces the trace list, goes back to page 1 and
    renders from the new list only: the KPIs are those of the new list, the
    table shows its first ten items, the pagination controls are hidden
    exactly when it has at most ten, and the success message gives its
    length. Nothing of the list held before remains. *)
Theorem successful_load_replaces_everything (items : list Trace) (s : App) :
  let s' := fst (afterFetch (Fulfilled items) s) in
  allItems s' = items /\ currentPage s' = 1
  /\ kpis s' = updateKpis items
  /\ tableRows s' = map renderRow (firstn 10 items)
  /\ (hidden (pagination s') = true <-> (List.length items <= 10)%nat)
  /\ isLoading s' = false
  /\ snd (afterFetch (Fulfilled items) s)
     = [Redraw items;
        Success ("Loaded " ++ JS.show_Z (Z.of_nat (List.length items))
                 ++ " traces")%string].
Proof.
  intros s'. unfold s'. cbn [afterFetch fst snd release allItems currentPage kpis
                             tableRows pagination isLoading].
  repeat split.
  - unfold updateTable, ROWS_PER_PAGE. cbn [fst].
    change ((1 - 1) * 10) with 0.
    rewrite (DashboardMoreFacts.slice_of_page 0 10) by lia. reflexivity.
  - unfold updateTable, ROWS_PER_PAGE, updatePaginationControls. cbn [snd].
    rewrite DashboardFacts.ceil_div_nonzero by lia. cbn [num_leb].
    destruct (Z.of_nat (List.length items) =? 0) eqn:E0; cbn [orb hidden].
    + apply Z.eqb_eq in E0. lia.
    + destruct (- (- Z.of_nat (List.length items) / 10) <=? 1) eqn:E1;
        cbn [hidden]; [|discriminate].
      intros _. apply Z.leb_le in E1.
      pose proof (DashboardFacts.ceil_div_is_ceiling
                    (Z.of_nat (List.length items)) 10 ltac:(lia)). lia.
  - unfold updateTable, ROWS_PER_PAGE, updatePaginationControls. cbn [snd].
    rewrite DashboardFacts.ceil_div_nonzero by lia. cbn [num_leb].
    intros Hl.
    destruct (Z.of_nat (List.length items) =? 0) eqn:E0; cbn [orb hidden];
      [reflexivity|].
    replace (- (- Z.of_nat (List.length items) / 10) <=? 1) with true;
      [reflexivity|].
    symmetry. apply Z.leb_le.
    pose proof (DashboardFacts.ceil_div_is_ceiling
                  (Z.of_nat (List.length items)) 10 ltac:(lia)). lia.
Qed.

(** Loading again without touching the limit input asks for the same limit
    as before, and a correction is announced once only: the load after a
    completed one shows no reset warning. *)
Theorem repeated_load_keeps_limit (s : App) (outcome : settled (list Trace)) :
  isLoading s = false ->
  let s3 := fst (afterFetch outcome (state_of (onLoadClick s))) in
  requested (onLoadClick s3) = requested (onLoadClick s)
  /\ exists limit,
       log_of (onLoadClick s3) = [Info "Loading traces..."; Request limit].
Proof.
  intros H s3.
  destruct (onLoadClick_not_loading s H)
    as (s1 & log & limit & E & Hr & _ & _ & _ & _ & _ & _ & _ & _ & _ & Hp).
  rewrite E. cbn [requested].
  assert (E1 : state_of (onLoadClick s) = s1) by now rewrite E.
  assert (Hl3 : isLoading s3 = false) by (unfold s3; destruct outcome; reflexivity).
  assert (Hi3 : limitInput s3 = limitInput s1)
    by (unfold s3; rewrite E1; destruct outcome; reflexivity).
  unfold onLoadClick. rewrite Hl3, Hi3, Hp. unfold MAX_LIMIT.
  replace (limit <? 1) with false by (symmetry; apply Z.ltb_ge; lia).
  replace (200 <? limit) with false by (symmetry; apply Z.ltb_ge; lia).
  cbn [orb requested log_of app]. split; [reflexivity|]. now exists limit.
Qed.

Lemma repeated_load_keeps_limit_witness :
  let s := start "abc" in
  let s3 := fst (afterFetch (Fulfilled []) (state_of (onLoadClick s))) in
  requested (onLoadClick s3) = requested (onLoadClick s)
  /\ exists limit,
       log_of (onLoadClick s3) = [Info "Loading traces..."; Request limit].
Proof.
  intros s. apply (repeated_load_keeps_limit s (Fulfilled [])). reflexivity.
Defined.

(** *** Page navigation *)

(** The page that the scripts hold, which is the page they last passed to
    [updateTable] and so to [updatePaginationControls], is one of the pages
    there are: from 1 to the number of pages, or 1 when there is no page. *)
Lemma pages_passed_are_pages (s : App) :
  visited s ->
  exists pages,
    ceil_div (Z.of_nat (List.length (allItems s))) ROWS_PER_PAGE = Fin pages
    /\ 1 <= currentPage s <= Z.max 1 pages.
Proof.
  assert (C : forall items : list Trace,
            ceil_div (Z.of_nat (List.length items)) ROWS_PER_PAGE
            = Fin (- (- Z.of_nat (List.length items) / 10)))
    by (intros items; now apply DashboardFacts.ceil_div_nonzero).
  induction 1 as [limit | s v _ IH | s _ IH | s r _ IH | s _ IH | s _ IH].
  - eexists. split; [apply C|]. cbn. lia.
  - exact IH.
  - destruct IH as (pages & Hc & Hr). exists pages.
    unfold onLoadClick. destruct (isLoading s); cbn [state_of allItems currentPage];
      now split.
  - destruct r as [items | e].
    + eexists. split; [apply C|]. cbn [afterFetch fst release currentPage]. lia.
    + exact IH.
  - destruct IH as (pages & Hc & Hr). exists pages.
    unfold goToNextPage. rewrite Hc.
    destruct (Z.ltb_spec (currentPage s) pages);
      cbn [showPage allItems currentPage]; split; try exact Hc; lia.
  - destruct IH as (pages & Hc & Hr). exists pages.
    unfold goToPrevPage.
    destruct (Z.ltb_spec 1 (currentPage s));
      cbn [showPage allItems currentPage]; split; try exact Hc; lia.
Qed.

Lemma shown_controls (total page pages : Z) (dom : Pagination) :
  ceil_div total ROWS_PER_PAGE = Fin pages -> 1 < pages ->
  updatePaginationControls total page ROWS_PER_PAGE dom
  = {| hidden := false;
       pageInfo := ("Page " ++ JS.show_Z page ++ " of " ++ JS.show_Z pages)%string;
       prevDisabled := page <=? 1;
       nextDisabled := pages <=? page |}.
Proof.
  intros Hc Hp. unfold updatePaginationControls. rewrite Hc. cbn [num_leb show_num].
  assert (total <> 0).
  { intros ->. unfold ceil_div, ROWS_PER_PAGE in Hc. cbn in Hc.
    inversion Hc. lia. }
  replace (total =? 0) with false by (symmetry; now apply Z.eqb_neq).
  replace (pages <=? 1) with false by (symmetry; apply Z.leb_gt; lia).
  reflexivity.
Qed.

Lemma showPage_again (p q pages : Z) (s : App) :
  ceil_div (Z.of_nat (List.length (allItems s))) ROWS_PER_PAGE = Fin pages ->
  1 < pages ->
  showPage p (showPage q s) = showPage p s.
Proof.
  intros Hc Hp. unfold showPage, updateTable.
  cbn [allItems pagination isLoading limitInput loadBtnText loadBtnDisabled
       kpis fst snd].
  now rewrite !(shown_controls _ _ pages _ Hc Hp).
Qed.

(** The navigation stays on the pages there are. From a page within 1 and
    the number of pages, next and previous lead to a page within the same
    range; next on the last page and previous on the first page change
    nothing; neither touches the trace list or starts a load. *)
Theorem navigation_stays_on_pages (s : App) (pages : Z) :
  ceil_div (Z.of_nat (List.length (allItems s))) ROWS_PER_PAGE = Fin pages ->
  1 <= currentPage s <= pages ->
  1 <= currentPage (goToNextPage s) <= pages
  /\ 1 <= currentPage (goToPrevPage s) <= pages
  /\ (currentPage s = pages -> goToNextPage s = s)
  /\ (currentPage s = 1 -> goToPrevPage s = s)
  /\ allItems (goToNextPage s) = allItems s
  /\ allItems (goToPrevPage s) = allItems s
  /\ isLoading (goToNextPage s) = isLoading s
  /\ isLoading (goToPrevPage s) = isLoading s.
Proof.
  intros Hc Hr. unfold goToNextPage, goToPrevPage. rewrite Hc.
  destruct (Z.ltb_spec (currentPage s) pages);
    destruct (Z.ltb_spec 1 (currentPage s));
    cbn [showPage currentPage allItems isLoading];
    repeat split; try lia; try reflexivity; intros; lia.
Qed.

Lemma navigation_stays_on_pages_witness :
  let t := {| time := None; model := None; latency_ms := None;
              total_tokens := None; input_tokens := None;
              output_tokens := None; input_content := None;
              output_content := None |} in
  let s := fst (afterFetch (Fulfilled (repeat t 25)) (start "25")) in
  1 <= currentPage (goToNextPage s) <= 3
  /\ 1 <= currentPage (goToPrevPage s) <= 3
  /\ (currentPage s = 3 -> goToNextPage s = s)
  /\ (currentPage s = 1 -> goToPrevPage s = s)
  /\ allItems (goToNextPage s) = allItems s
  /\ allItems (goToPrevPage s) = allItems s
  /\ isLoading (goToNextPage s) = isLoading s
  /\ isLoading (goToPrevPage s) = isLoading s.
Proof.
  intros t s. apply (navigation_stays_on_pages s 3); [reflexivity|].
  cbn. lia.
Defined.

(** Next and then previous leads back: the page is the one from before, and
    the table and the controls are those of that page. *)
Theorem next_then_previous_returns (s : App) (pages : Z) :
  ceil_div (Z.of_nat (List.length (allItems s))) ROWS_PER_PAGE = Fin pages ->
  1 <= currentPage s < pages ->
  let s' := goToPrevPage (goToNextPage s) in
  s' = showPage (currentPage s) s
  /\ currentPage s' = currentPage s
  /\ tableRows s'
     = map renderRow
         (firstn 10 (skipn (Z.to_nat (10 * (currentPage s - 1))) (allItems s)))
  /\ pagination s'
     = {| hidden := false;
          pageInfo := ("Page " ++ JS.show_Z (currentPage s) ++ " of "
                       ++ JS.show_Z pages)%string;
          prevDisabled := currentPage s <=? 1;
          nextDisabled := false |}.
Proof.
  intros Hc Hr s'.
  assert (E : s' = showPage (currentPage s) s).
  { unfold s', goToNextPage. rewrite Hc.
    replace (currentPage s <? pages) with true by (symmetry; apply Z.ltb_lt; lia).
    unfold goToPrevPage. cbn [showPage currentPage] .
    replace (1 <? currentPage s + 1) with true by (symmetry; apply Z.ltb_lt; lia).
    replace (currentPage s + 1 - 1) with (currentPage s) by lia.
    apply (showPage_again _ _ pages); [exact Hc | lia]. }
  split; [exact E|]. rewrite E. clear E s'.
  split; [reflexivity|]. split.
  - cbn [showPage tableRows]. unfold updateTable, ROWS_PER_PAGE. cbn [fst].
    rewrite DashboardMoreFacts.slice_of_page by lia.
    do 3 f_equal. lia.
  - cbn [showPage pagination]. unfold updateTable. cbn [snd].
    rewrite (shown_controls _ _ pages _ Hc) by lia.
    replace (pages <=? currentPage s) with false
      by (symmetry; apply Z.leb_gt; lia).
    reflexivity.
Qed.

Lemma next_then_previous_returns_witness :
  let t := {| time := None; model := None; latency_ms := None;
              total_tokens := None; input_tokens := None;
              output_tokens := None; input_content := None;
              output_content := None |} in
  let s := fst (afterFetch (Fulfilled (repeat t 25)) (start "25")) in
  let s' := goToPrevPage (goToNextPage s) in
  s' = showPage (currentPage s) s
  /\ currentPage s' = currentPage s
  /\ tableRows s'
     = map renderRow
         (firstn 10 (skipn (Z.to_nat (10 * (currentPage s - 1))) (allItems s)))
  /\ pagination s'
     = {| hidden := false;
          pageInfo := ("Page " ++ JS.show_Z (currentPage s) ++ " of "
                       ++ JS.show_Z 3)%string;
          prevDisabled := currentPage s <=? 1;
          nextDisabled := false |}.
Proof.
  intros t s. apply (next_then_previous_returns s 3); [reflexivity|].
  cbn. lia.
Defined.

End LoaderMoreFacts.

(** * Further properties of the time-series aggregation *)

Module ChartsMoreFacts.
Import Dashboard Charts Contract Notions ChartsFacts.
Local Open Scope list_scope.

(** *** What the buckets add up to *)

Lemma sumCounts_perm (l l' : list DayBucket) :
  Permutation l l' -> sumCounts l = sumCounts l'.
Proof. induction 1; simpl; lia. Qed.

Lemma sumCounts_app (a b : list DayBucket) :
  sumCounts (a ++ b) = sumCounts a + sumCounts b.
Proof. induction a as [|x a IH]; simpl; lia. Qed.

Lemma accumulate_counts (key : string) (x : Trace) (o : byDayObj) :
  has_key key o = true ->
  sumCounts (map snd (accumulate key x o)) = sumCounts (map snd o) + 1.
Proof.
  induction o as [|[k b] o IH]; simpl; [discriminate|].
  destruct (k =? key)%string; simpl.
  - intros _. lia.
  - intros H. rewrite (IH H). lia.
Qed.

Lemma addToDay_counts (parse : string -> option Z) (o : byDayObj) (x : Trace) :
  sumCounts (map snd (addToDay parse o x))
  = sumCounts (map snd o) + (if hasDay parse x then 1 else 0).
Proof.
  rewrite addToDay_by_key. unfold hasDay.
  destruct (keyOf parse x) as [key|]; [|lia].
  destruct (has_key key o) eqn:Eh; cbn [negb].
  - now apply accumulate_counts.
  - rewrite accumulate_counts.
    + rewrite map_app, sumCounts_app. simpl. lia.
    + apply has_key_In. rewrite map_app, in_app_iff. simpl. tauto.
Qed.

Lemma fold_counts (parse : string -> option Z) (items : list Trace) (o : byDayObj) :
  sumCounts (map snd (fold_left (addToDay parse) items o))
  = sumCounts (map snd o) + Z.of_nat (List.length (filter (hasDay parse) items)).
Proof.
  revert o. induction items as [|x items IH]; intros o; simpl; [lia|].
  rewrite IH, addToDay_counts.
  destruct (hasDay parse x); simpl List.length; lia.
Qed.

Lemma buckets_are_not_empty (parse : string -> option Z)
    (cmp : string -> string -> Z) (items : list Trace) :
  Forall (fun b => 1 <= count b) (groupByDay parse cmp items).
Proof.
  apply Forall_forall. intros b Hb.
  destruct (groupByDay_buckets parse cmp items) as (Hc & _ & _).
  destruct (Hc b Hb) as [E (x & Hx & Ex)]. rewrite E.
  unfold bucketOf. cbn [count].
  assert (Hin : In x (filter (inDay parse (date b)) items)).
  { apply filter_In. split; [exact Hx|]. unfold inDay. rewrite Ex.
    apply String.eqb_refl. }
  destruct (filter (inDay parse (date b)) items); [contradiction|].
  simpl List.length. lia.
Qed.

(** No record with a usable timestamp is lost or counted twice: whatever the
    parser and the collation, the counts of the buckets add up to the
    number of these records, and no bucket is empty. *)
Theorem groupByDay_conserves (parse : string -> option Z)
    (localeCompare : string -> string -> Z) (items : list Trace) :
  let dated := filter (hasDay parse) items in
  sumCounts (groupByDay parse localeCompare items) = Z.of_nat (List.length dated)
  /\ Forall (fun b => 1 <= count b) (groupByDay parse localeCompare items)
  /\ (List.length (groupByDay parse localeCompare items) <= List.length dated)%nat.
Proof.
  intros dated.
  assert (P : Permutation (groupByDay parse localeCompare items)
                (map snd (fold_left (addToDay parse) items [])))
    by apply sort_by_perm.
  pose proof (fold_counts parse items []) as H1. simpl in H1.
  pose proof (buckets_are_not_empty parse localeCompare items) as Hne.
  assert (Hsum : sumCounts (groupByDay parse localeCompare items)
                 = Z.of_nat (List.length dated))
    by now rewrite (sumCounts_perm _ _ P), H1.
  split; [exact Hsum|]. split; [exact Hne|].
  assert (G : forall l : list DayBucket,
            Forall (fun b => 1 <= count b) l ->
            Z.of_nat (List.length l) <= sumCounts l).
  { induction 1 as [|b l Hb _ IH]; simpl sumCounts; simpl List.length; lia. }
  specialize (G _ Hne). lia.
Qed.

(** *** The day buckets *)

(** For every parser and every sequence of records, and for every collation
    in which "sorts before" is a strict order: the buckets come in the
    ascending order of the collation, none followed by one whose date sorts
    before its own; no date has two buckets; each bucket holds the latency
    total, the token total and the number of exactly the records whose
    timestamp has the bucket's date as key, the totals added up in the order
    of the sequence; and every record whose timestamp has a key has its
    bucket. *)
Theorem daily_buckets_are_sorted_and_exact (parse : string -> option Z)
    (localeCompare : string -> string -> Z) (items : list Trace) :
  (forall a, ~ localeCompare a a < 0) ->
  (forall a b c, localeCompare a b < 0 -> localeCompare b c < 0 ->
                 localeCompare a c < 0) ->
  let days := groupByDay parse localeCompare items in
  ascending localeCompare days
  /\ NoDup (map date days)
  /\ (forall b, In b days -> b = bucketOf parse (date b) items)
  /\ (forall x k, In x items ->
        (keyOf parse x = Some k <-> exists b, In b days /\ date b = k
                                              /\ inDay parse k x = true)).
Proof.
  intros Hi Ht days.
  destruct (groupByDay_buckets parse localeCompare items) as (Hb & Hk & Hd).
  fold days in Hb, Hk, Hd.
  split; [now apply groupByDay_ascending|]. split; [exact Hd|].
  split; [intros b Hin; now destruct (Hb b Hin)|].
  intros x k Hx. split.
  - intros Ek. destruct (Hk x k Hx Ek) as (b & Hin & Ed). exists b.
    split; [exact Hin|]. split; [exact Ed|]. unfold inDay. rewrite Ek.
    apply String.eqb_refl.
  - intros (b & _ & _ & Hi'). unfold inDay in Hi'.
    destruct (keyOf parse x) as [k'|]; [|discriminate].
    apply String.eqb_eq in Hi'. now subst.
Qed.

Lemma daily_buckets_are_sorted_and_exact_witness :
  let rec t l :=
    {| time := Some t; model := None; latency_ms := Some l; total_tokens := None;
       input_tokens := None; output_tokens := None;
       input_content := None; output_content := None |} in
  let items := [rec "2024-03-02T08:00:00Z" 10%float; rec "2024-03-01" 640%float;
                rec "2024-03-02T09:00:00Z" 30%float] in
  let days := groupByDay Dates.isoParse codeUnitCompare items in
  ascending codeUnitCompare days
  /\ NoDup (map date days)
  /\ (forall b, In b days -> b = bucketOf Dates.isoParse (date b) items)
  /\ (forall x k, In x items ->
        (keyOf Dates.isoParse x = Some k
         <-> exists b, In b days /\ date b = k
                       /\ inDay Dates.isoParse k x = true)).
Proof.
  intros rec items.
  apply (daily_buckets_are_sorted_and_exact Dates.isoParse codeUnitCompare items);
    apply codeUnitCompare_strict.
Defined.

(** A record whose timestamp is absent, empty or not a date takes no part:
    the buckets are those of the sequence without it, wherever it stands. *)
Theorem undated_record_is_ignored (parse : string -> option Z)
    (localeCompare : string -> string -> Z)
    (before after : list Trace) (x : Trace) :
  time x = None \/ time x = Some ""
  \/ (exists t, time x = Some t /\ Dates.toISOString (newDate parse t) = None) ->
  groupByDay parse localeCompare (before ++ x :: after)
  = groupByDay parse localeCompare (before ++ after).
Proof.
  intros H. destruct (undated_records parse x H) as [Hx _].
  rewrite (groupByDay_ignores_undated parse localeCompare (before ++ x :: after)).
  rewrite (groupByDay_ignores_undated parse localeCompare (before ++ after)).
  rewrite !filter_app. cbn [filter]. now rewrite Hx.
Qed.

Lemma undated_record_is_ignored_witness :
  let rec t l :=
    {| time := t; model := None; latency_ms := Some l; total_tokens := None;
       input_tokens := None; output_tokens := None;
       input_content := None; output_content := None |} in
  groupByDay Dates.isoParse codeUnitCompare
    ([rec (Some "2024-03-02T08:00:00Z") 10%float]
       ++ rec (Some "yesterday") 80%float
       :: [rec (Some "2024-03-01") 640%float])
  = groupByDay Dates.isoParse codeUnitCompare
      ([rec (Some "2024-03-02T08:00:00Z") 10%float]
         ++ [rec (Some "2024-03-01") 640%float]).
Proof.
  intros rec.
  apply (undated_record_is_ignored Dates.isoParse codeUnitCompare
           [rec (Some "2024-03-02T08:00:00Z") 10%float]
           [rec (Some "2024-03-01") 640%float]
           (rec (Some "yesterday") 80%float)).
  right. right. exists "yesterday". split; reflexivity.
Defined.

(** For timestamps of the years 0 to 9999 the key of a record is its UTC
    calendar day, written year-month-day, and two records have the same key
    exactly when their timestamps fall on the same UTC day, whatever the
    time of day. *)
Theorem four_digit_years_are_grouped_by_day (parse : string -> option Z)
    (x y : Trace) (sx sy : string) (tx ty : Z) :
  time x = Some sx -> sx <> "" -> parse sx = Some tx ->
  Z.abs tx <= Dates.maxTime -> 0 <= Dates.YearFromTime tx <= 9999 ->
  time y = Some sy -> sy <> "" -> parse sy = Some ty ->
  Z.abs ty <= Dates.maxTime -> 0 <= Dates.YearFromTime ty <= 9999 ->
  keyOf parse x = Some (calendarDay tx)
  /\ String.length (calendarDay tx) = 10%nat
  /\ (keyOf parse x = keyOf parse y <-> tx / 86400000 = ty / 86400000).
Proof.
  intros Hx Nx Px Bx Yx Hy Ny Py By' Yy.
  destruct (same_key_iff_same_day parse x y sx sy tx ty Hx Nx Px Bx Yx Hy Ny Py
              By' Yy) as [H1 H2].
  split; [exact H1|]. split; [|exact H2].
  unfold calendarDay.
  rewrite !DatesFacts.length_append, !DatesFacts.pad_length. reflexivity.
Qed.

Lemma four_digit_years_are_grouped_by_day_witness :
  let rec t :=
    {| time := Some t; model := None; latency_ms := None; total_tokens := None;
       input_tokens := None; output_tokens := None;
       input_content := None; output_content := None |} in
  let x := rec "2024-02-29T00:00:00Z" in
  let y := rec "2024-02-29T23:59:59.999Z" in
  keyOf Dates.isoParse x = Some (calendarDay 1709164800000)
  /\ String.length (calendarDay 1709164800000) = 10%nat
  /\ (keyOf Dates.isoParse x = keyOf Dates.isoParse y
      <-> 1709164800000 / 86400000 = 1709251199999 / 86400000).
Proof.
  intros rec x y.
  apply (four_digit_years_are_grouped_by_day Dates.isoParse x y
           "2024-02-29T00:00:00Z" "2024-02-29T23:59:59.999Z"
           1709164800000 1709251199999);
    try reflexivity; try discriminate; vm_compute; intuition discriminate.
Defined.

(** *** The series of the time-series chart *)

(** For each of the three metrics the series has one value for each label.
    On the buckets of [groupByDay] no count is 0, so the guard of the
    average never applies: the average latency of a day is the quotient of
    its latency total and the number of its records, the call count is the
    number of the records of the day, and the token value is the token
    total. *)
Theorem daily_series_is_aligned (parse : string -> option Z)
    (localeCompare : string -> string -> Z)
    (items : list Trace) (metric : string) :
  metric = "avgLatency" \/ metric = "totalCalls" \/ metric = "totalTokens" ->
  let days := groupByDay parse localeCompare items in
  let s := buildSeriesByMetric days metric in
  labels s = map date days
  /\ List.length (data s) = List.length (labels s)
  /\ Forall (fun b => count b <> 0) days
  /\ data (buildSeriesByMetric days "avgLatency")
     = map (fun b => (totalLatency b / JS.of_Z (count b))%float) days
  /\ data (buildSeriesByMetric days "totalCalls")
     = map (fun b =>
              JS.of_Z (Z.of_nat
                         (List.length (filter (inDay parse (date b)) items))))
         days
  /\ data (buildSeriesByMetric days "totalTokens") = map totalTokens days.
Proof.
  intros Hm days s.
  pose proof (buckets_are_not_empty parse localeCompare items) as Hc.
  destruct (groupByDay_buckets parse localeCompare items) as (Hb & _ & _).
  fold days in Hc, Hb.
  split; [|split; [|split; [|split; [|split]]]].
  - unfold s, buildSeriesByMetric.
    destruct (metric =? "avgLatency")%string; [reflexivity|].
    destruct (metric =? "totalCalls")%string; [reflexivity|].
    destruct (metric =? "totalTokens")%string; reflexivity.
  - unfold s. destruct Hm as [-> | [-> | ->]]; cbn [buildSeriesByMetric String.eqb
      Ascii.eqb Bool.eqb data labels]; now rewrite !length_map.
  - eapply Forall_impl; [|exact Hc]. cbv beta. intros b Hb1. lia.
  - cbn [buildSeriesByMetric String.eqb Ascii.eqb Bool.eqb data].
    apply map_ext_in. intros b Hin. rewrite Forall_forall in Hc.
    specialize (Hc b Hin).
    replace (count b =? 0) with false by (symmetry; apply Z.eqb_neq; lia).
    reflexivity.
  - cbn [buildSeriesByMetric String.eqb Ascii.eqb Bool.eqb data].
    apply map_ext_in. intros b Hin. destruct (Hb b Hin) as [E _].
    rewrite E at 1. reflexivity.
  - reflexivity.
Qed.

Lemma daily_series_is_aligned_witness :
  let rec t l :=
    {| time := Some t; model := None; latency_ms := Some l; total_tokens := None;
       input_tokens := None; output_tokens := None;
       input_content := None; output_content := None |} in
  let items := [rec "2024-03-02T08:00:00Z" 10%float; rec "2024-03-01" 640%float;
                rec "2024-03-02T09:00:00Z" 30%float] in
  let days := groupByDay Dates.isoParse codeUnitCompare items in
  let s := buildSeriesByMetric days "totalCalls" in
  labels s = map date days
  /\ List.length (data s) = List.length (labels s)
  /\ Forall (fun b => count b <> 0) days
  /\ data (buildSeriesByMetric days "avgLatency")
     = map (fun b => (totalLatency b / JS.of_Z (count b))%float) days
  /\ data (buildSeriesByMetric days "totalCalls")
     = map (fun b =>
              JS.of_Z (Z.of_nat
                         (List.length
                            (filter (inDay Dates.isoParse (date b)) items))))
         days
  /\ data (buildSeriesByMetric days "totalTokens") = map totalTokens days.
Proof.
  intros rec items.
  apply (daily_series_is_aligned Dates.isoParse codeUnitCompare items "totalCalls").
  right. left. reflexivity.
Defined.

(** On a bucket without records the guard would apply, and does not divide:
    the value is 0, where the quotient is [NaN]. *)
Lemma average_of_no_records :
  let b := {| date := "2024-03-01"; totalLatency := 0; totalTokens := 0;
              count := 0 |} in
  data (buildSeriesByMetric [b] "avgLatency") = [0%float]
  /\ (totalLatency b / JS.of_Z (count b))%float = nan.
Proof. split; reflexivity. Qed.

End ChartsMoreFacts.

(** * Properties of the per-model aggregation *)

Module ModelChartFacts.
Import Dashboard ModelChart Contract Notions.
Local Open Scope list_scope.

(** *** The composite key *)

Lemma replacePipes_has_no_pipe (s : string) : occurs "|" (replacePipes s) = false.
Proof.
  induction s as [|c s IH]; [reflexivity|]. cbn [replacePipes occurs].
  rewrite IH. destruct (Ascii.eqb_spec c "|") as [-> | N]; [reflexivity|].
  rewrite orb_false_r. apply Ascii.eqb_neq. congruence.
Qed.

Lemma occurs_after (c : ascii) (a b : string) :
  occurs c (a ++ String c b) = true.
Proof.
  induction a as [|x a IH]; cbn [append occurs].
  - now rewrite Ascii.eqb_refl.
  - rewrite IH. apply orb_true_r.
Qed.

Lemma compositeKey_inj (d1 d2 m1 m2 : string) :
  occurs "|" m1 = false -> occurs "|" m2 = false ->
  compositeKey d1 m1 = compositeKey d2 m2 -> d1 = d2 /\ m1 = m2.
Proof.
  unfold compositeKey. intros H1 H2. revert d2.
  induction d1 as [|c d1 IH]; intros [|c' d2] H; cbn [append] in H.
  - inversion H. now split.
  - inversion H as [[Hc Hm]]. subst.
    pose proof (occurs_after "|" d2 m2) as C.
    change (d2 ++ "|" ++ m2)%string with (d2 ++ String "|" m2)%string in H1.
    congruence.
  - inversion H as [[Hc Hm]]. subst.
    pose proof (occurs_after "|" d1 m1) as C.
    change (d1 ++ "|" ++ m1)%string with (d1 ++ String "|" m1)%string in H2.
    congruence.
  - inversion H as [[Hc Hm]]. subst. destruct (IH d2 Hm) as [-> ->]. now split.
Qed.

Lemma modelName_has_no_pipe (x : Trace) : occurs "|" (modelName x) = false.
Proof. apply replacePipes_has_no_pipe. Qed.

(** The separator of the composite key cannot be mistaken: the model name
    in a key holds no separator, so two keys are equal only for the same
    date and the same model name, whatever the dates look like. *)
Theorem composite_key_is_unambiguous (d1 d2 : string) (x1 x2 : Trace) :
  occurs "|" (modelName x1) = false
  /\ ((d1 ++ "|" ++ modelName x1 = d2 ++ "|" ++ modelName x2)%string ->
      d1 = d2 /\ modelName x1 = modelName x2).
Proof.
  split; [apply modelName_has_no_pipe|].
  apply compositeKey_inj; apply modelName_has_no_pipe.
Qed.

(** Sanitising can merge models: a name with the separator and the name
    with a hyphen in its place become one model. *)
Lemma sanitising_merges_models (a b : string) :
  replacePipes (a ++ String "|" b) = replacePipes (a ++ String "-" b).
Proof.
  induction a as [|c a IH]; cbn [append replacePipes]; [reflexivity|].
  now rewrite IH.
Qed.

(** *** The object [dataMap] *)

Lemma getDate_app (d k : string) (o : modelObj) (m : dataMapObj) :
  getDate d (m ++ [(k, o)])
  = match getDate d m with
    | Some o' => Some o'
    | None => if (k =? d)%string then Some o else None
    end.
Proof.
  induction m as [|[k' o'] m IH]; simpl; [reflexivity|].
  destruct (k' =? d)%string; [reflexivity | exact IH].
Qed.

Lemma getDate_update (d k : string) (f : modelObj -> modelObj) (m : dataMapObj) :
  getDate d (update k f m)
  = if (k =? d)%string then option_map f (getDate d m) else getDate d m.
Proof.
  induction m as [|[k' o'] m IH]; simpl.
  - now destruct (k =? d)%string.
  - destruct (String.eqb_spec k' k) as [-> | N]; simpl.
    + destruct (k =? d)%string; reflexivity.
    + rewrite IH. destruct (String.eqb_spec k d) as [-> | N'].
      * apply String.eqb_neq in N. now rewrite N.
      * reflexivity.
Qed.

Lemma own_assign (n k : string) (v : float) (o : modelObj) :
  own n (assign k v o) = if (k =? n)%string then Some v else own n o.
Proof.
  induction o as [|[k' w] o IH]; simpl.
  - reflexivity.
  - destruct (String.eqb_spec k' k) as [-> | N]; simpl.
    + destruct (k =? n)%string; reflexivity.
    + rewrite IH. destruct (String.eqb_spec k n) as [-> | N'].
      * apply String.eqb_neq in N. now rewrite N.
      * reflexivity.
Qed.

Lemma own_setProp (n k : string) (v : float) (o : modelObj) :
  own n (setProp k v o)
  = if (k =? n)%string && negb (k =? "__proto__")%string then Some v
    else own n o.
Proof.
  unfold setProp. destruct (k =? "__proto__")%string; cbn [negb].
  - now rewrite andb_false_r.
  - rewrite andb_true_r. apply own_assign.
Qed.

Lemma metricValue_uniform (metric : string) (a b : DayModelBucket) :
  metricValue metric a = None -> metricValue metric b = None.
Proof.
  unfold metricValue.
  destruct (metric =? "calls")%string; [discriminate|].
  destruct (metric =? "tokens")%string; [discriminate|].
  destruct (metric =? "avgLatency")%string; [discriminate | reflexivity].
Qed.

Lemma lastFor_snoc (d n : string) (l : list DayModelBucket) (x : DayModelBucket) :
  lastFor d n (l ++ [x])
  = if (date x =? d)%string && (model x =? n)%string then Some x
    else lastFor d n l.
Proof. unfold lastFor. rewrite rev_app_distr. reflexivity. Qed.

(** While [dataMap] is filled, it has an object for exactly the days of the
    buckets read so far, and the object of a day holds under a model name
    the number of the last bucket of that day and model. *)
Lemma dataMap_contents (metric : string) (l : list DayModelBucket) (d n : string) :
  match getDate d (fold_left (fill metric) l []) with
  | Some o => existsb (fun b => (date b =? d)%string) l = true
              /\ own n o = stored metric l d n
  | None => existsb (fun b => (date b =? d)%string) l = false
  end.
Proof.
  induction l as [|x l IH] using rev_ind; [reflexivity|].
  rewrite fold_left_app. cbn [fold_left]. rewrite existsb_app. cbn [existsb].
  rewrite orb_false_r.
  set (m := fold_left (fill metric) l []) in *.
  unfold stored. rewrite lastFor_snoc. fold (stored metric l d n).
  assert (Hm1 : forall m1,
            m1 = match getDate (date x) m with
                 | None => m ++ [(date x, [])]
                 | Some _ => m
                 end ->
            match getDate d m1 with
            | Some o => existsb (fun b => (date b =? d)%string) l
                        || (date x =? d)%string = true
                        /\ own n o = stored metric l d n
            | None => existsb (fun b => (date b =? d)%string) l
                      || (date x =? d)%string = false
            end).
  { intros m1 ->. destruct (String.eqb_spec (date x) d) as [E | N].
    - rewrite E in *. destruct (getDate d m) as [o|] eqn:Eg.
      + rewrite Eg. destruct IH as [H1 H2]. now rewrite H1.
      + rewrite getDate_app, Eg, String.eqb_refl. rewrite orb_true_r.
        split; [reflexivity|]. unfold stored, lastFor.
        destruct (find _ (rev l)) as [b|] eqn:Ef; [|reflexivity].
        apply find_some in Ef. destruct Ef as [Hin Hb].
        apply andb_true_iff in Hb. destruct Hb as [Hb _].
        assert (existsb (fun b => (date b =? d)%string) l = true).
        { apply existsb_exists. exists b. split; [now apply in_rev|exact Hb]. }
        congruence.
    - rewrite orb_false_r.
      destruct (getDate (date x) m) as [o'|]; [exact IH|].
      rewrite getDate_app. apply String.eqb_neq in N.
      destruct (getDate d m); [exact IH | now rewrite N]. }
  unfold fill.
  set (m1 := match getDate (date x) m with
             | None => m ++ [(date x, [])]
             | Some _ => m
             end).
  specialize (Hm1 m1 eq_refl).
  destruct (metricValue metric x) as [v|] eqn:Ev.
  - rewrite getDate_update.
    destruct (String.eqb_spec (date x) d) as [E | N]; cbn [andb].
    + destruct (getDate d m1) as [o|]; cbn [option_map].
      * destruct Hm1 as [H1 H2]. split; [exact H1|].
        rewrite own_setProp, H2.
        destruct (String.eqb_spec (model x) n) as [En | Nn]; cbn [andb];
          [|reflexivity].
        rewrite Ev, <- En.
        destruct (model x =? "__proto__")%string eqn:Ep; cbn [negb];
          [|reflexivity].
        unfold stored. destruct (lastFor d (model x) l) as [b|]; [|reflexivity].
        rewrite Ep. destruct (metricValue metric b); reflexivity.
      * rewrite orb_true_r in Hm1. discriminate.
    + exact Hm1.
  - destruct (getDate d m1) as [o|].
    + destruct Hm1 as [H1 H2]. split; [exact H1|]. rewrite H2.
      destruct ((date x =? d)%string && (model x =? n)%string); [|reflexivity].
      rewrite Ev.
      unfold stored. destruct (lastFor d n l) as [b|]; [|reflexivity].
      now rewrite (metricValue_uniform metric x b Ev).
    + exact Hm1.
Qed.

Lemma readPoint_expected (metric : string) (l : list DayModelBucket) (d n : string) :
  readPoint (fold_left (fill metric) l []) d n = expectedPoint metric l d n.
Proof.
  unfold readPoint, expectedPoint.
  pose proof (dataMap_contents metric l d n) as H.
  destruct (getDate d (fold_left (fill metric) l [])) as [o|].
  - destruct H as [H1 H2]. rewrite H1, H2. cbn [negb]. unfold stored.
    destruct (lastFor d n l) as [b|]; [|reflexivity].
    destruct (metricValue metric b); [|reflexivity].
    destruct (n =? "__proto__")%string; reflexivity.
  - now rewrite H.
Qed.

(** *** First occurrences and the default sort *)

Lemma existsb_eqb_In (x : string) (l : list string) :
  existsb (String.eqb x) l = true <-> In x l.
Proof.
  rewrite existsb_exists. split.
  - intros [y [Hy E]]. apply String.eqb_eq in E. now subst.
  - intros H. exists x. split; [exact H | apply String.eqb_refl].
Qed.

Lemma uniqueFrom_spec (seen l : list string) :
  NoDup (uniqueFrom seen l)
  /\ forall x, In x (uniqueFrom seen l) <-> In x l /\ ~ In x seen.
Proof.
  revert seen. induction l as [|y l IH]; intros seen; cbn [uniqueFrom].
  - split; [constructor|]. intros x. simpl. tauto.
  - destruct (existsb (String.eqb y) seen) eqn:E.
    + apply existsb_eqb_In in E. destruct (IH seen) as [H1 H2].
      split; [exact H1|]. intros x. rewrite H2. simpl. split; [tauto|].
      intros [[<- | H] Hn]; tauto.
    + assert (Hy : ~ In y seen)
        by (intros C; apply existsb_eqb_In in C; congruence).
      destruct (IH (y :: seen)) as [H1 H2]. split.
      * constructor; [|exact H1]. rewrite H2. simpl. tauto.
      * intros x. simpl. rewrite H2. simpl.
        destruct (string_dec y x) as [-> | N]; tauto.
Qed.

Lemma unique_spec (l : list string) :
  NoDup (unique l) /\ forall x, In x (unique l) <-> In x l.
Proof.
  destruct (uniqueFrom_spec [] l) as [H1 H2]. split; [exact H1|].
  intros x. unfold unique. rewrite H2. simpl. tauto.
Qed.

Lemma defaultCompare_negative (a b : string) :
  (defaultCompare a b <? 0) = true <-> str_lt a b.
Proof.
  unfold defaultCompare, str_lt.
  destruct (String.compare a b); cbv; split; congruence.
Qed.

Lemma insert_str_In (x z : string) (l : list string) :
  In z (Charts.insert_by defaultCompare x l) <-> z = x \/ In z l.
Proof.
  induction l as [|y l IH]; simpl.
  - intuition.
  - destruct (defaultCompare x y <? 0); simpl; rewrite ?IH; intuition.
Qed.

Lemma insert_str_perm (x : string) (l : list string) :
  Permutation (Charts.insert_by defaultCompare x l) (x :: l).
Proof.
  induction l as [|y l IH]; simpl.
  - apply Permutation_refl.
  - destruct (defaultCompare x y <? 0).
    + apply Permutation_refl.
    + eapply perm_trans; [apply perm_skip, IH | apply perm_swap].
Qed.

Lemma insert_str_sorted (x : string) (l : list string) :
  StronglySorted str_lt l -> ~ In x l ->
  StronglySorted str_lt (Charts.insert_by defaultCompare x l).
Proof.
  induction l as [|y l IH]; intros Hs Hn; simpl.
  - repeat constructor.
  - inversion Hs as [|? ? Hs' Hy]; subst.
    destruct (defaultCompare x y <? 0) eqn:E.
    + apply defaultCompare_negative in E.
      constructor; [exact Hs|]. constructor; [exact E|].
      eapply Forall_impl; [|exact Hy]. intros z Hz.
      now apply (ChartsFacts.string_compare_trans x y z).
    + assert (Hyx : str_lt y x).
      { apply ChartsFacts.string_compare_not_lt.
        - intros C. apply defaultCompare_negative in C. congruence.
        - intros C. apply Hn. now left. }
      constructor.
      * apply IH; [exact Hs'|]. intros C. apply Hn. now right.
      * apply Forall_forall. intros z Hz. apply insert_str_In in Hz.
        destruct Hz as [-> | Hz]; [exact Hyx|].
        rewrite Forall_forall in Hy. now apply Hy.
Qed.

Lemma sort_str_acc (l acc : list string) :
  StronglySorted str_lt acc -> NoDup (acc ++ l) ->
  StronglySorted str_lt
    (fold_left (fun acc x => Charts.insert_by defaultCompare x acc) l acc)
  /\ Permutation
       (fold_left (fun acc x => Charts.insert_by defaultCompare x acc) l acc)
       (acc ++ l).
Proof.
  revert acc. induction l as [|x l IH]; intros acc Hs Hd; simpl.
  - rewrite List.app_nil_r. split; [exact Hs | apply Permutation_refl].
  - assert (Hx : ~ In x acc).
    { intros C. apply NoDup_remove_2 in Hd. apply Hd, in_or_app. now left. }
    assert (P : Permutation (Charts.insert_by defaultCompare x acc ++ l)
                  (acc ++ x :: l)).
    { eapply perm_trans; [apply Permutation_app_tail, insert_str_perm|].
      simpl. apply Permutation_middle. }
    destruct (IH (Charts.insert_by defaultCompare x acc)) as [H1 H2].
    + now apply insert_str_sorted.
    + eapply Permutation_NoDup; [apply Permutation_sym, P | exact Hd].
    + split; [exact H1|]. eapply perm_trans; [exact H2 | exact P].
Qed.

Lemma sort_str (l : list string) :
  NoDup l ->
  StronglySorted str_lt (Charts.sort_by defaultCompare l)
  /\ Permutation (Charts.sort_by defaultCompare l) l.
Proof.
  intros H. unfold Charts.sort_by. apply (sort_str_acc l []); [constructor | exact H].
Qed.

Lemma mapi_labels {A : Type} (f : string -> nat -> A) (g : A -> string)
    (idx : nat) (l : list string) :
  (forall x i, g (f x i) = x) -> map g (mapi f idx l) = l.
Proof.
  intros H. revert idx. induction l as [|x l IH]; intros idx; simpl;
    [reflexivity|]. now rewrite H, IH.
Qed.

Lemma mapi_Forall {A B : Type} (f : A -> nat -> B) (P : B -> Prop)
    (idx : nat) (l : list A) :
  (forall x i, P (f x i)) -> Forall P (mapi f idx l).
Proof.
  intros H. revert idx. induction l as [|x l IH]; intros idx; simpl;
    constructor; auto.
Qed.

(** *** The series of the per-model chart *)

Lemma series_data_expected (parse : string -> option Z)
    (items : list Trace) (metric : string) :
  let grouped := groupByDayAndModel parse items in
  let s := buildModelChartSeries parse items metric in
  Forall (fun ds =>
            data ds
            = map (fun d => expectedPoint metric grouped d (label ds)) (labels s))
         (datasets s).
Proof.
  intros grouped s. unfold s, buildModelChartSeries. cbn [datasets labels].
  apply mapi_Forall. intros x i. cbn [data label].
  apply map_ext. intros d. apply readPoint_expected.
Qed.

Lemma model_series_labels (parse : string -> option Z)
    (items : list Trace) (metric : string) :
  let grouped := groupByDayAndModel parse items in
  let s := buildModelChartSeries parse items metric in
  (forall d, In d (labels s) <-> In d (map date grouped))
  /\ (forall n, In n (map label (datasets s))
                <-> In n (map ModelChart.model grouped)).
Proof.
  intros grouped s.
  destruct (unique_spec (map date grouped)) as [Hd1 Hd2].
  destruct (unique_spec (map ModelChart.model grouped)) as [Hm1 Hm2].
  destruct (sort_str _ Hd1) as [Hs Hp].
  split.
  - intros d. rewrite <- Hd2. split; intros H.
    + now apply (Permutation_in _ Hp).
    + now apply (Permutation_in _ (Permutation_sym Hp)).
  - intros n. rewrite <- Hm2. unfold s, buildModelChartSeries. cbn [datasets].
    now rewrite mapi_labels.
Qed.

(** The chart is well formed. The labels are the days of the buckets, each
    once, in ascending order; there is one dataset for each model of the
    buckets, in the order of first appearance; every dataset has one data
    point for each label; and each data point is what the buckets give for
    the day and the model: where a model has no bucket on a day that is 0,
    not a gap, unless the model bears a name that every object inherits. *)
Theorem model_series_is_well_formed (parse : string -> option Z)
    (items : list Trace) (metric : string) :
  let grouped := groupByDayAndModel parse items in
  let s := buildModelChartSeries parse items metric in
  StronglySorted str_lt (labels s)
  /\ (forall d, In d (labels s) <-> In d (map date grouped))
  /\ map label (datasets s) = unique (map ModelChart.model grouped)
  /\ NoDup (map label (datasets s))
  /\ Forall (fun ds =>
               List.length (data ds) = List.length (labels s)
               /\ data ds
                  = map (fun d => expectedPoint metric grouped d (label ds))
                      (labels s))
            (datasets s).
Proof.
  intros grouped s.
  destruct (unique_spec (map date grouped)) as [Hd1 Hd2].
  destruct (unique_spec (map ModelChart.model grouped)) as [Hm1 Hm2].
  destruct (sort_str _ Hd1) as [Hs Hp].
  assert (El : map label (datasets s) = unique (map ModelChart.model grouped)).
  { unfold s, buildModelChartSeries. cbn [datasets]. now apply mapi_labels. }
  split; [exact Hs|]. split.
  - intros d. rewrite <- Hd2. split; intros H.
    + now apply (Permutation_in _ Hp).
    + now apply (Permutation_in _ (Permutation_sym Hp)).
  - split; [exact El|]. split; [now rewrite El|].
    unfold s, buildModelChartSeries. cbn [datasets labels].
    apply mapi_Forall. intros x i. cbn [data label].
    split; [apply length_map|].
    apply map_ext. intros d. apply readPoint_expected.
Qed.

(** Dataset [i] and dataset [i + 8] have the same colours: the palette is
    used in turn, and the border is the background made opaque. *)
Lemma colours_cycle (idx : nat) :
  let color i := nth (i mod List.length CHART_COLORS) CHART_COLORS "" in
  color (idx + 8)%nat = color idx
  /\ In (color idx) CHART_COLORS
  /\ exists rgb, color idx = ("rgba(" ++ rgb ++ ", 0.8)")%string
                 /\ replaceFirst "0.8" "1" (color idx)
                    = ("rgba(" ++ rgb ++ ", 1)")%string.
Proof.
  intros color. unfold color. change (List.length CHART_COLORS) with 8%nat.
  replace ((idx + 8) mod 8)%nat with (idx mod 8)%nat
    by (rewrite <- (Nat.Div0.mod_add idx 1 8); f_equal; lia).
  pose proof (Nat.mod_upper_bound idx 8 ltac:(lia)) as B.
  split; [reflexivity|].
  destruct (idx mod 8)%nat as [|[|[|[|[|[|[|[|k]]]]]]]]; try lia;
    (split; [simpl; tauto|]);
    [ exists "59, 130, 246" | exists "34, 197, 94" | exists "245, 158, 11"
    | exists "239, 68, 68" | exists "168, 85, 247" | exists "14, 165, 233"
    | exists "236, 72, 153" | exists "163, 230, 53" ]; split; reflexivity.
Qed.

Lemma mapi_nth_error {A B : Type} (f : A -> nat -> B) (idx i : nat) (l : list A) :
  nth_error (mapi f idx l) i
  = option_map (fun x => f x (idx + i)%nat) (nth_error l i).
Proof.
  revert idx i. induction l as [|x l IH]; intros idx [|i]; simpl;
    try reflexivity.
  - now rewrite Nat.add_0_r.
  - rewrite IH. now replace (S idx + i)%nat with (idx + S i)%nat by lia.
Qed.

Lemma dataset_colours (parse : string -> option Z) (items : list Trace)
    (metric : string) (i : nat) (ds : Dataset) :
  nth_error (datasets (buildModelChartSeries parse items metric)) i = Some ds ->
  backgroundColor ds = nth (i mod List.length CHART_COLORS) CHART_COLORS ""
  /\ borderColor ds = replaceFirst "0.8" "1" (backgroundColor ds)
  /\ borderWidth ds = 1.
Proof.
  unfold buildModelChartSeries. cbn [datasets]. rewrite mapi_nth_error.
  destruct (nth_error (unique _) i) as [m|]; [|discriminate].
  intros [= <-]. repeat split.
Qed.

(** The colours of the per-model chart. The dataset at position [i] takes
    the palette entry [i mod 8]; its border is that colour with the alpha 0.8
    turned into 1, and nothing else of it changed; and the ninth model has
    the colours of the first again, so that with more than eight models two
    datasets cannot be told apart by colour. *)
Theorem model_colours_repeat (parse : string -> option Z) (items : list Trace)
    (metric : string) (i : nat) (ds : Dataset) :
  nth_error (datasets (buildModelChartSeries parse items metric)) i = Some ds ->
  In (backgroundColor ds) CHART_COLORS
  /\ nth_error CHART_COLORS (i mod 8) = Some (backgroundColor ds)
  /\ (exists rgb, backgroundColor ds = ("rgba(" ++ rgb ++ ", 0.8)")%string
                  /\ borderColor ds = ("rgba(" ++ rgb ++ ", 1)")%string)
  /\ borderWidth ds = 1
  /\ forall ds',
       nth_error (datasets (buildModelChartSeries parse items metric)) (i + 8)
       = Some ds' ->
       backgroundColor ds' = backgroundColor ds
       /\ borderColor ds' = borderColor ds.
Proof.
  intros H. destruct (dataset_colours _ _ _ _ _ H) as (Eb & Er & Ew).
  destruct (colours_cycle i) as (Hc & Hin & rgb & E1 & E2).
  cbv zeta in Hc, Hin, E1, E2. rewrite <- Eb in Hc, Hin, E1, E2.
  rewrite <- Er in E2.
  split; [exact Hin|]. split.
  { rewrite Eb.
    exact (nth_error_nth' CHART_COLORS ""
             (Nat.mod_upper_bound i 8 ltac:(lia))). }
  split; [exists rgb; split; assumption|]. split; [exact Ew|].
  intros ds' H'.
  destruct (dataset_colours _ _ _ _ _ H') as (Eb' & Er' & _).
  rewrite Er', Er, Eb', Hc. split; reflexivity.
Qed.

Lemma model_colours_repeat_witness :
  let rec t m :=
    {| time := Some t; Dashboard.model := Some m; latency_ms := None;
       total_tokens := None; input_tokens := None; output_tokens := None;
       input_content := None; output_content := None |} in
  let items := [rec "2024-03-02T08:00:00Z" "gpt-4o"; rec "2024-03-01" "llama"] in
  let s := buildModelChartSeries Dates.isoParse items "calls" in
  let ds := {| label := "llama"; data := [Value 1; Value 0];
               backgroundColor := "rgba(34, 197, 94, 0.8)";
               borderColor := "rgba(34, 197, 94, 1)"; borderWidth := 1 |} in
  nth_error (datasets s) 1 = Some ds
  /\ In (backgroundColor ds) CHART_COLORS
  /\ nth_error CHART_COLORS (1 mod 8) = Some (backgroundColor ds)
  /\ (exists rgb, backgroundColor ds = ("rgba(" ++ rgb ++ ", 0.8)")%string
                  /\ borderColor ds = ("rgba(" ++ rgb ++ ", 1)")%string)
  /\ borderWidth ds = 1
  /\ forall ds',
       nth_error (datasets s) (1 + 8) = Some ds' ->
       backgroundColor ds' = backgroundColor ds
       /\ borderColor ds' = borderColor ds.
Proof.
  intros rec items s ds.
  assert (H : nth_error (datasets s) 1 = Some ds) by (vm_compute; reflexivity).
  split; [exact H|].
  apply (model_colours_repeat Dates.isoParse items "calls" 1 ds). exact H.
Defined.

(** *** The object [byDayModel] *)

Lemma has_key_model_In (key : string) (o : byDayModelObj) :
  has_key key o = true <-> In key (map fst o).
Proof.
  induction o as [|[k b] o IH]; simpl.
  - split; [discriminate | tauto].
  - rewrite orb_true_iff, IH, String.eqb_eq. tauto.
Qed.

Lemma accumulate_model_keys (key : string) (x : Trace) (o : byDayModelObj) :
  map fst (accumulate key x o) = map fst o.
Proof.
  induction o as [|[k b] o IH]; simpl; [reflexivity|].
  destruct (k =? key)%string; simpl; [reflexivity|]. now rewrite IH.
Qed.

Lemma accumulate_model_In (key : string) (x : Trace) (o : byDayModelObj) k b :
  NoDup (map fst o) ->
  In (k, b) (accumulate key x o) ->
  (k <> key /\ In (k, b) o)
  \/ (k = key /\ exists b0, In (key, b0) o /\ b = bumpModel b0 x).
Proof.
  induction o as [|[k' b'] o IH]; simpl; intros Hd Hin; [contradiction|].
  inversion Hd as [|? ? Hnot Hd']; subst.
  destruct (String.eqb_spec k' key) as [-> | Hne].
  - destruct Hin as [E | Hin].
    + inversion E; subst. right. split; [reflexivity|].
      exists b'. split; [now left | reflexivity].
    + left. split; [|now right].
      intros ->. apply Hnot.
      change key with (fst (key, b)). now apply in_map.
  - destruct Hin as [E | Hin].
    + inversion E; subst. left. split; [exact Hne | now left].
    + destruct (IH Hd' Hin) as [[H1 H2] | [H1 [b0 [H2 H3]]]].
      * left. split; [exact H1 | now right].
      * right. split; [exact H1|]. exists b0. split; [now right | exact H3].
Qed.

Lemma addToDayModel_by_key (parse : string -> option Z) (o : byDayModelObj)
    (x : Trace) :
  addToDayModel parse o x =
  match keyOf parse x with
  | None => o
  | Some d =>
      accumulate (compositeKey d (modelName x)) x
        (if negb (has_key (compositeKey d (modelName x)) o)
         then o ++ [(compositeKey d (modelName x),
                     emptyModelBucket d (modelName x))]
         else o)
  end.
Proof.
  unfold addToDayModel, keyOf. destruct (time x) as [t|]; [|reflexivity].
  destruct (t =? "")%string; [reflexivity|].
  destruct (Charts.dayKey parse t); reflexivity.
Qed.

Lemma bucketOfModel_snoc_other (parse : string -> option Z) d n xs x :
  inPair parse d n x = false ->
  bucketOfModel parse d n (xs ++ [x]) = bucketOfModel parse d n xs.
Proof.
  intros H. unfold bucketOfModel. rewrite filter_app. simpl. rewrite H.
  now rewrite List.app_nil_r.
Qed.

Lemma bucketOfModel_snoc_same (parse : string -> option Z) d n xs x :
  inPair parse d n x = true ->
  bucketOfModel parse d n (xs ++ [x]) = bumpModel (bucketOfModel parse d n xs) x.
Proof.
  intros H. unfold bucketOfModel, bumpModel. rewrite filter_app. simpl.
  rewrite H. cbn [date ModelChart.model count totalTokens totalLatency].
  rewrite !fold_left_app, length_app. simpl.
  f_equal. lia.
Qed.

Lemma bucketOfModel_unseen (parse : string -> option Z) d n xs :
  (forall x, In x xs -> keyOf parse x = Some d -> modelName x <> n) ->
  bucketOfModel parse d n xs = emptyModelBucket d n.
Proof.
  intros H. unfold bucketOfModel.
  replace (filter (inPair parse d n) xs) with (@nil Trace); [reflexivity|].
  symmetry. induction xs as [|x xs IH]; simpl; [reflexivity|].
  assert (E : inPair parse d n x = false).
  { unfold inPair. destruct (keyOf parse x) as [k|] eqn:Ek; [|reflexivity].
    destruct (String.eqb_spec k d) as [-> | _]; [|reflexivity].
    cbn [andb]. apply String.eqb_neq. apply (H x); [now left | exact Ek]. }
  rewrite E. apply IH. intros y Hy. apply H. now right.
Qed.

Lemma tracksModel_step (parse : string -> option Z) xs o x :
  tracksModel parse xs o -> tracksModel parse (xs ++ [x]) (addToDayModel parse o x).
Proof.
  intros (Hd & Hb & Hk). rewrite addToDayModel_by_key.
  destruct (keyOf parse x) as [d|] eqn:Ex.
  - set (n := modelName x). set (key := compositeKey d n).
    set (o1 := if negb (has_key key o)
               then o ++ [(key, emptyModelBucket d n)] else o).
    assert (Hd1 : NoDup (map fst o1)).
    { unfold o1. destruct (has_key key o) eqn:Eh; simpl; [exact Hd|].
      rewrite map_app. simpl.
      apply Permutation_NoDup with (l := key :: map fst o).
      - apply Permutation_cons_append.
      - constructor; [|exact Hd]. intros C. apply has_key_model_In in C.
        congruence. }
    assert (Hin1 : forall k b, In (k, b) o1 ->
              In (k, b) o
              \/ (has_key key o = false /\ k = key /\ b = emptyModelBucket d n)).
    { unfold o1. intros k b. destruct (has_key key o); simpl; [tauto|].
      rewrite in_app_iff. simpl. intros [H | [H | []]]; [tauto|].
      inversion H; subst. tauto. }
    assert (Hkey1 : In key (map fst o1)).
    { unfold o1. destruct (has_key key o) eqn:Eh; simpl.
      - now apply has_key_model_In.
      - rewrite map_app, in_app_iff. simpl. tauto. }
    assert (Hsub : forall k, In k (map fst o) -> In k (map fst o1)).
    { unfold o1. intros k Hin. destruct (has_key key o); simpl; [exact Hin|].
      rewrite map_app, in_app_iff. now left. }
    assert (Hx : forall d' n', inPair parse d' n' x
                               = (d =? d')%string && (n =? n')%string).
    { intros d' n'. unfold inPair. now rewrite Ex. }
    split; [now rewrite accumulate_model_keys|]. split.
    + intros k b Hin. apply (accumulate_model_In _ _ _ _ _ Hd1) in Hin.
      destruct Hin as [[Hne Hin] | [-> [b0 [Hin ->]]]].
      * destruct (Hin1 _ _ Hin) as [Ho | [_ [Hc _]]]; [|contradiction].
        destruct (Hb _ _ Ho) as (Ek & Eb & y & Hy & Ey & Em).
        split; [exact Ek|]. split.
        -- rewrite Eb at 1. symmetry. apply bucketOfModel_snoc_other.
           rewrite Hx. apply andb_false_iff.
           destruct (String.eqb_spec d (date b)) as [E1 | N1]; [|now left].
           destruct (String.eqb_spec n (ModelChart.model b)) as [E2 | N2];
             [|now right].
           exfalso. apply Hne. rewrite Ek. unfold key. now rewrite E1, E2.
        -- exists y. split; [apply in_or_app; now left | now split].
      * assert (Hb0 : date b0 = d /\ ModelChart.model b0 = n
                      /\ b0 = bucketOfModel parse d n xs).
        { destruct (Hin1 _ _ Hin) as [Ho | [Eh [_ ->]]].
          - destruct (Hb _ _ Ho) as (Ek & Eb & y & Hy & Ey & Em).
            destruct (compositeKey_inj d (date b0) n (ModelChart.model b0))
              as [E1 E2].
            + apply modelName_has_no_pipe.
            + rewrite <- Em. apply modelName_has_no_pipe.
            + exact Ek.
            + split; [now symmetry|]. split; [now symmetry|].
              rewrite Eb at 1. now rewrite <- E1, <- E2.
          - split; [reflexivity|]. split; [reflexivity|].
            symmetry. apply bucketOfModel_unseen. intros y Hy Ey Em.
            apply (Hk _ _ Hy) in Ey. rewrite Em in Ey.
            apply has_key_model_In in Ey. unfold key in Eh. congruence. }
        destruct Hb0 as (E1 & E2 & E3). cbn [bumpModel date ModelChart.model].
        rewrite E1, E2. split; [reflexivity|]. split.
        -- rewrite bucketOfModel_snoc_same
             by (rewrite Hx, !String.eqb_refl; reflexivity).
           rewrite <- E3. unfold bumpModel. now rewrite E1, E2.
        -- exists x. split; [apply in_or_app; right; now left|]. now split.
    + intros y d' Hy Ey. rewrite accumulate_model_keys.
      apply in_app_or in Hy. destruct Hy as [Hy | [<- | []]].
      * apply Hsub. now apply (Hk y).
      * rewrite Ex in Ey. inversion Ey; subst. exact Hkey1.
  - split; [exact Hd|]. split.
    + intros k b Hin. destruct (Hb _ _ Hin) as (Ek & Eb & y & Hy & Ey & Em).
      split; [exact Ek|]. split.
      * rewrite Eb at 1. symmetry. apply bucketOfModel_snoc_other.
        unfold inPair. now rewrite Ex.
      * exists y. split; [apply in_or_app; now left | now split].
    + intros y d' Hy Ey. apply in_app_or in Hy. destruct Hy as [Hy | [<- | []]].
      * now apply (Hk y).
      * congruence.
Qed.

Lemma tracksModel_fold (parse : string -> option Z) (items : list Trace) :
  tracksModel parse items (fold_left (addToDayModel parse) items []).
Proof.
  induction items as [|x xs IH] using rev_ind.
  - split; [constructor|]. split; [intros k b [] | intros x d []].
  - rewrite fold_left_app. simpl. now apply tracksModel_step.
Qed.

(** *** groupByDayAndModel *)

Lemma NoDup_same_image {A B : Type} (f : A -> B) (l : list A) (a b : A) :
  NoDup (map f l) -> In a l -> In b l -> f a = f b -> a = b.
Proof.
  induction l as [|x l IH]; intros Hd Ha Hb E; [contradiction|].
  inversion Hd as [|? ? Hn Hd']; subst.
  destruct Ha as [-> | Ha], Hb as [-> | Hb]; auto.
  - elim Hn. rewrite E. now apply in_map.
  - elim Hn. rewrite <- E. now apply in_map.
Qed.

Lemma byDayModel_values (parse : string -> option Z) (items : list Trace) :
  let grouped := groupByDayAndModel parse items in
  NoDup (map (fun b => (date b, ModelChart.model b)) grouped)
  /\ (forall b, In b grouped ->
        b = bucketOfModel parse (date b) (ModelChart.model b) items
        /\ 1 <= count b
        /\ occurs "|" (ModelChart.model b) = false)
  /\ (forall x d, In x items -> keyOf parse x = Some d ->
        exists b, In b grouped /\ date b = d /\ ModelChart.model b = modelName x)
  /\ (forall x, Dashboard.model x = None -> modelName x = "Unknown").
Proof.
  intros grouped.
  destruct (tracksModel_fold parse items) as (Hd & Hb & Hk).
  set (o := fold_left (addToDayModel parse) items []) in *.
  assert (Hg : grouped = map snd o) by reflexivity.
  assert (Hkb : forall b, In b grouped ->
            In (compositeKey (date b) (ModelChart.model b), b) o).
  { intros b Hin. rewrite Hg in Hin. apply in_map_iff in Hin.
    destruct Hin as [[k b'] [E Hin]]. simpl in E. subst b'.
    destruct (Hb _ _ Hin) as [<- _]. exact Hin. }
  split; [|split; [|split]].
  - assert (Ek : map fst o
                 = map (fun p => compositeKey (fst p) (snd p))
                     (map (fun b => (date b, ModelChart.model b)) grouped)).
    { rewrite Hg, !map_map. apply map_ext_in. intros [k b] Hin. simpl.
      now destruct (Hb _ _ Hin) as [-> _]. }
    rewrite Ek in Hd. now apply NoDup_map_inv in Hd.
  - intros b Hin. destruct (Hb _ _ (Hkb b Hin)) as (_ & Eb & x & Hx & Ex & Em).
    split; [exact Eb|]. split.
    + rewrite Eb. unfold bucketOfModel. cbn [count].
      assert (Hf : In x (filter (inPair parse (date b) (ModelChart.model b)) items)).
      { apply filter_In. split; [exact Hx|]. unfold inPair.
        now rewrite Ex, Em, !String.eqb_refl. }
      destruct (filter _ items); [contradiction|]. simpl List.length. lia.
    + rewrite <- Em. apply modelName_has_no_pipe.
  - intros x d Hx Ex. specialize (Hk _ _ Hx Ex).
    apply in_map_iff in Hk. destruct Hk as [[k b] [E Hin]]. simpl in E. subst k.
    destruct (Hb _ _ Hin) as (Ek & _ & y & _ & _ & Em).
    destruct (compositeKey_inj d (date b) (modelName x) (ModelChart.model b))
      as [E1 E2].
    + apply modelName_has_no_pipe.
    + rewrite <- Em. apply modelName_has_no_pipe.
    + exact Ek.
    + exists b. split; [|now split].
      rewrite Hg. apply in_map_iff. now exists (compositeKey d (modelName x), b).
  - intros x Hx. unfold modelName. now rewrite Hx.
Qed.

(** For every parser and every sequence of records: there is one bucket for
    each day and model that occurs, and no two buckets for the same; each
    bucket holds the number, the token total and the latency total of
    exactly the records of its day and its model, of which there is at least
    one; a record without a model is a record of the model Unknown. *)
Theorem groupByDayAndModel_buckets (parse : string -> option Z)
    (items : list Trace) :
  let grouped := groupByDayAndModel parse items in
  NoDup (map (fun b => (date b, ModelChart.model b)) grouped)
  /\ (forall b, In b grouped ->
        b = bucketOfModel parse (date b) (ModelChart.model b) items
        /\ 1 <= count b
        /\ occurs "|" (ModelChart.model b) = false)
  /\ (forall x d, In x items -> keyOf parse x = Some d ->
        exists b, In b grouped /\ date b = d /\ ModelChart.model b = modelName x)
  /\ (forall x, Dashboard.model x = None -> modelName x = "Unknown").
Proof. exact (byDayModel_values parse items). Qed.

(** What the buckets give for a day and a model. *)
Lemma expected_points (parse : string -> option Z) (items : list Trace)
    (metric : string) :
  let grouped := groupByDayAndModel parse items in
  (forall b, In b grouped -> ModelChart.model b <> "__proto__" ->
     expectedPoint metric grouped (date b) (ModelChart.model b)
     = match metricValue metric b with
       | Some v => Value v
       | None => if inherited (ModelChart.model b)
                 then Inherited (ModelChart.model b) else Value 0
       end)
  /\ (forall b, In b grouped ->
        metricValue "calls" b
        = Some (JS.of_Z
                  (Z.of_nat
                     (List.length
                        (filter (inPair parse (date b) (ModelChart.model b))
                           items)))))
  /\ (forall d n,
        (forall b, In b grouped -> ~ (date b = d /\ ModelChart.model b = n)) ->
        inherited n = false ->
        expectedPoint metric grouped d n = Value 0)
  /\ (forall d n b0,
        In b0 grouped -> date b0 = d ->
        (forall b, In b grouped -> ~ (date b = d /\ ModelChart.model b = n)) ->
        inherited n = true ->
        expectedPoint metric grouped d n = Inherited n).
Proof.
  intros grouped.
  destruct (byDayModel_values parse items) as (Hd & Hb & _).
  fold grouped in Hd, Hb.
  split; [|split; [|split]]; cycle 3.
  { intros d n b0 Hin0 E0 Hno Hi. unfold expectedPoint.
    assert (He : existsb (fun b => (date b =? d)%string) grouped = true).
    { apply existsb_exists. exists b0. split; [exact Hin0|].
      now apply String.eqb_eq. }
    rewrite He, Hi. cbn [negb]. unfold lastFor.
    destruct (find _ (rev grouped)) as [b'|] eqn:Ef; [|reflexivity].
    apply find_some in Ef. destruct Ef as [Hin' Hb'].
    apply andb_true_iff in Hb'. destruct Hb' as [E1 E2].
    apply String.eqb_eq in E1, E2. apply in_rev in Hin'.
    elim (Hno b' Hin'). now split. }
  - intros b Hin Hp. unfold expectedPoint.
    assert (He : existsb (fun b0 => (date b0 =? date b)%string) grouped = true).
    { apply existsb_exists. exists b. split; [exact Hin | apply String.eqb_refl]. }
    rewrite He. cbn [negb].
    assert (Hl : lastFor (date b) (ModelChart.model b) grouped = Some b).
    { unfold lastFor.
      destruct (find _ (rev grouped)) as [b'|] eqn:Ef.
      - apply find_some in Ef. destruct Ef as [Hin' Hb'].
        apply andb_true_iff in Hb'. destruct Hb' as [E1 E2].
        apply String.eqb_eq in E1, E2. apply in_rev in Hin'.
        f_equal.
        apply (NoDup_same_image (fun b => (date b, ModelChart.model b)) grouped);
          auto. now rewrite E1, E2.
      - exfalso. apply in_rev in Hin.
        pose proof (find_none _ _ Ef b Hin) as C. cbn beta in C.
        rewrite !String.eqb_refl in C. discriminate. }
    rewrite Hl. apply String.eqb_neq in Hp. rewrite Hp.
    destruct (metricValue metric b); reflexivity.
  - intros b Hin. destruct (Hb b Hin) as [Eb _]. rewrite Eb at 1. reflexivity.
  - intros d n Hno Hi. unfold expectedPoint.
    destruct (existsb _ grouped); cbn [negb]; [|reflexivity].
    rewrite Hi. unfold lastFor.
    destruct (find _ (rev grouped)) as [b'|] eqn:Ef; [|reflexivity].
    apply find_some in Ef. destruct Ef as [Hin' Hb'].
    apply andb_true_iff in Hb'. destruct Hb' as [E1 E2].
    apply String.eqb_eq in E1, E2. apply in_rev in Hin'.
    elim (Hno b' Hin'). now split.
Qed.

(** *** The data points *)

Lemma indexOf_In (d : string) (l : list string) :
  In d l -> exists i, indexOf d l = Some i /\ nth_error l i = Some d.
Proof.
  induction l as [|x l IH]; intros H; [contradiction|]. cbn [indexOf].
  destruct (String.eqb_spec x d) as [-> | N].
  - exists O. now split.
  - destruct H as [E | H]; [contradiction|].
    destruct (IH H) as (i & E1 & E2). exists (S i). rewrite E1. now split.
Qed.

Lemma find_by_label (n : string) (l : list Dataset) :
  In n (map label l) ->
  exists ds, find (fun ds => (label ds =? n)%string) l = Some ds
             /\ In ds l /\ label ds = n.
Proof.
  intros H. destruct (find (fun ds => (label ds =? n)%string) l) as [ds|] eqn:E.
  - apply find_some in E. destruct E as [E1 E2]. apply String.eqb_eq in E2.
    exists ds. now repeat split.
  - apply in_map_iff in H. destruct H as (ds & E1 & E2).
    pose proof (find_none _ _ E ds E2) as C. cbn beta in C.
    rewrite E1, String.eqb_refl in C. discriminate.
Qed.

(** Every point of the chart is what the buckets give for its day and its
    model. *)
Lemma shownPoint_expected (parse : string -> option Z) (items : list Trace)
    (metric n d : string) :
  let grouped := groupByDayAndModel parse items in
  let s := buildModelChartSeries parse items metric in
  In n (map label (datasets s)) -> In d (labels s) ->
  shownPoint s n d = Some (expectedPoint metric grouped d n).
Proof.
  intros grouped s Hn Hd. unfold shownPoint.
  destruct (find_by_label n _ Hn) as (ds & Ef & Hin & El).
  destruct (indexOf_In d _ Hd) as (i & Ei & En).
  rewrite Ef, Ei.
  pose proof (series_data_expected parse items metric) as F.
  rewrite Forall_forall in F. rewrite (F ds Hin), El.
  exact (map_nth_error (fun d0 => expectedPoint metric grouped d0 n) _ _ En).
Qed.

(** What the datasets of the chart show. For a bucket whose model is not
    named [__proto__], the dataset of its model shows at its day the metric
    of that bucket: for the metric calls, the number of records of that day
    and model. For a day and a model of the chart without a bucket of the
    two, the dataset of the model shows 0 at the day, unless the model
    bears a name that every object inherits, such as constructor or
    toString: then the point is not a number but what the object inherits
    under that name. *)
Theorem model_chart_points (parse : string -> option Z) (items : list Trace)
    (metric : string) :
  let grouped := groupByDayAndModel parse items in
  let s := buildModelChartSeries parse items metric in
  (forall b, In b grouped -> ModelChart.model b <> "__proto__" ->
     shownPoint s (ModelChart.model b) (date b)
     = Some match metricValue metric b with
            | Some v => Value v
            | None => if inherited (ModelChart.model b)
                      then Inherited (ModelChart.model b) else Value 0
            end)
  /\ (forall b, In b grouped ->
        metricValue "calls" b
        = Some (JS.of_Z
                  (Z.of_nat
                     (List.length
                        (filter (inPair parse (date b) (ModelChart.model b))
                           items)))))
  /\ (forall d n,
        In d (labels s) -> In n (map label (datasets s)) ->
        (forall b, In b grouped -> ~ (date b = d /\ ModelChart.model b = n)) ->
        shownPoint s n d
        = Some (if inherited n then Inherited n else Value 0)).
Proof.
  intros grouped s.
  destruct (expected_points parse items metric) as (H1 & H2 & H3 & H4).
  fold grouped in H1, H2, H3, H4.
  destruct (model_series_labels parse items metric) as (Hl & Hm).
  fold grouped s in Hl, Hm.
  split; [|split].
  - intros b Hin Hp.
    rewrite (shownPoint_expected parse items metric).
    + f_equal. now apply H1.
    + apply Hm. now apply in_map.
    + apply Hl. now apply in_map.
  - exact H2.
  - intros d n Hd Hn Hno.
    rewrite (shownPoint_expected parse items metric) by assumption.
    f_equal. destruct (inherited n) eqn:Hi.
    + apply Hl, in_map_iff in Hd. destruct Hd as (b0 & E0 & Hin0).
      now apply (H4 d n b0).
    + now apply H3.
Qed.

(** *** Model names that differ in the separator only *)

Lemma str_or_nonempty (a b d : string) (c : ascii) :
  JS.str_or (Some (a ++ String c b)%string) d = (a ++ String c b)%string.
Proof. destruct a; reflexivity. Qed.

(** Sanitising merges models. Two records of one day whose model names
    differ only in that one has the separator where the other has a hyphen
    are counted as one model: grouping the two gives a single bucket with
    both of them under the hyphenated name. *)
Theorem separator_in_model_name_merges (parse : string -> option Z)
    (x y : Trace) (a b t d : string) :
  Dashboard.model x = Some (a ++ String "|" b)%string ->
  Dashboard.model y = Some (a ++ String "-" b)%string ->
  time x = Some t -> time y = Some t -> t <> ""%string ->
  Charts.dayKey parse t = Some d ->
  modelName x = modelName y
  /\ modelName y = replacePipes (a ++ String "-" b)%string
  /\ exists bucket,
       groupByDayAndModel parse [x; y] = [bucket]
       /\ date bucket = d
       /\ ModelChart.model bucket = modelName y
       /\ count bucket = 2.
Proof.
  intros Mx My Tx Ty Ht Hd.
  assert (E : modelName x = modelName y).
  { unfold modelName. rewrite Mx, My, !str_or_nonempty.
    apply sanitising_merges_models. }
  split; [exact E|]. split.
  { unfold modelName. now rewrite My, str_or_nonempty. }
  unfold groupByDayAndModel. cbn [fold_left]. unfold addToDayModel.
  rewrite Tx, Ty. apply String.eqb_neq in Ht. rewrite Ht, Hd.
  cbn [has_key negb app accumulate]. rewrite String.eqb_refl.
  rewrite <- E. cbn [has_key]. rewrite String.eqb_refl. cbn [orb negb accumulate].
  rewrite String.eqb_refl. cbn [map snd]. eexists. split; [reflexivity|].
  cbn [date ModelChart.model count]. auto.
Qed.

Lemma separator_in_model_name_merges_witness :
  let rec m :=
    {| time := Some "2024-03-02T08:00:00Z"; Dashboard.model := Some m;
       latency_ms := None; total_tokens := None; input_tokens := None;
       output_tokens := None; input_content := None; output_content := None |} in
  let x := rec "meta|llama" in
  let y := rec "meta-llama" in
  modelName x = modelName y
  /\ modelName y = replacePipes ("meta" ++ String "-" "llama")%string
  /\ exists bucket,
       groupByDayAndModel Dates.isoParse [x; y] = [bucket]
       /\ date bucket = "2024-03-02"
       /\ ModelChart.model bucket = modelName y
       /\ count bucket = 2.
Proof.
  intros rec x y.
  apply (separator_in_model_name_merges Dates.isoParse x y "meta" "llama"
           "2024-03-02T08:00:00Z" "2024-03-02");
    try reflexivity; discriminate.
Defined.

End ModelChartFacts.
